(* ===== verification/_CoqProject ===== *)
-Q . S2P
Prelude.v
CString.v
Printf.v
Commands.v
Float32.v
Rounding.v
Transport.v
Payload.v
Driver.v
Codec.v
Exchange.v
Queries.v
Frequency.v
Refinement.v
Session.v
Contract.v
Simulation.v
Independence.v
Device.v
DeviceSession.v
