(* ===== verification/Prelude.v ===== *)
(** * Verification of the Wisol Sigfox AT-command driver (c99-sigfox-wisol)

    ** The program

    The program is one C translation unit, [src/wisol_sigfox.c], with its
    header [src/wisol_sigfox.h].  It turns a handful of radio-module
    operations (readiness, identifier and PAC, frequencies, sending a
    frame, versions, power mode and power level) into AT command lines,
    hands each line to a serial routine the user of the driver supplies
    ([wisol_sigfox__serial_sync]) and decodes the text the module answers.
    Command lines are built with [snprintf] from a table of format strings
    indexed by an enumeration; answers are decoded with [strncmp], [atoi]
    and [strncpy].  Everything happens in fixed-size arrays on the stack;
    there is no state between two operations other than the module's own.

    ** Files, in dependency order

    - [Prelude] (this file): the libraries the development loads, character
      codes, the scope [wisol_scope], the tactics [split_test],
      [opt_inv] and [len], the hint database [wisol] that [len] computes
      lengths with, and the list lemmas the components share.
    - [CString]: C arrays of [char] as lists of [ascii] of the array's exact
      length; automatic arrays before their first write ([uninit], over a
      [junk] function from stack offsets to characters); [memset],
      [strncpy], [strncmp], [atoi] from ISO C, each [None] where C leaves
      the behaviour undefined.
    - [Printf]: [sprintf] and [snprintf] for the conversions the driver
      uses ([%s], [%u], [%c], [%02X]): formats parsed into directives,
      directives formatted against the argument list, the text stored with
      its terminator and cut to the size given.
    - [Commands]: the array [wisol_sigfox__commands] as the compiler reads
      it, the enumeration [wisol_sigfox__commmands_e], the indexing
      expression [command], and the documented syntax of each command.
    - [Float32]: the C type [float] as IEEE 754 binary32 through the
      standard library's [SpecFloat]: conversion from [int], addition,
      division, as [wisol_sigfox__freq_str_to_fl] uses them (line 115),
      the conversion to [float] of a value of a wider format
      ([f32_narrow]), the rational a float denotes ([f32_value],
      [nonneg]), and exactness of the conversion below [2^24].
    - [Rounding]: the rounding of [SpecFloat], for every binary format
      (section [format], with the precision and the maximal exponent as
      variables): a real [located] between two multiples of a power of
      two stays located under the shifts of the algorithm,
      round-to-nearest-even picks a multiple within half an interval,
      and from there the error of a division with a quotient below one
      ([SFdiv_near], [SFdiv_nonneg]), of an addition of floats that are
      not negative ([SFadd_near], [SFadd_nonneg]) and of the conversion
      to [float] ([f32_narrow_nonneg]).
    - [Transport]: [wisol_sigfox__serial_sync] as the class [Transport]
      (one operation [respond], one law: the answer fits the size given),
      the class [Terminating] of transports that end every answer with a
      terminator, the monad [M] of the driver (transport state and log of
      calls; [None] is undefined behaviour), and two implementations,
      [script] (answers stored as they are) and [lines] (answers cut and
      terminated).
    - [Payload]: the loop of [wisol_sigfox__send_frame] that formats the
      payload ([payload_hex_loop], [payload_hex]), the reference encoding
      [hex_encode] and its inverse [hex_decode].
    - [Driver]: one definition per function of [src/wisol_sigfox.c], named
      as in the source, in the monad [M].  A function's automatic arrays are
      [uninit] at offsets of its own frame; an array the caller passes is an
      argument and its new contents are the result.  [get_identity],
      [get_freq] and [get_information] are the bodies that two functions
      share up to constants.
    - [Codec]: the operations the driver promises, stated on texts and
      transactions ([transact]) with no stack, no array and no C library,
      the relation [refines] between a function and an operation, and
      its form in one state, [simulates], with the rules that compose it
      ([simulates_ret], [simulates_bind], [simulates_mono]).
    - [Exchange]: the shared steps of every operation (build a line, send
      it, store the answer: [send_line], [exchange]) and the theorems on
      [wisol_sigfox__ready] and [wisol_sigfox__send_frame].
    - [Queries]: the theorems on the identifier, PAC, version and power
      operations.
    - [Frequency]: the theorems on [wisol_sigfox__freq_str_to_fl] and the
      two frequency queries.
    - [Refinement]: every function of [Driver] refines its operation of
      [Codec].
    - [Session]: the functions the header declares as the requests of a
      caller ([request]), what they return ([response], [perform],
      [exec]), what the header asks of the arguments ([header_ok]), what
      the end-to-end theorems assume of them ([request_ok]: the same,
      except that a frame announces at least one byte and may announce
      more than twelve), and sequences of requests on one transport
      ([run]).
    - [Contract]: the contract of every request in full: the calls it
      makes ([calls_for], [session_calls]), the state of the transport
      after them ([replay]) and the condition under which it returns
      ([safe], [session_safe]); the theorems rest on the equations that [Transport],
      [Printf], [Exchange] and [Queries] prove for each operation (the
      lemmas [..._eq]: the outcome of the operation in every case, the
      undefined ones included).
    - [Simulation]: the requests of a caller as operations of the codec
      ([codec_perform]), sessions with their results on both sides
      ([run_all], [codec_run]), and the refinement of one by the other.
    - [Independence]: when the outcome of a request does not depend on
      what the stack held ([stack_free]), and what a transport that
      stores nothing (a timeout) makes the functions return.
    - [Device]: a model of the module as a terminating transport (status,
      register 302, frequencies, identifier, PAC and the other
      information texts, power mode, frames decoded from their
      hexadecimal text), from the specification, its invariant
      [device_ok], and the driver's functions run against it.
    - [DeviceSession]: whole sessions against the module: the state the
      module ends in ([device_after]), the frequency functions end to
      end, and what the contract of the header is worth
      ([empty_frame_terminated]).

    ** What the theorems show

    - For each function, on every transport: the command line, size and
      timeout of each call it makes, the log of calls afterwards, and its
      result as a function of the transport's answer and of what the stack
      held ([send_frame_exchange], [get_id_string],
      [get_tx_rx_freq_exchange], [get_firmware_version_exchange],
      [get_power_level_decimal]).
    - Guards and bounds: a payload above 12 bytes is rejected before any
      call ([send_frame_rejects]); 13 bytes would overflow the text array
      ([payload_hex_overflow]); a size of [2^31] or more reaches the
      transport as a negative [int] ([get_information_size_wraps]).
    - Definedness: with a terminating transport a request returns exactly
      when it is [safe], and a session exactly when each request is safe
      in the state the calls before it leave ([run_safe_iff]).  An array
      too short for what the function clears or stores, a payload array
      shorter than the size announced, a stack without a terminator for
      an empty payload and an answer [atoi] cannot read are the undefined
      cases, and there are no others.
    - The payload text: two upper-case hexadecimal digits per byte, which
      decode to the payload ([payload_hex_roundtrip], [payload_hex_upper]).
    - Where a result depends on uninitialised memory or is undefined: an
      unterminated answer to the readiness check ([ready_unterminated]),
      an empty payload ([send_frame_empty]),
      a short frequency answer ([freq_str_to_fl_stale]), answers that fill
      their array ([get_power_level_undefined],
      [get_firmware_version_unterminated],
      [get_information_unterminated]), and the identifier cut to 7
      characters by a terminating transport ([get_id_terminated_short]).
    - The frequency conversion: defined on every answer array
      ([freq_str_to_fl_total]), its value on nine digits
      ([freq_str_to_fl_digits]), and its accuracy: the conversion of the
      two fields is exact ([f32_of_int_exact]) and the [float] returned is
      within [2^-15 + 2^-25] MHz of the frequency the nine digits denote,
      for every answer ([freq_str_to_fl_accurate]), proved from the
      rounding algorithm and not by enumeration.  The same bound holds
      when the C implementation evaluates line 115 in [double] or
      [long double] and converts on return
      ([freq_of_ints_in_accurate]), although the [float] returned can
      then be the neighbour of the one the evaluation in [float] gives
      ([freq_of_ints_in_differs]).
    - The command table: 30 elements because of literals that lack a comma,
      none of which an enumerator designates ([command_table]).
    - Refinement: with a terminating transport each function computes its
      operation of [Codec], so that nothing of the stack shows in a result
      (the theorems [..._refines] of [Refinement]); composed along a
      session, every result of a session of the codec is a result of the
      session of the driver, request by request, with the same calls and
      the same transport afterwards, provided each request is safe where
      it is made ([run_simulates]).
    - Sessions: on every transport and stack, a sequence of operations
      that returns has logged exactly the calls of its requests, in
      order: one per request, two for the firmware version and none for a
      rejected frame, each with its command line, size and timeout
      ([run_log]).
    - Stack independence: with a terminating transport, a session has the
      same outcome on every stack, whatever the arrays the caller passes:
      the same results, transport and log, or no result on any stack
      ([run_stack_independent]; the exceptions are the empty frame
      and a frequency answer of fewer than three characters);
      with a transport that stores nothing, the readiness check and the
      result of a frame are read from the stack ([timeout_reads_stack]).
    - End to end against the module model: the bytes the caller passes to
      [wisol_sigfox__send_frame] are the bytes the module receives
      ([send_frame_delivers]), the power level set is the power level
      read back ([power_level_roundtrip]), an empty payload can make
      the module send bytes of the stack ([send_frame_empty_leaks]), the
      frequency functions return the frequency the module holds to within
      the rounding ([device_frequency]), and every session of requests
      that satisfy [request_ok] returns, with the module in the state the
      requests describe and in order ([device_session_returns]).  Under
      the contract of the header alone ([header_ok]) a session returns
      exactly when every frame of no bytes finds a terminator on the
      stack where [payload_buf] is allocated, and the module stays in
      order ([header_session_returns]).

    ** Bounds and fuel

    Recursion is structural on an array or on a count the C code passes
    ([n] of [strncmp], [strncpy], [memset]; [payload_size] of the loop).
    The only fuel is the number of digits of a conversion: [digits_be] gets
    10 for [%u] and 8 for [%02X], the number of decimal, respectively
    hexadecimal, digits of the largest 32-bit [unsigned int], so the fuel
    never runs out ([fmt_u_digits], [fmt_02X_byte]).  [int] is 32 bits
    ([INT_MIN], [INT_MAX]; [to_int] is the conversion of a [size_t] to the
    [int] parameter of the transport); [uint8_t] values are reduced modulo
    256 ([to_uint8]).  The module model formats a frequency with fuel 9,
    the digits of an answer ([fmt_09_digits]).  The rounding lemmas are
    stated for reals that are not negative and below a power of two [2^k]
    with [k] below the maximal exponent of the format, so that no result
    overflows; the frequencies use [k = 0] for the quotient and [k = 10]
    for the sum, which is where the bound [2^-25 + 2^-15] comes from.
    [Driver] evaluates line 115 in [float] ([FLT_EVAL_METHOD] 0, as on
    the microcontrollers the driver is written for); [freq_of_ints_in]
    is the same line in a wider format, for which the formats of at
    least 53 digits (binary64 and the extended formats) are covered.

    ** What is not modelled

    The implementation of [wisol_sigfox__serial_sync] (UART, timing, the
    module itself) is outside the repository: it is the interface
    [Transport], and the timeout is recorded in the log of calls, not
    interpreted.  The one law of the interface, that an answer is no
    longer than the size given, is assumed of that implementation: the
    header does not state it, the specification does.  A value of
    [wisol_sigfox_power_mode_t] is one of its three enumerators; a C
    caller can pass any integer of the enumeration's underlying type, for
    which [(uint8_t)mode] would wrap as [to_uint8] does, and these values
    are not requests of the model.  Of the C library the routines the driver calls are
    defined, with the conversions its formats use; nothing else of the
    library is used by the sources.  Floating point is the standard library's
    specification of IEEE 754 arithmetic, not a compiler's code for it;
    the rounding lemmas cover what line 115 computes with (operands that
    are not negative, results in the normal range), not the arithmetic in
    general.  The module model answers the commands the driver sends and
    [ERROR] to the rest; it records the power mode it is put in and
    answers the version queries with texts it holds, for which the
    specification gives no grammar; what the module does on the air and
    in its sleep modes is outside the repository.  The entries
    of the command table that no function uses are transcribed but have no
    syntax attached.  The remaining lines of the two source files are the
    licence comments, the include directives and the [extern "C"] guards. *)

From Stdlib Require Export ZArith Ascii String Lia.
From stdpp Require Export base tactics option list numbers strings.

#[global] Open Scope Z_scope.

(** ** Characters *)

Declare Scope wisol_scope.
Delimit Scope wisol_scope with wisol.

(** The code of a character, as the C expression [(unsigned char)c]. *)
Definition code (c : ascii) : Z := Z.of_N (N_of_ascii c).

(** The character with a given code, as the C conversion to [char]: the
    value is reduced modulo 256. *)
Definition chr (z : Z) : ascii := ascii_of_N (Z.to_N (z mod 256)).

(** A string literal as the characters of its array, terminator excluded. *)
Definition chars (s : string) : list ascii := list_ascii_of_string s.

Notation "'assert!' b ; k" := (if b then k else None)
  (at level 20, b at level 0, k at level 200, only parsing) : wisol_scope.

#[global] Open Scope wisol_scope.

(** ** Tactics *)

(** [split_test] splits on the first [decide] or boolean test of the goal. *)
Ltac split_test :=
  match goal with
  | |- context [decide ?P] => destruct (decide P)
  | |- context [bool_decide ?P] => destruct (bool_decide_reflect P)
  | |- context [if ?b then _ else _] => destruct b eqn:?
  end.

(** [opt_inv] decomposes hypotheses of the form [m ≫= f = Some x]. *)
Ltac opt_inv :=
  repeat match goal with
  | H : (_ ≫= _) = Some _ |- _ => apply bind_Some in H; destruct H as (? & ? & H)
  | H : (_ <$> _) = Some _ |- _ => apply fmap_Some in H; destruct H as (? & ? & ?)
  | H : Some _ = Some _ |- _ => inv H
  | H : None = Some _ |- _ => discriminate H
  | H : (if ?b then _ else None) = Some _ |- _ => destruct b eqn:?; [|discriminate H]
  end.

Create HintDb wisol discriminated.
Create Rewrite HintDb wisol.

(** ** Character codes *)

Lemma code_range (c : ascii) : 0 <= code c < 256.
Proof.
  unfold code. pose proof (N_ascii_bounded c). lia.
Qed.

Lemma chr_code (c : ascii) : chr (code c) = c.
Proof.
  unfold chr, code. rewrite Z.mod_small by apply code_range.
  rewrite N2Z.id. apply ascii_N_embedding.
Qed.

Lemma code_chr (z : Z) : code (chr z) = z mod 256.
Proof.
  unfold chr, code. pose proof (Z.mod_pos_bound z 256 eq_refl).
  rewrite N_ascii_embedding by lia. lia.
Qed.

Lemma code_inj (c d : ascii) : code c = code d -> c = d.
Proof.
  intros H. rewrite <- (chr_code c), <- (chr_code d). by rewrite H.
Qed.

#[export] Hint Resolve code_range : wisol.
#[export] Hint Rewrite chr_code code_chr : wisol.

(** ** Lists as arrays *)

Section lists.
Context {A : Type}.
Implicit Types (l k : list A) (n i : nat).

Lemma length_take_le l n : (n <= length l)%nat -> length (take n l) = n.
Proof. rewrite length_take. lia. Qed.

Lemma take_replicate_app n (x : A) l : take n (replicate n x ++ l) = replicate n x.
Proof. by rewrite take_app_length' by (by rewrite length_replicate). Qed.

Lemma drop_replicate_app n (x : A) l : drop n (replicate n x ++ l) = l.
Proof. by rewrite drop_app_length' by (by rewrite length_replicate). Qed.

Lemma lookup_take_drop l n i :
  (n <= length l)%nat -> drop n l !! i = l !! (n + i)%nat.
Proof. intros _. apply lookup_drop. Qed.

Lemma not_elem_of_take (x : A) l n : x ∉ l -> x ∉ take n l.
Proof.
  intros Hx (i & Hi & _)%elem_of_take. by apply list_elem_of_lookup_2 in Hi.
Qed.

Lemma not_elem_of_drop (x : A) l n : x ∉ l -> x ∉ drop n l.
Proof. intros Hx Hin. by apply Hx, (subseteq_drop n). Qed.

Lemma forallb_Forall (f : A -> bool) l :
  forallb f l = true -> Forall (fun x => f x = true) l.
Proof.
  rewrite forallb_forall, Forall_forall. intros Hf x Hx.
  by apply Hf, list_elem_of_In.
Qed.

Lemma Forall_forallb (f : A -> bool) l :
  Forall (fun x => f x = true) l -> forallb f l = true.
Proof.
  rewrite forallb_forall, Forall_forall. intros Hf x Hx.
  by apply Hf, list_elem_of_In.
Qed.

End lists.

#[export] Hint Rewrite @length_app @length_take @length_drop @length_replicate
  @length_fmap @length_seq @length_cons @length_nil : wisol.

(** [len] proves a goal about the lengths of arrays: the constants of the
    database [wisol] are unfolded, the lengths are computed with its
    rewrite lemmas, in the goal and in the hypotheses, and the arithmetic
    is left to [lia], after computing the lengths of closed lists if
    need be.  The files add
    the sizes and the lengths of their own definitions to the database. *)
Ltac len :=
  try autounfold with wisol in *; autorewrite with wisol in *;
  first [lia | simpl in *; lia].
