(* ===== verification/CString.v ===== *)
(** * C arrays of characters and the C library routines the driver calls

    An array [char buf[n]] is a list of [n] characters.  The routines below
    follow ISO C for the calls [src/wisol_sigfox.c] makes: [memset],
    [strncpy], [strncmp] and [atoi].  Each returns [None] exactly where C
    leaves the behaviour undefined: an access past the end of an array, or
    an [atoi] result that [int] cannot hold. *)

From S2P Require Import Prelude.

(** ** Arrays *)

(** The string terminator. *)
Definition NUL : ascii := Ascii.zero.

(** The array of a string literal: its characters and the terminator. *)
Definition lit (s : string) : list ascii := chars s ++ [NUL].

(** What the stack holds before a function initialises its arrays: one
    character per stack offset. *)
Definition junk : Type := nat -> ascii.

(** The contents of [char a[n]] declared at stack offset [off], before its
    first write. *)
Definition uninit (j : junk) (off n : nat) : list ascii := j <$> seq off n.

(** Store [bytes] at [buf + off]; undefined past the end of [buf]. *)
Definition poke (buf : list ascii) (off : nat) (bytes : list ascii)
  : option (list ascii) :=
  assert! (bool_decide (off + length bytes <= length buf)%nat);
  Some (take off buf ++ bytes ++ drop (off + length bytes) buf).

(** The string that starts at [buf]: the characters before the first
    terminator; undefined when the array holds no terminator. *)
Fixpoint cstr (buf : list ascii) : option (list ascii) :=
  match buf with
  | [] => None
  | c :: r => if decide (c = NUL) then Some [] else (c ::.) <$> cstr r
  end.

Definition strlen (buf : list ascii) : option nat := length <$> cstr buf.

(** The characters of [a] before its first terminator, or all of them when
    it has none: the text of an answer that may lack its terminator. *)
Fixpoint strn (a : list ascii) : list ascii :=
  match a with
  | [] => []
  | c :: r => if decide (c = NUL) then [] else c :: strn r
  end.

(** ** [memset(buf, c, n)] *)
Definition memset (buf : list ascii) (c : Z) (n : nat) : option (list ascii) :=
  poke buf 0 (replicate n (chr c)).

(** ** [strncpy(dst, src, n)]

    [strncpy_src src n] is the [n] characters stored: those of [src] up to
    its terminator, then terminators up to [n]. *)
Fixpoint strncpy_src (src : list ascii) (n : nat) {struct n}
  : option (list ascii) :=
  match n with
  | O => Some []
  | S n' =>
      match src with
      | [] => None
      | c :: r =>
          if decide (c = NUL) then Some (replicate n NUL)
          else (c ::.) <$> strncpy_src r n'
      end
  end.

Definition strncpy (dst src : list ascii) (n : nat) : option (list ascii) :=
  bytes ← strncpy_src src n; poke dst 0 bytes.

(** ** [strncmp(s1, s2, n)]

    The difference of the first two characters that differ among the first
    [n], as [unsigned char]; comparison stops after a terminator. *)
Fixpoint strncmp (s1 s2 : list ascii) (n : nat) {struct n} : option Z :=
  match n with
  | O => Some 0
  | S n' =>
      match s1, s2 with
      | c1 :: r1, c2 :: r2 =>
          if decide (c1 = c2)
          then if decide (c1 = NUL) then Some 0 else strncmp r1 r2 n'
          else Some (code c1 - code c2)
      | _, _ => None
      end
  end.

(** ** [atoi(s)] *)

Definition isspace (c : ascii) : bool :=
  (code c =? 32) || ((9 <=? code c) && (code c <=? 13)).

Definition isdigit (c : ascii) : bool :=
  (48 <=? code c) && (code c <=? 57).

Definition INT_MIN : Z := - 2147483648.
Definition INT_MAX : Z := 2147483647.

Fixpoint skip_space (s : list ascii) : option (list ascii) :=
  match s with
  | [] => None
  | c :: r => if isspace c then skip_space r else Some s
  end.

(** The number a list of decimal digits denotes, most significant first. *)
Definition dec_step (acc : Z) (c : ascii) : Z := 10 * acc + (code c - 48).
Definition dec_value (ds : list ascii) : Z := fold_left dec_step ds 0.

(** The value of the decimal digits at the start of [s], continuing [acc];
    the scan ends at the first character that is not a digit. *)
Fixpoint digits_val (s : list ascii) (acc : Z) : option Z :=
  match s with
  | [] => None
  | c :: r =>
      if isdigit c then digits_val r (dec_step acc c) else Some acc
  end.

Definition atoi (s : list ascii) : option Z :=
  s' ← skip_space s;
  v ← match s' with
      | [] => None
      | c :: r =>
          if decide (c = "-"%char) then Z.opp <$> digits_val r 0
          else if decide (c = "+"%char) then digits_val r 0
          else digits_val s' 0
      end;
  assert! (bool_decide (INT_MIN <= v <= INT_MAX)); Some v.

(** [nul_free] proves that a closed text holds no terminator. *)
Ltac nul_free := by apply (bool_decide_unpack _).

(** * Properties *)

Section arrays.
Implicit Types (buf s r bytes : list ascii) (n off : nat).

Lemma length_uninit j off n : length (uninit j off n) = n.
Proof. unfold uninit. by rewrite length_fmap, length_seq. Qed.
#[local] Hint Rewrite length_uninit : wisol.

Lemma lookup_uninit j off n i :
  (i < n)%nat -> uninit j off n !! i = Some (j (off + i)%nat).
Proof.
  intros Hi. unfold uninit. by rewrite list_lookup_fmap, lookup_seq_lt.
Qed.

(** ** Stores *)

Lemma poke_Some buf off bytes :
  (off + length bytes <= length buf)%nat ->
  poke buf off bytes = Some (take off buf ++ bytes ++ drop (off + length bytes) buf).
Proof. intros H. unfold poke. by rewrite bool_decide_true. Qed.

Lemma poke_None buf off bytes :
  (length buf < off + length bytes)%nat -> poke buf off bytes = None.
Proof. intros H. unfold poke. rewrite bool_decide_false; [done | lia]. Qed.

Lemma poke_inv buf off bytes buf' :
  poke buf off bytes = Some buf' ->
  (off + length bytes <= length buf)%nat /\
  buf' = take off buf ++ bytes ++ drop (off + length bytes) buf.
Proof.
  unfold poke. destruct (bool_decide_reflect (off + length bytes <= length buf)%nat);
    [|done]. by intros [= <-].
Qed.

Lemma poke_length buf off bytes buf' :
  poke buf off bytes = Some buf' -> length buf' = length buf.
Proof.
  intros [Hle ->]%poke_inv.
  rewrite !length_app, length_take, length_drop. lia.
Qed.

Lemma poke_0 buf bytes :
  (length bytes <= length buf)%nat ->
  poke buf 0 bytes = Some (bytes ++ drop (length bytes) buf).
Proof. intros H. by rewrite poke_Some. Qed.

Lemma memset_Some buf c n :
  (n <= length buf)%nat ->
  memset buf c n = Some (replicate n (chr c) ++ drop n buf).
Proof.
  intros H. unfold memset. rewrite poke_0 by (by rewrite length_replicate).
  by rewrite length_replicate.
Qed.

(** ** Strings *)

Lemma cstr_app s r : NUL ∉ s -> cstr (s ++ NUL :: r) = Some s.
Proof.
  induction s as [|c s IH]; simpl; intros Hs; [done|].
  apply not_elem_of_cons in Hs as [Hc Hs].
  rewrite decide_False by done. by rewrite IH.
Qed.

Lemma cstr_inv buf s :
  cstr buf = Some s -> (NUL ∉ s) /\ buf = s ++ NUL :: drop (S (length s)) buf.
Proof.
  revert s. induction buf as [|c buf IH]; simpl; intros s; [done|].
  destruct (decide (c = NUL)) as [->|Hc].
  - intros [= <-]. split; [apply not_elem_of_nil | by rewrite drop_0].
  - intros (s' & Hs' & ->)%fmap_Some. destruct (IH _ Hs') as [Hn Hb].
    split; [by apply not_elem_of_cons | simpl; by rewrite <- Hb].
Qed.

Lemma cstr_Some buf s :
  cstr buf = Some s <-> (NUL ∉ s) /\ exists r, buf = s ++ NUL :: r.
Proof.
  split.
  - intros [Hn Hb]%cstr_inv. eauto.
  - intros [Hn [r ->]]. by apply cstr_app.
Qed.

Lemma cstr_None buf : cstr buf = None <-> NUL ∉ buf.
Proof.
  induction buf as [|c buf IH]; simpl.
  - split; [intros _; apply not_elem_of_nil | done].
  - rewrite not_elem_of_cons. destruct (decide (c = NUL)) as [->|Hc].
    + split; [done | by intros [? _]].
    + rewrite fmap_None, IH. split; [by split | by intros [_ ?]].
Qed.

(** An array holds a string exactly when it holds a terminator. *)
Lemma cstr_is_Some buf : is_Some (cstr buf) <-> NUL ∈ buf.
Proof.
  rewrite <- not_eq_None_Some, cstr_None. split; [apply dec_stable | by intros ? ?].
Qed.

Lemma cstr_length buf s : cstr buf = Some s -> (length s < length buf)%nat.
Proof.
  intros [_ Hb]%cstr_inv. apply (f_equal length) in Hb.
  rewrite length_app in Hb. simpl in Hb. lia.
Qed.

Lemma cstr_app_l buf r : NUL ∈ buf -> cstr (buf ++ r) = cstr buf.
Proof.
  intros Hin. destruct (cstr buf) as [s|] eqn:E.
  - apply cstr_inv in E as [Hs ->]. rewrite <- app_assoc. by apply cstr_app.
  - by apply cstr_None in E.
Qed.

Lemma strn_no_NUL buf : NUL ∉ strn buf.
Proof.
  induction buf as [|c r IH]; simpl; [apply not_elem_of_nil|].
  destruct (decide (c = NUL)); [apply not_elem_of_nil | by apply not_elem_of_cons].
Qed.

Lemma length_strn buf : (length (strn buf) <= length buf)%nat.
Proof.
  induction buf as [|c r IH]; simpl; [done|].
  destruct (decide (c = NUL)); simpl; lia.
Qed.

Lemma length_strn_lt buf : NUL ∈ buf -> (length (strn buf) < length buf)%nat.
Proof.
  induction buf as [|c r IH]; simpl; [by intros ?%elem_of_nil|].
  destruct (decide (c = NUL)) as [->|Hc]; simpl; [lia|].
  intros [?|Hr]%elem_of_cons; [done|]. apply IH in Hr. lia.
Qed.

Lemma strn_split buf : NUL ∈ buf -> exists rest, buf = strn buf ++ NUL :: rest.
Proof.
  induction buf as [|c r IH]; simpl; [by intros ?%elem_of_nil|].
  destruct (decide (c = NUL)) as [->|Hc]; [by exists r|].
  intros [?|Hr]%elem_of_cons; [done|]. destruct (IH Hr) as [rest Hrest].
  exists rest. simpl. by rewrite <- Hrest.
Qed.

Lemma strn_id buf : NUL ∉ buf -> strn buf = buf.
Proof.
  induction buf as [|c r IH]; simpl; [done|]. intros [Hc Hr]%not_elem_of_cons.
  rewrite decide_False by done. by rewrite IH.
Qed.

(** An array that continues with a terminator holds the text of its
    first part. *)
Lemma cstr_strn buf r : cstr (buf ++ NUL :: r) = Some (strn buf).
Proof.
  induction buf as [|c buf IH]; simpl; [done|].
  destruct (decide (c = NUL)); [done|]. by rewrite IH.
Qed.

Lemma cstr_Some_strn buf s : cstr buf = Some s -> strn buf = s.
Proof.
  revert s. induction buf as [|c buf IH]; intros s; simpl; [done|].
  destruct (decide (c = NUL)); [by intros [= <-]|].
  intros (s' & Hs' & ->)%fmap_Some. by rewrite (IH _ Hs').
Qed.

Lemma cstr_take buf s n :
  cstr buf = Some s -> (length s < n)%nat -> cstr (take n buf) = Some s.
Proof.
  intros [Hn Hb]%cstr_inv Hlt. rewrite Hb.
  rewrite take_app_ge by lia.
  destruct (n - length s)%nat as [|m] eqn:E; [lia|]. simpl. by apply cstr_app.
Qed.

End arrays.

#[export] Hint Rewrite length_uninit : wisol.

(** ** [strncpy] *)

Section strncpy.
Implicit Types (src dst s bytes : list ascii) (n : nat).

Lemma strncpy_src_length src n bytes :
  strncpy_src src n = Some bytes -> length bytes = n.
Proof.
  revert src bytes. induction n as [|n IH]; intros src bytes; simpl.
  - by intros [= <-].
  - destruct src as [|c r]; [done|]. destruct (decide (c = NUL)).
    + intros [= <-]. simpl. by rewrite length_replicate.
    + intros (b & Hb & ->)%fmap_Some. simpl. f_equal. eauto.
Qed.

(** Copying never reads past [n] characters of the source. *)
Lemma strncpy_src_total src n :
  (n <= length src)%nat -> is_Some (strncpy_src src n).
Proof.
  revert src. induction n as [|n IH]; intros src Hn; simpl; [by eexists|].
  destruct src as [|c r]; simpl in Hn; [lia|].
  destruct (decide (c = NUL)); [by eexists|].
  destruct (IH r) as [b Hb]; [lia|]. rewrite Hb. by eexists.
Qed.

(** With a terminated source, the copy is the string cut at [n], padded. *)
Lemma strncpy_src_cstr src s n :
  cstr src = Some s ->
  strncpy_src src n = Some (take n s ++ replicate (n - length s) NUL).
Proof.
  revert src s. induction n as [|n IH]; intros src s; simpl; [done|].
  destruct src as [|c r]; simpl; [done|]. destruct (decide (c = NUL)).
  - by intros [= <-].
  - intros (s' & Hs' & ->)%fmap_Some. by rewrite (IH _ _ Hs').
Qed.

(** Without a terminator among the first [n] characters, it is those. *)
Lemma strncpy_src_take src n :
  (n <= length src)%nat -> NUL ∉ take n src -> strncpy_src src n = Some (take n src).
Proof.
  revert src. induction n as [|n IH]; intros src Hn Hnul; simpl; [done|].
  destruct src as [|c r]; simpl in *; [lia|].
  apply not_elem_of_cons in Hnul as [Hc Hr].
  rewrite decide_False by done. rewrite IH by (done || lia). done.
Qed.

Lemma strncpy_Some dst src n bytes :
  strncpy_src src n = Some bytes -> (n <= length dst)%nat ->
  strncpy dst src n = Some (bytes ++ drop n dst).
Proof.
  intros Hb Hn. unfold strncpy. rewrite Hb. simpl.
  pose proof (strncpy_src_length _ _ _ Hb) as Hl.
  rewrite poke_0 by lia. by rewrite Hl.
Qed.

End strncpy.

(** ** [strncmp] *)

Section strncmp.
Implicit Types (lit buf : list ascii) (n : nat).

Lemma strncmp_swap (s1 s2 : list ascii) n : strncmp s2 s1 n = Z.opp <$> strncmp s1 s2 n.
Proof.
  revert s1 s2. induction n as [|n IH]; intros [|c1 r1] [|c2 r2]; simpl; try done.
  destruct (decide (c1 = c2)) as [->|Hne].
  - rewrite decide_True by done. destruct (decide (c2 = NUL)); [done | apply IH].
  - rewrite decide_False by done. simpl. f_equal. lia.
Qed.

(** Comparing with a literal: the result is defined as soon as the array is
    longer than the literal, and it is zero exactly when the array holds
    the literal as its string. *)
Lemma strncmp_lit lit buf n :
  NUL ∉ lit -> (length lit < n)%nat -> (length lit < length buf)%nat ->
  exists z, strncmp (lit ++ [NUL]) buf n = Some z /\ (z = 0 <-> cstr buf = Some lit).
Proof.
  revert buf n. induction lit as [|c lit IH]; intros [|c2 r2] [|n] Hnul Hn Hb;
    simpl in *; try lia.
  - destruct (decide (NUL = c2)) as [<-|Hne].
    + exists 0. by rewrite decide_True.
    + exists (code NUL - code c2). rewrite decide_False by done. split; [done|].
      split; [|by destruct (cstr r2)].
      intros Hz. destruct Hne. apply code_inj. lia.
  - apply not_elem_of_cons in Hnul as [Hc Hl].
    destruct (decide (c = c2)) as [<-|Hne].
    + rewrite !decide_False by done.
      destruct (IH r2 n) as (z & -> & Hz); [done | lia | lia |].
      exists z. split; [done|]. rewrite Hz. split; [by intros -> |].
      by intros (s' & -> & [= ->])%fmap_Some.
    + exists (code c - code c2). split; [done|]. split.
      * intros Hz. destruct Hne. apply code_inj. lia.
      * destruct (decide (c2 = NUL)); [done|].
        by intros (s' & _ & [= ? _])%fmap_Some.
Qed.

End strncmp.

(** ** [atoi] *)

Section atoi.
Implicit Types (s ds r : list ascii) (acc v : Z).

Lemma isdigit_code c : isdigit c = true <-> 48 <= code c <= 57.
Proof. unfold isdigit. lia. Qed.

Lemma isdigit_NUL : isdigit NUL = false.
Proof. done. Qed.

Lemma isspace_NUL : isspace NUL = false.
Proof. done. Qed.

Lemma isspace_not_digit c : isdigit c = true -> isspace c = false.
Proof. unfold isdigit, isspace. lia. Qed.

Lemma dec_step_bounds acc c :
  isdigit c = true -> 10 * acc <= dec_step acc c <= 10 * acc + 9.
Proof. intros Hc%isdigit_code. unfold dec_step. lia. Qed.

Lemma fold_dec_step_app ds1 ds2 acc :
  fold_left dec_step (ds1 ++ ds2) acc = fold_left dec_step ds2 (fold_left dec_step ds1 acc).
Proof. apply fold_left_app. Qed.

(** The scan reads the digits and stops at the first other character. *)
Lemma digits_val_app ds c r acc :
  Forall (fun d => isdigit d = true) ds -> isdigit c = false ->
  digits_val (ds ++ c :: r) acc = Some (fold_left dec_step ds acc).
Proof.
  intros Hds Hc. revert acc. induction Hds as [|d ds Hd _ IH]; intros acc; simpl.
  - by rewrite Hc.
  - by rewrite Hd, IH.
Qed.

(** The scan ends inside any array that holds a terminator. *)
Lemma digits_val_total s acc : NUL ∈ s -> is_Some (digits_val s acc).
Proof.
  revert acc. induction s as [|c r IH]; intros acc Hin; [by apply elem_of_nil in Hin|].
  simpl. destruct (isdigit c) eqn:Hc; [|by eexists].
  apply IH. apply elem_of_cons in Hin as [<-|]; [by rewrite isdigit_NUL in Hc | done].
Qed.

(** A scan over an array of [k+1] characters returns less than [10^k]
    times the successor of its start value. *)
Lemma digits_val_bound s acc v :
  0 <= acc -> digits_val s acc = Some v ->
  acc <= v < (acc + 1) * 10 ^ (Z.of_nat (length s) - 1).
Proof.
  revert acc v. induction s as [|c r IH]; intros acc v Hacc; simpl; [done|].
  destruct (isdigit c) eqn:Hc.
  - intros Hv. pose proof (dec_step_bounds acc c Hc) as Hst.
    destruct r as [|c' r']; [done|].
    apply IH in Hv; [|lia]. simpl length in *.
    replace (Z.of_nat (S (S (length r'))) - 1) with (Z.succ (Z.of_nat (S (length r')) - 1)) by lia.
    rewrite Z.pow_succ_r by lia.
    assert (0 < 10 ^ (Z.of_nat (S (length r')) - 1)) by (apply Z.pow_pos_nonneg; lia).
    nia.
  - intros [= <-].
    assert (0 < 10 ^ (Z.of_nat (S (length r)) - 1)) by (apply Z.pow_pos_nonneg; lia).
    nia.
Qed.

Lemma skip_space_inv s s' :
  skip_space s = Some s' ->
  exists sp, s = sp ++ s' /\ Forall (fun c => isspace c = true) sp /\
    match s' with [] => False | c :: _ => isspace c = false end.
Proof.
  revert s'. induction s as [|c r IH]; intros s'; simpl; [done|].
  destruct (isspace c) eqn:Hc.
  - intros (sp & -> & Hsp & Hs')%IH. exists (c :: sp). by repeat constructor.
  - intros [= <-]. exists []. by repeat constructor.
Qed.

Lemma skip_space_total s : NUL ∈ s -> is_Some (skip_space s).
Proof.
  induction s as [|c r IH]; intros Hin; [by apply elem_of_nil in Hin|].
  simpl. destruct (isspace c) eqn:Hc; [|by eexists].
  apply IH. apply elem_of_cons in Hin as [<-|]; [by rewrite isspace_NUL in Hc | done].
Qed.

Lemma skip_space_nospace c r : isspace c = false -> skip_space (c :: r) = Some (c :: r).
Proof. intros Hc. simpl. by rewrite Hc. Qed.

Lemma dec_value_snoc ds c : dec_value (ds ++ [c]) = dec_step (dec_value ds) c.
Proof. unfold dec_value. by rewrite fold_left_app. Qed.

Lemma fold_dec_step_acc ds acc :
  fold_left dec_step ds acc = acc * 10 ^ Z.of_nat (length ds) + dec_value ds.
Proof.
  unfold dec_value. revert acc. induction ds as [|d ds IH]; intros acc.
  - simpl. lia.
  - cbn [fold_left length]. rewrite IH, (IH (dec_step 0 d)).
    rewrite Nat2Z.inj_succ, Z.pow_succ_r by lia. unfold dec_step. lia.
Qed.

(** The value of a concatenation of digits. *)
Lemma dec_value_app ds1 ds2 :
  dec_value (ds1 ++ ds2) = dec_value ds1 * 10 ^ Z.of_nat (length ds2) + dec_value ds2.
Proof. unfold dec_value at 1. by rewrite fold_left_app, fold_dec_step_acc. Qed.

Lemma dec_value_bound ds :
  Forall (fun d => isdigit d = true) ds -> 0 <= dec_value ds < 10 ^ Z.of_nat (length ds).
Proof.
  induction ds as [|d ds IH] using rev_ind; intros Hds; [by vm_compute|].
  apply Forall_app in Hds as [Hds Hd]. apply Forall_inv in Hd.
  rewrite dec_value_snoc, length_app. simpl.
  pose proof (dec_step_bounds (dec_value ds) d Hd). specialize (IH Hds).
  replace (Z.of_nat (length ds + 1)) with (Z.succ (Z.of_nat (length ds))) by lia.
  rewrite Z.pow_succ_r by lia. lia.
Qed.

(** [atoi] on a run of digits that ends inside the array: the number the
    digits denote, unless an [int] cannot hold it. *)
Lemma atoi_digits_eq ds c r :
  Forall (fun d => isdigit d = true) ds -> isdigit c = false -> isspace c = false ->
  c <> "-"%char -> c <> "+"%char ->
  atoi (ds ++ c :: r) =
    if bool_decide (dec_value ds <= INT_MAX) then Some (dec_value ds) else None.
Proof.
  intros Hds Hc Hsp Hm Hp. pose proof (dec_value_bound ds Hds) as Hb.
  assert (Hr : bool_decide (INT_MIN <= dec_value ds <= INT_MAX) =
               bool_decide (dec_value ds <= INT_MAX))
    by (apply bool_decide_ext; unfold INT_MIN; lia).
  unfold atoi. destruct ds as [|d ds].
  - cbn [app]. rewrite skip_space_nospace by done. cbn [mbind option_bind].
    rewrite !decide_False by done. cbn [digits_val]. by rewrite Hc.
  - pose proof (Forall_inv Hds) as Hd. simpl in Hd.
    change ((d :: ds) ++ c :: r) with (d :: (ds ++ c :: r)).
    rewrite skip_space_nospace by (by apply isspace_not_digit). cbn [mbind option_bind].
    assert (d <> "-"%char /\ d <> "+"%char) as [H1 H2] by (split; by intros ->).
    rewrite !decide_False by done.
    change (d :: (ds ++ c :: r)) with ((d :: ds) ++ c :: r).
    rewrite digits_val_app by done. fold (dec_value (d :: ds)).
    cbn [mbind option_bind]. rewrite Hr. by case_bool_decide.
Qed.

Lemma atoi_digits ds c r :
  Forall (fun d => isdigit d = true) ds -> isdigit c = false -> isspace c = false ->
  c <> "-"%char -> c <> "+"%char -> dec_value ds <= INT_MAX ->
  atoi (ds ++ c :: r) = Some (dec_value ds).
Proof. intros. rewrite atoi_digits_eq by done. by rewrite bool_decide_true. Qed.

(** [atoi] is defined on every terminated array of at most ten
    characters: it finds the end of the number inside the array, and nine
    digits cannot overflow an [int]. *)
Lemma atoi_total s :
  NUL ∈ s -> (length s <= 10)%nat -> is_Some (atoi s).
Proof.
  intros Hin Hlen. unfold atoi.
  destruct (skip_space_total s Hin) as [s' Hs']. rewrite Hs'. cbn [mbind option_bind].
  apply skip_space_inv in Hs' as (sp & -> & Hsp & Hhd).
  assert (Hin' : NUL ∈ s').
  { apply elem_of_app in Hin as [Hin|Hin]; [|done].
    rewrite Forall_forall in Hsp. by apply Hsp in Hin. }
  rewrite length_app in Hlen.
  destruct s' as [|c r]; [done|]. simpl in Hlen.
  assert (Hpow : 10 ^ (Z.of_nat (length (c :: r)) - 1) <= 10 ^ 9)
    by (apply Z.pow_le_mono_r; simpl; lia).
  assert (Hpow' : 10 ^ (Z.of_nat (length r) - 1) <= 10 ^ 9)
    by (apply Z.pow_le_mono_r; simpl; lia).
  assert (Hsign : c = "-"%char \/ c = "+"%char -> NUL ∈ r).
  { intros Hc. apply elem_of_cons in Hin' as [<-|]; [by destruct Hc | done]. }
  destruct (decide (c = "-"%char)) as [Hm|Hm]; [|destruct (decide (c = "+"%char)) as [Hp|Hp]].
  - destruct (digits_val_total r 0 (Hsign (or_introl Hm))) as [v Hv]. rewrite Hv.
    apply digits_val_bound in Hv; [|done]. simpl.
    rewrite bool_decide_true; [by eexists | unfold INT_MIN, INT_MAX; lia].
  - destruct (digits_val_total r 0 (Hsign (or_intror Hp))) as [v Hv]. rewrite Hv.
    apply digits_val_bound in Hv; [|done]. simpl.
    rewrite bool_decide_true; [by eexists | unfold INT_MIN, INT_MAX; lia].
  - destruct (digits_val_total (c :: r) 0 Hin') as [v Hv]. rewrite Hv.
    apply digits_val_bound in Hv; [|done]. simpl.
    rewrite bool_decide_true; [by eexists | unfold INT_MIN, INT_MAX; lia].
Qed.

(** Digits up to the end of the array: the scan runs past it. *)
Lemma digits_val_unterminated ds acc :
  Forall (fun d => isdigit d = true) ds -> digits_val ds acc = None.
Proof.
  intros Hds. revert acc. induction Hds as [|d ds Hd _ IH]; intros acc; [done|].
  cbn [digits_val]. by rewrite Hd.
Qed.

Lemma atoi_unterminated ds :
  Forall (fun d => isdigit d = true) ds -> atoi ds = None.
Proof.
  intros Hds. unfold atoi. destruct Hds as [|d ds Hd Hds]; [done|].
  cbn [skip_space]. rewrite (isspace_not_digit _ Hd). cbn [mbind option_bind].
  rewrite !decide_False by (by intros ->).
  by rewrite (digits_val_unterminated (d :: ds)) by (by constructor).
Qed.

End atoi.
