(* ===== verification/Printf.v ===== *)
(** * Formatted output: [sprintf] and [snprintf]

    The driver builds every command line with [snprintf] and the payload
    text with [sprintf], using the conversions [%s], [%u], [%c] and [%02X].
    This file gives those calls their ISO C meaning on the arrays of
    [CString]: the format is interpreted directive by directive against the
    argument list, and the result is stored with its terminator, cut to the
    size [snprintf] is given.  A conversion the driver never uses, a missing
    argument or an argument of the wrong kind is [None]. *)

From S2P Require Import Prelude CString.

(** ** Digits *)

(** The digit characters of [%u] and [%X]. *)
Definition digit_char (d : Z) : ascii :=
  nth (Z.to_nat d) (chars "0123456789ABCDEF") "?"%char.

(** The digits of [v] in base [base], most significant first, in front of
    [acc].  [fuel] bounds the number of digits produced. *)
Fixpoint digits_be (base : Z) (fuel : nat) (v : Z) (acc : list ascii)
  : list ascii :=
  match fuel with
  | O => acc
  | S f =>
      let acc' := digit_char (v mod base) :: acc in
      if v / base =? 0 then acc' else digits_be base f (v / base) acc'
  end.

(** Conversion of an argument to [unsigned int] (32 bits). *)
Definition to_unsigned (z : Z) : Z := z mod 2 ^ 32.

(** [%u]: at most ten decimal digits. *)
Definition fmt_u (v : Z) : list ascii := digits_be 10 10 (to_unsigned v) [].

(** [%02X]: upper-case hexadecimal, padded with zeros to two characters. *)
Definition fmt_02X (v : Z) : list ascii :=
  let ds := digits_be 16 8 (to_unsigned v) [] in
  replicate (2 - length ds) "0"%char ++ ds.

(** ** Formats and arguments *)

Inductive arg : Type :=
  | ArgStr (s : list ascii)   (* [char *]: the array the pointer points into *)
  | ArgUInt (v : Z)           (* an integer, read as [unsigned int] *)
  | ArgChar (c : Z).          (* an [int], written as [unsigned char] *)

Inductive directive : Type :=
  | DLit (c : ascii)
  | DStr
  | DUInt
  | DChar
  | DHex02.

(** The directives of a format string. *)
Fixpoint parse_fmt (fmt : list ascii) : option (list directive) :=
  match fmt with
  | [] => Some []
  | c :: r =>
      if decide (c = "%"%char) then
        match r with
        | [] => None
        | c1 :: r1 =>
            if decide (c1 = "s"%char) then (DStr ::.) <$> parse_fmt r1
            else if decide (c1 = "u"%char) then (DUInt ::.) <$> parse_fmt r1
            else if decide (c1 = "c"%char) then (DChar ::.) <$> parse_fmt r1
            else if decide (c1 = "%"%char) then (DLit c1 ::.) <$> parse_fmt r1
            else if decide (c1 = "0"%char) then
              match r1 with
              | c2 :: c3 :: r3 =>
                  if decide (c2 = "2"%char /\ c3 = "X"%char)
                  then (DHex02 ::.) <$> parse_fmt r3 else None
              | _ => None
              end
            else None
        end
      else (DLit c ::.) <$> parse_fmt r
  end.

(** The text a list of directives produces from the arguments. *)
Fixpoint format (ds : list directive) (args : list arg) : option (list ascii) :=
  match ds with
  | [] => Some []
  | DLit c :: ds' => (c ::.) <$> format ds' args
  | DStr :: ds' =>
      match args with
      | ArgStr buf :: args' =>
          s ← cstr buf; rest ← format ds' args'; Some (s ++ rest)
      | _ => None
      end
  | DUInt :: ds' =>
      match args with
      | ArgUInt v :: args' => (fmt_u v ++.) <$> format ds' args'
      | _ => None
      end
  | DChar :: ds' =>
      match args with
      | ArgChar c :: args' => (chr c ::.) <$> format ds' args'
      | _ => None
      end
  | DHex02 :: ds' =>
      match args with
      | ArgUInt v :: args' => (fmt_02X v ++.) <$> format ds' args'
      | _ => None
      end
  end.

Definition vformat (fmt : list ascii) (args : list arg) : option (list ascii) :=
  ds ← parse_fmt fmt; format ds args.

(** ** [snprintf(buf, n, fmt, ...)]

    [fmt] is the array that holds the format.  At most [n - 1] characters
    of the text are stored, then a terminator;
    nothing is stored when [n] is zero.  The value returned is the length
    of the whole text. *)
Definition snprintf (buf : list ascii) (n : nat) (fmt : list ascii)
    (args : list arg) : option (list ascii * Z) :=
  f ← cstr fmt;
  out ← vformat f args;
  buf' ← match n with
         | O => Some buf
         | S m => poke buf 0 (take m out ++ [NUL])
         end;
  Some (buf', Z.of_nat (length out)).

(** ** [sprintf(buf + off, fmt, ...)]

    The whole text and its terminator are stored at [buf + off]. *)
Definition sprintf (buf : list ascii) (off : nat) (fmt : list ascii)
    (args : list arg) : option (list ascii * Z) :=
  f ← cstr fmt;
  out ← vformat f args;
  buf' ← poke buf off (out ++ [NUL]);
  Some (buf', Z.of_nat (length out)).

Arguments fmt_u : simpl never.
Arguments fmt_02X : simpl never.

(** * Properties *)

(** ** Digits *)

Section digits.
Implicit Types (v d base : Z) (fuel : nat) (acc : list ascii).

Lemma digit_char_dec d : 0 <= d < 10 -> code (digit_char d) = 48 + d.
Proof.
  intros H. assert (Hd : exists n : nat, (n < 10)%nat /\ d = Z.of_nat n)
    by (exists (Z.to_nat d); lia).
  destruct Hd as (n & Hn & ->).
  do 10 (destruct n as [|n]; [done|]). lia.
Qed.

Lemma digit_char_hex d : 10 <= d < 16 -> code (digit_char d) = 55 + d.
Proof.
  intros H. assert (Hd : exists n : nat, (10 <= n < 16)%nat /\ d = Z.of_nat n)
    by (exists (Z.to_nat d); lia).
  destruct Hd as (n & Hn & ->).
  do 16 (destruct n as [|n]; [done || lia|]). lia.
Qed.

Lemma digit_char_isdigit d : 0 <= d < 10 -> isdigit (digit_char d) = true.
Proof. intros H. apply isdigit_code. rewrite digit_char_dec by done. lia. Qed.

Lemma dec_step_digit_char a d : 0 <= d < 10 -> dec_step a (digit_char d) = 10 * a + d.
Proof. intros H. unfold dec_step. rewrite digit_char_dec by done. lia. Qed.

(** The accumulator is only ever extended in front. *)
Lemma digits_be_acc base fuel v acc :
  digits_be base fuel v acc = digits_be base fuel v [] ++ acc.
Proof.
  revert v acc. induction fuel as [|f IH]; intros v acc; simpl; [done|].
  destruct (v / base =? 0); [done|].
  rewrite (IH _ (_ :: acc)), (IH _ [_]). by rewrite <- app_assoc.
Qed.

Lemma digits_be_step base fuel v :
  digits_be base (S fuel) v [] =
  (if v / base =? 0 then [] else digits_be base fuel (v / base) [])
    ++ [digit_char (v mod base)].
Proof. simpl. destruct (v / base =? 0); [done|]. apply digits_be_acc. Qed.

Lemma length_digits_be base fuel v :
  (length (digits_be base fuel v []) <= fuel)%nat /\
  (0 < fuel -> 0 < length (digits_be base fuel v []))%nat.
Proof.
  revert v. induction fuel as [|f IH]; intros v; [simpl; lia|].
  rewrite digits_be_step, length_app. simpl.
  destruct (v / base =? 0); simpl; [lia|]. destruct (IH (v / base)). lia.
Qed.

(** With enough fuel the decimal digits denote the number. *)
Lemma digits_be_dec fuel v :
  0 <= v < 10 ^ Z.of_nat fuel ->
  Forall (fun c => isdigit c = true) (digits_be 10 fuel v []) /\
  dec_value (digits_be 10 fuel v []) = v.
Proof.
  revert v. induction fuel as [|f IH]; intros v Hv.
  { simpl in *. split; [constructor | unfold dec_value; simpl; lia]. }
  rewrite Nat2Z.inj_succ, Z.pow_succ_r in Hv by lia.
  rewrite digits_be_step. unfold dec_value.
  assert (Hm : 0 <= v mod 10 < 10) by (apply Z.mod_pos_bound; lia).
  destruct (Z.eqb_spec (v / 10) 0) as [Hq|Hq]; simpl.
  - split; [repeat constructor; by apply digit_char_isdigit|].
    rewrite dec_step_digit_char by done. pose proof (Z_div_mod_eq_full v 10). lia.
  - destruct (IH (v / 10)) as [Hd Hval].
    { split; [apply Z.div_pos; lia | apply Z.div_lt_upper_bound; lia]. }
    split.
    + apply Forall_app. split; [done|]. repeat constructor. by apply digit_char_isdigit.
    + rewrite fold_left_app. simpl. fold (dec_value (digits_be 10 f (v / 10) [])).
      rewrite Hval, dec_step_digit_char by done. pose proof (Z_div_mod_eq_full v 10). lia.
Qed.

Lemma to_unsigned_range v : 0 <= to_unsigned v < 2 ^ 32.
Proof. apply Z.mod_pos_bound. lia. Qed.

Lemma to_unsigned_small v : 0 <= v < 2 ^ 32 -> to_unsigned v = v.
Proof. apply Z.mod_small. Qed.

(** Ten digits are enough for [%u]. *)
Lemma fmt_u_digits v :
  Forall (fun c => isdigit c = true) (fmt_u v) /\ dec_value (fmt_u v) = to_unsigned v.
Proof.
  apply digits_be_dec. pose proof (to_unsigned_range v).
  change (10 ^ Z.of_nat 10) with 10000000000. change (2 ^ 32) with 4294967296 in *. lia.
Qed.

Lemma length_fmt_u v : (1 <= length (fmt_u v) <= 10)%nat.
Proof. unfold fmt_u. destruct (length_digits_be 10 10 (to_unsigned v)). lia. Qed.

(** A byte prints as its two nibbles. *)
Lemma fmt_02X_byte v :
  0 <= v < 256 -> fmt_02X v = [digit_char (v / 16); digit_char (v mod 16)].
Proof.
  intros Hv. unfold fmt_02X. rewrite to_unsigned_small by lia.
  rewrite digits_be_step. destruct (Z.eqb_spec (v / 16) 0) as [Hq|Hq].
  - simpl. by rewrite Hq.
  - rewrite digits_be_step.
    rewrite (Z.div_small (v / 16) 16) by (split; [apply Z.div_pos | apply Z.div_lt_upper_bound]; lia).
    simpl. rewrite (Z.mod_small (v / 16) 16); [done|].
    split; [apply Z.div_pos | apply Z.div_lt_upper_bound]; lia.
Qed.

(** Reading back what [%u] printed. *)
Lemma atoi_fmt_u v c r :
  0 <= v <= INT_MAX -> isdigit c = false ->
  atoi (fmt_u v ++ c :: r) = Some v.
Proof.
  intros Hv Hc. destruct (fmt_u_digits v) as [Hd Hval].
  rewrite to_unsigned_small in Hval by (unfold INT_MAX in Hv; lia).
  pose proof (length_fmt_u v) as Hlen.
  destruct (fmt_u v) as [|d ds] eqn:E; [simpl in Hlen; lia|].
  pose proof (Forall_inv Hd) as Hd0. simpl in Hd0.
  unfold atoi. change ((d :: ds) ++ c :: r) with (d :: (ds ++ c :: r)).
  rewrite skip_space_nospace by (by apply isspace_not_digit). simpl.
  assert (d <> "-"%char /\ d <> "+"%char) as [H1 H2] by (split; by intros ->).
  rewrite !decide_False by done.
  change (digits_val ((d :: ds) ++ c :: r) 0 ≫= (fun v0 =>
    if bool_decide (INT_MIN <= v0 <= INT_MAX) then Some v0 else None) = Some v).
  rewrite digits_val_app by done. fold (dec_value (d :: ds)). rewrite Hval. simpl.
  rewrite bool_decide_true; [done | unfold INT_MIN; lia].
Qed.

End digits.

(** ** Output *)

Section output.
Implicit Types (buf fmt out s : list ascii) (n off : nat) (args : list arg).

Lemma not_elem_of_NUL_digits s :
  Forall (fun c => isdigit c = true) s -> NUL ∉ s.
Proof.
  intros Hs Hin. rewrite Forall_forall in Hs. by apply Hs in Hin.
Qed.

Lemma fmt_u_no_NUL v : NUL ∉ fmt_u v.
Proof. apply not_elem_of_NUL_digits, fmt_u_digits. Qed.

Lemma digit_char_no_NUL d : 0 <= d < 16 -> digit_char d <> NUL.
Proof.
  intros Hd Heq. apply (f_equal code) in Heq.
  destruct (decide (d < 10)).
  - rewrite digit_char_dec in Heq by lia. change (code NUL) with 0 in Heq. lia.
  - rewrite digit_char_hex in Heq by lia. change (code NUL) with 0 in Heq. lia.
Qed.

Lemma cstr_lit (t : string) : NUL ∉ chars t -> cstr (lit t) = Some (chars t).
Proof. intros Ht. unfold lit. by apply cstr_app. Qed.

(** A text without conversions formats to itself. *)
Lemma parse_fmt_plain s : "%"%char ∉ s -> parse_fmt s = Some (DLit <$> s).
Proof.
  induction s as [|c s IH]; intros Hs; simpl; [done|].
  apply not_elem_of_cons in Hs as [Hc Hs].
  rewrite decide_False by done. by rewrite IH.
Qed.

Lemma format_plain s args : format (DLit <$> s) args = Some s.
Proof.
  induction s as [|c s IH]; [done|]. rewrite fmap_cons. cbn [format]. by rewrite IH.
Qed.

Lemma vformat_plain s args : "%"%char ∉ s -> vformat s args = Some s.
Proof.
  intros Hs. unfold vformat. rewrite parse_fmt_plain by done. apply format_plain.
Qed.

(** The formats the driver writes as literals. *)
Lemma vformat_u v : vformat (chars "%u") [ArgUInt v] = Some (fmt_u v).
Proof.
  unfold vformat. change (parse_fmt (chars "%u")) with (Some [DUInt]).
  cbn. by rewrite app_nil_r.
Qed.

Lemma vformat_s s r : vformat (chars "%s") [ArgStr (s ++ NUL :: r)] = Some (strn s).
Proof.
  unfold vformat. change (parse_fmt (chars "%s")) with (Some [DStr]).
  cbn [mbind option_bind format]. rewrite cstr_strn. cbn. by rewrite app_nil_r.
Qed.

(** What [snprintf] stores, in general: the text cut at [n - 1]. *)
Lemma snprintf_Some buf n fmt f args out :
  cstr fmt = Some f -> vformat f args = Some out ->
  (length (take n out) < length buf)%nat ->
  snprintf buf (S n) fmt args =
    Some (take n out ++ NUL :: drop (S (length (take n out))) buf,
          Z.of_nat (length out)).
Proof.
  intros Hf Ho Hn. unfold snprintf. rewrite Hf. simpl. rewrite Ho. simpl.
  rewrite poke_0 by len. simpl.
  rewrite length_app. simpl. rewrite <- app_assoc. simpl.
  by replace (length (take n out) + 1)%nat with (S (length (take n out))) by lia.
Qed.

(** When the text fits, it is stored whole and reads back as itself. *)
(** [snprintf] in every case where the format and its text are defined:
    nothing is stored for the size 0, and the store is past the end of the
    array when the text cut at [n - 1] and its terminator do not fit. *)
Lemma snprintf_eq buf n fmt f args out :
  cstr fmt = Some f -> vformat f args = Some out ->
  snprintf buf n fmt args =
    match n with
    | O => Some (buf, Z.of_nat (length out))
    | S m =>
        if decide (length (take m out) < length buf)%nat
        then Some (take m out ++ NUL :: drop (S (length (take m out))) buf,
                   Z.of_nat (length out))
        else None
    end.
Proof.
  intros Hf Ho. destruct n as [|m].
  - unfold snprintf. rewrite Hf. simpl. by rewrite Ho.
  - case_decide; [by apply (snprintf_Some _ _ _ f)|].
    unfold snprintf. rewrite Hf. simpl. rewrite Ho. simpl.
    by rewrite poke_None by len.
Qed.

Lemma snprintf_fits buf n fmt f args out :
  cstr fmt = Some f -> vformat f args = Some out ->
  (length out < n <= length buf)%nat ->
  snprintf buf n fmt args =
    Some (out ++ NUL :: drop (S (length out)) buf, Z.of_nat (length out)).
Proof.
  intros Hf Ho Hn. destruct n as [|n]; [lia|].
  rewrite (snprintf_Some _ _ _ _ _ _ Hf Ho) by len.
  by rewrite take_ge by lia.
Qed.

Lemma snprintf_u buf n v :
  (length (fmt_u v) < n <= length buf)%nat ->
  snprintf buf n (lit "%u") [ArgUInt v] =
    Some (fmt_u v ++ NUL :: drop (S (length (fmt_u v))) buf,
          Z.of_nat (length (fmt_u v))).
Proof. apply (snprintf_fits _ _ (lit "%u") (chars "%u")); [done | apply vformat_u]. Qed.

Lemma snprintf_length buf n fmt args buf' r :
  snprintf buf n fmt args = Some (buf', r) -> length buf' = length buf.
Proof.
  unfold snprintf. intros H. opt_inv. destruct n; opt_inv; [done|].
  eauto using poke_length.
Qed.

(** Whatever the text, a non-empty destination ends up terminated, with a
    string shorter than [n]. *)
Lemma snprintf_terminated buf n fmt args buf' r :
  snprintf buf (S n) fmt args = Some (buf', r) ->
  exists s, cstr buf' = Some s /\ (length s <= n)%nat.
Proof.
  unfold snprintf. intros H. opt_inv.
  match goal with H : poke _ _ _ = Some _ |- _ => apply poke_inv in H as [Hle ->] end.
  simpl. rewrite <- app_assoc.
  destruct (cstr (take n x0 ++ [NUL] ++ drop (length (take n x0 ++ [NUL])) buf)) as [s|] eqn:E.
  - exists s. split; [done|]. apply cstr_inv in E as [Hs E].
    assert (Hl : (length (take n x0) <= n)%nat) by len.
    destruct (decide (length s <= n)%nat); [done|]. exfalso.
    apply (f_equal (fun l => l !! length (take n x0))) in E.
    rewrite lookup_app_r, Nat.sub_diag in E by lia. simpl in E.
    rewrite lookup_app_l in E by lia.
    apply Hs. symmetry in E. by apply list_elem_of_lookup_2 in E.
  - apply cstr_None in E. exfalso. apply E.
    apply elem_of_app. right. apply elem_of_app. left. by apply list_elem_of_singleton.
Qed.

Lemma sprintf_Some buf off fmt f args out :
  cstr fmt = Some f -> vformat f args = Some out ->
  (off + length out + 1 <= length buf)%nat ->
  sprintf buf off fmt args =
    Some (take off buf ++ out ++ NUL :: drop (off + length out + 1) buf,
          Z.of_nat (length out)).
Proof.
  intros Hf Ho Hn. unfold sprintf. rewrite Hf. simpl. rewrite Ho. simpl.
  rewrite poke_Some by len. simpl.
  rewrite length_app. simpl. rewrite <- app_assoc. simpl.
  by rewrite Nat.add_assoc.
Qed.

End output.
