(* ===== verification/Commands.v ===== *)
(** * The command table

    [wisol_sigfox__commands] is the array of format strings of
    [src/wisol_sigfox.c], and [wisol_sigfox__commmands_e] the enumeration
    whose values index it.  The table is transcribed as the C compiler
    reads it: where the source has no comma between two adjacent string
    literals, they are one array element. *)

From S2P Require Import Prelude CString Printf.

(** The elements of [wisol_sigfox__commands], in order. *)
Definition wisol_sigfox__commands : list string := [
  "AT";
  "AT$SB=%s";
  "AT$SF=%s%s";
  "AT$SO";
  "AT$TR?";
  "AT$TR=%u";
  "ATS%u?";
  "ATS%u=%s";
  "AT$IF=%s";
  "AT$IF?";
  "AT$DR=%s";
  "AT$DR?";
  "AT$CW=%u,%c,%u";
  "AT$CB=%u,%c";
  "AT$T?";
  "AT$V?";
  "AT$I=%u";
  "AT$P=%u";
  "AT$WR";
  "AT:P%u?";
  "AT:P%u=?";
  "AT:P%u=%s";
  "AT:ADC P%u%s" +:+ "AT:SPI%c=%s";
  "AT:CLK=%s,%s";
  "AT:CLK=OFF";
  "AT:CLK?";
  "AT:DAC=%s";
  "AT:DAC=off";
  "AT:DAC?";
  "ATSTM=%s,%s" +:+ "AT$SE" +:+ "AT$SL=%s" +:+ "AT$RL"
]%string.

(** The commands the driver implements. *)
Inductive wisol_sigfox__commmands_e : Type :=
  | CMD_STATUS
  | CMD_SEND_FRAME
  | CMD_GET_REGISTER
  | CMD_SET_REGISTER
  | CMD_GET_TX_FREQ
  | CMD_GET_RX_FREQ
  | CMD_INFORMATION
  | CMD_SET_POWER_MODE.

#[export] Instance commmands_e_eq_dec : EqDecision wisol_sigfox__commmands_e.
Proof. solve_decision. Defined.

(** The value of each enumerator. *)
Definition cmd_index (c : wisol_sigfox__commmands_e) : nat :=
  match c with
  | CMD_STATUS => 0
  | CMD_SEND_FRAME => 2
  | CMD_GET_REGISTER => 6
  | CMD_SET_REGISTER => 7
  | CMD_GET_TX_FREQ => 9
  | CMD_GET_RX_FREQ => 11
  | CMD_INFORMATION => 16
  | CMD_SET_POWER_MODE => 17
  end.

(** [wisol_sigfox__commands[c]]: the array the table's pointer designates;
    undefined past the end of the table. *)
Definition command (c : wisol_sigfox__commmands_e) : option (list ascii) :=
  lit <$> wisol_sigfox__commands !! cmd_index c.

(** The command lines the vendor documents for each command, with the
    places of their arguments. *)
Definition cmd_syntax (c : wisol_sigfox__commmands_e) : list directive :=
  match c with
  | CMD_STATUS => DLit <$> chars "AT"
  | CMD_SEND_FRAME => (DLit <$> chars "AT$SF=") ++ [DStr; DStr]
  | CMD_GET_REGISTER => (DLit <$> chars "ATS") ++ [DUInt; DLit "?"%char]
  | CMD_SET_REGISTER => (DLit <$> chars "ATS") ++ [DUInt; DLit "="%char; DStr]
  | CMD_GET_TX_FREQ => DLit <$> chars "AT$IF?"
  | CMD_GET_RX_FREQ => DLit <$> chars "AT$DR?"
  | CMD_INFORMATION => (DLit <$> chars "AT$I=") ++ [DUInt]
  | CMD_SET_POWER_MODE => (DLit <$> chars "AT$P=") ++ [DUInt]
  end.

(** * Properties *)

(** Every enumerator designates an element of the table, a terminated
    format whose directives are the command's documented syntax.  The two
    places where literals run together lie beyond the largest enumerator
    and change none of them. *)
Lemma command_syntax (c : wisol_sigfox__commmands_e) :
  exists fmt f, command c = Some fmt /\ cstr fmt = Some f /\
    parse_fmt f = Some (cmd_syntax c).
Proof. destruct c; (do 2 eexists; split; [reflexivity | split; reflexivity]). Qed.

Lemma command_NUL_free (c : wisol_sigfox__commmands_e) fmt f :
  command c = Some fmt -> cstr fmt = Some f -> NUL ∉ f.
Proof. intros _ Hf. by apply cstr_inv in Hf as [? _]. Qed.

(** The table has 30 elements where the source lists 34 literals: the
    literals without a separating comma are concatenated. *)
Lemma commands_merged :
  length wisol_sigfox__commands = 30%nat /\
  wisol_sigfox__commands !! 22%nat = Some "AT:ADC P%u%sAT:SPI%c=%s"%string /\
  wisol_sigfox__commands !! 29%nat = Some "ATSTM=%s,%sAT$SEAT$SL=%sAT$RL"%string.
Proof. repeat split. Qed.

(** No enumerator reaches the merged elements. *)
Lemma cmd_index_below_merged (c : wisol_sigfox__commmands_e) :
  (cmd_index c < 22)%nat.
Proof. destruct c; simpl; lia. Qed.

(** Building a command line: when the text that the command's syntax
    produces from the arguments holds no terminator and fits, [snprintf]
    with the table's format stores it whole, and the array then holds it
    as its string. *)
Lemma snprintf_command (c : wisol_sigfox__commmands_e) buf n args out :
  format (cmd_syntax c) args = Some out -> NUL ∉ out ->
  (length out < n <= length buf)%nat ->
  exists fmt buf', command c = Some fmt /\
    snprintf buf n fmt args = Some (buf', Z.of_nat (length out)) /\
    cstr buf' = Some out /\ length buf' = length buf.
Proof.
  intros Hout Hnul Hn. destruct (command_syntax c) as (fmt & f & Hc & Hf & Hp).
  exists fmt. eexists. split; [done|].
  assert (Hv : vformat f args = Some out) by (unfold vformat; by rewrite Hp).
  rewrite (snprintf_fits _ _ _ _ _ _ Hf Hv Hn).
  split; [done|]. split; [by apply cstr_app|].
  rewrite length_app. simpl. rewrite length_drop. lia.
Qed.

(** C22. The array has 30 elements where its source lines show 34
    literals: without a comma between them, [AT:ADC P%u%s] and
    [AT:SPI%c=%s] are one element, and so are the last four.  Every
    enumerator lies below the first merged element, and designates a
    terminated format whose directives are the documented syntax of its
    command. *)
Theorem command_table (c : wisol_sigfox__commmands_e) :
  length wisol_sigfox__commands = 30%nat /\
  wisol_sigfox__commands !! 22%nat = Some "AT:ADC P%u%sAT:SPI%c=%s"%string /\
  wisol_sigfox__commands !! 29%nat = Some "ATSTM=%s,%sAT$SEAT$SL=%sAT$RL"%string /\
  (cmd_index c < 22)%nat /\
  exists fmt f, command c = Some fmt /\ cstr fmt = Some f /\
    parse_fmt f = Some (cmd_syntax c).
Proof.
  destruct commands_merged as (Hl & H22 & H29).
  do 3 (split; [done|]). split; [apply cmd_index_below_merged | apply command_syntax].
Qed.
