(* ===== verification/Float32.v ===== *)
(** * Single-precision floating point

    The C type [float] as IEEE 754 binary32: the standard library's
    executable specification of floating-point arithmetic at precision 24
    and maximal exponent 128, with round-to-nearest-even.  Only what
    [wisol_sigfox__freq_str_to_fl] computes with is defined: conversion
    from [int], addition and division, and the conversion to [float] of a
    value computed in a wider format, for the implementations of C that
    evaluate [float] expressions in [double] or [long double].

    The lemmas are about the conversion: an [int] of magnitude below
    [2^24] is converted without rounding, to a mantissa of 24 digits when
    it is not zero.  [Rounding] has the lemmas on addition and division. *)

From Stdlib Require Import SpecFloat QArith Qpower Lqa.
From S2P Require Import Prelude.

Definition float : Type := spec_float.

Definition f32_prec : Z := 24.
Definition f32_emax : Z := 128.

(** [(float)z] for an [int] [z]. *)
Definition f32_of_int (z : Z) : float := binary_normalize f32_prec f32_emax z 0 false.

Definition f32_add (x y : float) : float := SFadd f32_prec f32_emax x y.
Definition f32_div (x y : float) : float := SFdiv f32_prec f32_emax x y.

(** The conversion to [float] of a value of a wider format. *)
Definition f32_narrow (x : float) : float :=
  match x with
  | S754_finite s m e => binary_round f32_prec f32_emax s m e
  | _ => x
  end.

(** The power of two of an exponent, as a rational. *)
Definition pow2 (e : Z) : Q := Qpower 2 e.

(** The rational a finite float denotes. *)
Definition f32_value (x : float) : option Q :=
  match x with
  | S754_zero _ => Some 0%Q
  | S754_finite s m e =>
      let q := (inject_Z (Z.pos m) * pow2 e)%Q in
      Some (if s then Qopp q else q)
  | _ => None
  end.

(** [nonneg r q]: the float [r] is zero or positive and finite, and
    denotes the rational [q]. *)
Definition nonneg (r : float) (q : Q) : Prop :=
  match r with
  | S754_zero false => (q == 0)%Q
  | S754_finite false m e => (q == inject_Z (Z.pos m) * pow2 e)%Q
  | _ => False
  end.

#[export] Instance nonneg_proper : Proper (eq ==> Qeq ==> iff) nonneg.
Proof.
  intros r ? <- q q' Hq. destruct r as [[]|[]| |[] m e]; cbn [nonneg]; try done.
  all: by rewrite Hq.
Qed.

(** ** Digits of a mantissa *)

Lemma digits2_pos_size m : digits2_pos m = Pos.size m.
Proof. induction m; simpl; by rewrite ?IHm. Qed.

Lemma iter_xO m k : Z.pos (Pos.iter xO m k) = Z.pos m * 2 ^ Z.pos k.
Proof.
  induction k as [|k IH] using Pos.peano_ind.
  - simpl. lia.
  - rewrite Pos.iter_succ, Pos2Z.inj_succ, Z.pow_succ_r by lia.
    rewrite Pos2Z.inj_xO, IH. lia.
Qed.

Lemma size_iter_xO m k : Pos.size (Pos.iter xO m k) = (Pos.size m + k)%positive.
Proof.
  induction k as [|k IH] using Pos.peano_ind.
  - simpl. lia.
  - rewrite Pos.iter_succ. simpl. rewrite IH. lia.
Qed.

Lemma size_bound m : 2 ^ (Z.pos (Pos.size m) - 1) <= Z.pos m < 2 ^ Z.pos (Pos.size m).
Proof.
  pose proof (Pos.size_gt m). pose proof (Pos.size_le m).
  split.
  - assert (2 ^ Z.pos (Pos.size m) <= 2 * Z.pos m).
    { change 2 with (Z.pos 2) at 1. rewrite <- Pos2Z.inj_pow. lia. }
    replace (Z.pos (Pos.size m)) with (Z.succ (Z.pos (Pos.size m) - 1)) in H1 by lia.
    rewrite Z.pow_succ_r in H1 by lia. lia.
  - change 2 with (Z.pos 2). rewrite <- Pos2Z.inj_pow. lia.
Qed.

(** ** Conversion of an integer *)

Lemma fexp_24 e : -125 <= e -> fexp 24 128 e = e - 24.
Proof. intros He. unfold fexp, emin. lia. Qed.

(** A mantissa of 24 digits with an exponent in range is its own rounding. *)
Lemma binary_round_aux_canonical sx m e :
  Z.pos (digits2_pos m) = 24 -> -149 <= e <= 104 ->
  binary_round_aux 24 128 sx (Z.pos m) e loc_Exact = S754_finite sx m e.
Proof.
  intros Hd He. unfold binary_round_aux.
  assert (Hs : shr_fexp 24 128 (Z.pos m) e loc_Exact =
               ({| shr_m := Z.pos m; shr_r := false; shr_s := false |}, e)).
  { unfold shr_fexp. cbn [Zdigits2 shr_record_of_loc]. rewrite Hd, fexp_24 by lia.
    by replace (24 + e - 24 - e) with 0 by lia. }
  rewrite Hs. cbn [shr_m loc_of_shr_record round_nearest_even]. rewrite Hs.
  cbn [shr_m]. by rewrite (proj2 (Z.leb_le _ _)) by (simpl; lia).
Qed.

Lemma binary_round_small sx m :
  Z.pos m < 2 ^ 24 ->
  exists m' s, binary_round 24 128 sx m 0 = S754_finite sx m' (- s) /\
    0 <= s <= 23 /\ Z.pos m' = Z.pos m * 2 ^ s.
Proof.
  intros Hm. unfold binary_round. rewrite digits2_pos_size.
  pose proof (size_bound m) as [Hlo Hhi].
  assert (Hd : Z.pos (Pos.size m) <= 24).
  { destruct (decide (Z.pos (Pos.size m) <= 24)); [done|].
    assert (2 ^ 24 <= 2 ^ (Z.pos (Pos.size m) - 1)) by (apply Z.pow_le_mono_r; lia). lia. }
  rewrite Z.add_0_r, fexp_24 by lia. unfold shl_align.
  destruct (Z.pos (Pos.size m) - 24 - 0) as [|k|k] eqn:E; [|lia|].
  - exists m, 0. rewrite binary_round_aux_canonical by (rewrite ?digits2_pos_size; lia).
    split; [done|]. split; lia.
  - exists (Pos.iter xO m k), (Z.pos k).
    rewrite binary_round_aux_canonical
      by (rewrite ?digits2_pos_size, ?size_iter_xO; lia).
    replace (Z.pos (Pos.size m) - 24) with (- Z.pos k) by lia.
    split; [done|]. split; [lia | apply iter_xO].
Qed.

(** ** Powers of two *)

Lemma pow2_pos e : (0 < pow2 e)%Q.
Proof. apply Qpower_0_lt. reflexivity. Qed.

Lemma pow2_add a b : (pow2 (a + b) == pow2 a * pow2 b)%Q.
Proof. apply Qpower_plus. discriminate. Qed.

Lemma pow2_nonneg e : 0 <= e -> (pow2 e == inject_Z (2 ^ e))%Q.
Proof. intros He. unfold pow2. by rewrite Zpower_Qpower. Qed.

Lemma pow2_opp e : (pow2 (- e) * pow2 e == 1)%Q.
Proof. rewrite <- pow2_add. by replace (- e + e) with 0 by lia. Qed.

Lemma f32_value_finite s m e :
  f32_value (S754_finite s m e) =
    Some (if s then - (inject_Z (Z.pos m) * pow2 e) else inject_Z (Z.pos m) * pow2 e)%Q.
Proof. done. Qed.

Lemma f32_of_int_pos m :
  Z.pos m < 2 ^ 24 ->
  exists m' e, f32_of_int (Z.pos m) = S754_finite false m' e /\
    (inject_Z (Z.pos m') * pow2 e == inject_Z (Z.pos m))%Q /\ -23 <= e <= 0.
Proof.
  intros Hm. destruct (binary_round_small false m Hm) as (m' & s & Hr & Hs & Hm').
  exists m', (- s). split; [exact Hr|]. split; [|lia].
  rewrite Hm', inject_Z_mult, <- (pow2_nonneg s) by lia.
  rewrite <- Qmult_assoc, (Qmult_comm (pow2 s)), pow2_opp. ring.
Qed.

Lemma nonneg_value r q :
  nonneg r q -> exists q', f32_value r = Some q' /\ (q' == q)%Q.
Proof.
  destruct r as [[]|[]| |[] m e]; try done; intros Hq; eexists; (split; [done|]);
    by symmetry.
Qed.

Lemma f32_of_int_nonneg z : 0 <= z < 2 ^ 24 -> nonneg (f32_of_int z) (inject_Z z).
Proof.
  intros Hz. destruct z as [|p|p]; [done| |lia].
  destruct (f32_of_int_pos p) as (m & e & -> & Hv & _); [lia|]. by rewrite <- Hv.
Qed.

(** Conversion to [float] is exact on every [int] of magnitude below
    [2^24]: the result is finite and denotes the integer.  The integers
    [atoi] returns for three and for six digits are in this range. *)
Lemma f32_of_int_exact z :
  Z.abs z < 2 ^ 24 ->
  exists q, f32_value (f32_of_int z) = Some q /\ (q == inject_Z z)%Q.
Proof.
  intros Hz. destruct z as [|p|p].
  - by exists 0%Q.
  - destruct (f32_of_int_pos p) as (m & e & -> & Hv & _); [lia|]. by eexists.
  - destruct (binary_round_small true p) as (m & s & Hr & Hs & Hm); [lia|].
    unfold f32_of_int, binary_normalize, f32_prec, f32_emax. rewrite Hr.
    eexists. split; [reflexivity|]. cbv beta iota.
    rewrite Hm, inject_Z_mult, <- (pow2_nonneg s) by lia.
    rewrite <- Qmult_assoc, (Qmult_comm (pow2 s)), pow2_opp.
    change (inject_Z (Z.neg p)) with (- inject_Z (Z.pos p))%Q. ring.
Qed.
