(* ===== verification/Rounding.v ===== *)
(** * Rounding to nearest

    The accuracy of the operations of [wisol_sigfox__freq_str_to_fl] that
    round: division and addition, and the conversion of a wider format to
    a narrower one.  A real is [located] when it is known to lie in an
    interval between two multiples of a power of two and on which side of
    the middle; the shifts of the rounding keep a real located, rounding
    to nearest even picks a multiple within half an interval, and the
    quotient of two mantissas and the sum of two floats are located.  The
    lemmas are proved once for every binary format (a precision [prec]
    and a maximal exponent [emax]) and instantiated for [float]
    (binary32) and for [double] (binary64), the format a C implementation
    may evaluate [float] expressions in.  The results are stated for
    reals that are not negative and below a power of two, as the
    frequencies are. *)

From Stdlib Require Import SpecFloat QArith Qpower Lqa.
From S2P Require Import Prelude Float32.

Local Open Scope Q_scope.

(** [located x m e l]: the real [x] lies in the interval of length [2^e]
    that starts at [m * 2^e], at the place [l] says. *)
Definition located (x : Q) (m e : Z) (l : location) : Prop :=
  let lo := inject_Z m * pow2 e in
  match l with
  | loc_Exact => x == lo
  | loc_Inexact Lt => lo < x /\ x < lo + pow2 e * (1 # 2)
  | loc_Inexact Eq => x == lo + pow2 e * (1 # 2)
  | loc_Inexact Gt => lo + pow2 e * (1 # 2) < x /\ x < lo + pow2 e
  end.

Definition rec_located (x : Q) (mrs : shr_record) (e : Z) : Prop :=
  (0 <= shr_m mrs)%Z /\ located x (shr_m mrs) e (loc_of_shr_record mrs).

(** What a result of rounding a real that is not negative satisfies: it
    is zero or finite, not negative, with an exponent of at most [k]. *)
Definition exponent_le (r : float) (k : Z) : Prop :=
  match r with
  | S754_zero false => True
  | S754_finite false _ e => (e <= k)%Z
  | _ => False
  end.

Lemma exponent_le_nonneg r k q :
  exponent_le r k -> f32_value r = Some q -> nonneg r q.
Proof. destruct r as [[]|[]| |[] m e]; try done; intros _ [= <-]; reflexivity. Qed.

(** ** Locations under shifts *)

Lemma pow2_succ e : pow2 (e + 1) == 2 * pow2 e.
Proof. rewrite pow2_add. change (pow2 1) with 2. ring. Qed.

Lemma inject_Z_xO p : inject_Z (Z.pos p~0) == 2 * inject_Z (Z.pos p).
Proof. rewrite Pos2Z.inj_xO, inject_Z_mult. reflexivity. Qed.

Lemma inject_Z_xI p : inject_Z (Z.pos p~1) == 2 * inject_Z (Z.pos p) + 1.
Proof. rewrite Pos2Z.inj_xI, inject_Z_plus, inject_Z_mult. reflexivity. Qed.

Lemma rec_located_shr_1 x mrs e :
  rec_located x mrs e -> rec_located x (shr_1 mrs) (e + 1).
Proof.
  destruct mrs as [m r s]. unfold rec_located. cbn [shr_m]. intros [Hm Hl].
  pose proof (pow2_pos e) as HP. pose proof (pow2_succ e) as HS.
  destruct m as [|[p|p|]|p]; [| | | |lia]; cbn [shr_1 shr_m]; (split; [lia|]).
  all: destruct r, s; cbn [orb loc_of_shr_record located] in *.
  all: rewrite ?inject_Z_xO, ?inject_Z_xI in Hl; rewrite ?HS.
  all: change (inject_Z 0) with 0 in *; change (inject_Z 1) with 1 in *; lra.
Qed.

Lemma rec_located_iter x n mrs e :
  rec_located x mrs e -> rec_located x (SpecFloat.iter_pos shr_1 n mrs) (e + Z.pos n).
Proof.
  revert mrs e. induction n as [n IH|n IH|]; intros mrs e Hl; cbn [SpecFloat.iter_pos].
  - apply rec_located_shr_1, IH, IH in Hl.
    by replace (e + Z.pos n~1)%Z with (e + 1 + Z.pos n + Z.pos n)%Z by lia.
  - apply IH, IH in Hl.
    by replace (e + Z.pos n~0)%Z with (e + Z.pos n + Z.pos n)%Z by lia.
  - by apply rec_located_shr_1.
Qed.

Lemma rec_located_shr x mrs e n :
  rec_located x mrs e ->
  rec_located x (shr mrs e n).1 (shr mrs e n).2 /\ (shr mrs e n).2 = (e + Z.max 0 n)%Z.
Proof.
  intros Hl. destruct n as [|n|n]; cbn [shr fst snd].
  - by rewrite Z.add_0_r.
  - split; [by apply rec_located_iter | lia].
  - by rewrite Z.add_0_r.
Qed.

Lemma rec_located_of_loc x m e l :
  (0 <= m)%Z -> located x m e l -> rec_located x (shr_record_of_loc m l) e.
Proof. intros Hm Hl. by destruct l as [|[]]. Qed.

(** The first step of rounding: the position after aligning to the
    exponent of the format. *)
Lemma rec_located_shr_fexp prec emax x m e l :
  (0 <= m)%Z -> located x m e l ->
  let r := shr_fexp prec emax m e l in
  rec_located x r.1 r.2 /\ r.2 = Z.max e (fexp prec emax (Zdigits2 m + e)).
Proof.
  intros Hm Hl. unfold shr_fexp.
  destruct (rec_located_shr x (shr_record_of_loc m l) e
              (fexp prec emax (Zdigits2 m + e) - e)) as [H1 H2];
    [by apply rec_located_of_loc|].
  split; [done|]. rewrite H2. lia.
Qed.

Lemma pow2_le a b : (a <= b)%Z -> pow2 a <= pow2 b.
Proof.
  intros Hab. replace b with (a + (b - a))%Z by lia.
  rewrite pow2_add, (pow2_nonneg (b - a)) by lia.
  assert (1 <= inject_Z (2 ^ (b - a))).
  { change 1 with (inject_Z 1). rewrite <- Zle_Qle.
    pose proof (Z.pow_pos_nonneg 2 (b - a)). lia. }
  pose proof (pow2_pos a). nra.
Qed.

Lemma inject_Z_lt_pow2 m e k :
  inject_Z m * pow2 e < pow2 (e + k) -> (0 <= k)%Z -> (m < 2 ^ k)%Z.
Proof.
  intros Hlt Hk. rewrite pow2_add, (pow2_nonneg k), (Qmult_comm (pow2 e)) in Hlt by done.
  apply Qmult_lt_r in Hlt; [|apply pow2_pos]. by rewrite Zlt_Qlt.
Qed.

Lemma Zdigits2_bound m : (0 <= m)%Z -> (0 <= Zdigits2 m /\ m < 2 ^ Zdigits2 m)%Z.
Proof.
  intros Hm. destruct m as [|p|p]; [done| |lia]. cbn [Zdigits2].
  rewrite digits2_pos_size. pose proof (size_bound p). lia.
Qed.

Lemma Zdigits2_le m k : (0 <= m < 2 ^ k)%Z -> (0 <= k)%Z -> (Zdigits2 m <= k)%Z.
Proof.
  intros [Hm Hk] Hk0. destruct m as [|p|p]; [done| |lia]. cbn [Zdigits2].
  rewrite digits2_pos_size. pose proof (size_bound p) as [Hlo _].
  apply Z.nlt_ge. intros Hlt.
  assert (2 ^ k <= 2 ^ (Z.pos (Pos.size p) - 1))%Z by (apply Z.pow_le_mono_r; lia). lia.
Qed.

Lemma located_bounds x m e l :
  located x m e l -> inject_Z m * pow2 e <= x /\ x < inject_Z (m + 1) * pow2 e.
Proof.
  pose proof (pow2_pos e). rewrite inject_Z_plus. change (inject_Z 1) with 1.
  destruct l as [|[]]; cbn [located]; lra.
Qed.

(** Rounding to nearest: the chosen multiple of [2^e] is within half of
    [2^e] of the real. *)
Lemma round_nearest_even_near x m e l :
  located x m e l ->
  let m' := round_nearest_even m l in
  (m' = m \/ m' = m + 1)%Z /\
  inject_Z m' * pow2 e - pow2 e * (1 # 2) <= x /\
  x <= inject_Z m' * pow2 e + pow2 e * (1 # 2).
Proof.
  pose proof (pow2_pos e). intros Hl.
  destruct l as [|[]]; cbn [located round_nearest_even] in *;
    try destruct (Z.even m); (split; [auto|]);
    rewrite ?inject_Z_plus; change (inject_Z 1) with 1; lra.
Qed.

Lemma shr_nonpos mrs e n : (n <= 0)%Z -> shr mrs e n = (mrs, e).
Proof. by destruct n. Qed.

Lemma located_lt_pow2 x m e l :
  (0 <= m)%Z -> located x m e l -> x < pow2 (Zdigits2 m + e).
Proof.
  intros Hm [_ Hx]%located_bounds. destruct (Zdigits2_bound m Hm) as [Hd Hlt].
  eapply Qlt_le_trans; [exact Hx|].
  rewrite pow2_add, (pow2_nonneg (Zdigits2 m)) by done.
  apply Qmult_le_compat_r; [|apply Qlt_le_weak, pow2_pos]. rewrite <- Zle_Qle. lia.
Qed.

Lemma pow2_lt_inv a b : pow2 a < pow2 b -> (a < b)%Z.
Proof.
  intros Hlt. apply Z.nle_gt. intros Hle. apply pow2_le in Hle. lra.
Qed.

(** A positive mantissa of [d] digits at exponent [e] denotes a rational
    of at least [2^(d+e-1)]. *)
Lemma pow2_digits_le m e :
  (0 < m)%Z -> pow2 (Zdigits2 m + e - 1) <= inject_Z m * pow2 e.
Proof.
  intros Hm. destruct m as [|p|p]; [lia| |lia]. cbn [Zdigits2].
  rewrite digits2_pos_size. pose proof (size_bound p) as [Hlo _].
  replace (Z.pos (Pos.size p) + e - 1)%Z with (Z.pos (Pos.size p) - 1 + e)%Z by lia.
  rewrite pow2_add, (pow2_nonneg (Z.pos (Pos.size p) - 1)) by lia.
  apply Qmult_le_compat_r; [by rewrite <- Zle_Qle | apply Qlt_le_weak, pow2_pos].
Qed.

Lemma digits_exp_le m e k :
  (0 < m)%Z -> inject_Z m * pow2 e < pow2 k -> (Zdigits2 m + e <= k)%Z.
Proof.
  intros Hm Hlt. pose proof (pow2_digits_le m e Hm).
  assert (Zdigits2 m + e - 1 < k)%Z by (apply pow2_lt_inv; lra). lia.
Qed.

(** The place of a quotient from its remainder: [x] times [n] is
    [(q * n + k) * 2^e] with [0 <= k < n]. *)
Lemma located_quotient x q k n e :
  (0 <= k < n)%Z ->
  x * inject_Z n == (inject_Z q * inject_Z n + inject_Z k) * pow2 e ->
  located x q e (new_location n k).
Proof.
  intros Hk Hx. pose proof (pow2_pos e) as HP.
  assert (0 <= inject_Z k) by (change 0 with (inject_Z 0); rewrite <- Zle_Qle; lia).
  assert (inject_Z k < inject_Z n) by (rewrite <- Zlt_Qlt; lia).
  assert (new_location n k =
    if (k =? 0)%Z then loc_Exact else loc_Inexact (2 * k ?= n)%Z) as ->.
  { unfold new_location, new_location_even, new_location_odd.
    destruct (Z.even n) eqn:En; [done|]. destruct (k =? 0)%Z; [done|]. f_equal.
    rewrite <- Z.negb_odd in En. apply negb_false_iff, Z.odd_spec in En as [h ->].
    destruct (Z.compare_spec (2 * k + 1) (2 * h + 1)), (Z.compare_spec (2 * k) (2 * h + 1));
      try done; lia. }
  destruct (Z.eqb_spec k 0) as [->|Hne]; cbn [located].
  - change (inject_Z 0) with 0 in *. nra.
  - assert (0 < inject_Z k) by (change 0 with (inject_Z 0); rewrite <- Zlt_Qlt; lia).
    destruct (Z.compare_spec (2 * k) n) as [E|E|E].
    + assert (inject_Z n == 2 * inject_Z k) as Hn
        by (rewrite <- E, inject_Z_mult; reflexivity).
      rewrite Hn in Hx. nra.
    + assert (2 * inject_Z k < inject_Z n)
        by (change 2 with (inject_Z 2); rewrite <- inject_Z_mult, <- Zlt_Qlt; lia).
      split; nra.
    + assert (inject_Z n < 2 * inject_Z k)
        by (change 2 with (inject_Z 2); rewrite <- inject_Z_mult, <- Zlt_Qlt; lia).
      split; nra.
Qed.

Lemma shl_align_value m e e' :
  let r := shl_align m e e' in
  inject_Z (Z.pos r.1) * pow2 r.2 == inject_Z (Z.pos m) * pow2 e /\ r.2 = Z.min e e'.
Proof.
  unfold shl_align. destruct (e' - e)%Z as [|d|d] eqn:E; cbn [fst snd].
  1,2: split; [reflexivity | lia].
  split; [|lia]. replace e with (Z.pos d + e')%Z by lia.
  rewrite iter_xO, inject_Z_mult, pow2_add, (pow2_nonneg (Z.pos d)) by done. ring.
Qed.

Lemma finite_lt_pow2 m e : inject_Z (Z.pos m) * pow2 e < pow2 (Zdigits2 (Z.pos m) + e).
Proof. by apply (located_lt_pow2 _ (Z.pos m) e loc_Exact). Qed.

(** The digits of a power of two. *)
Lemma Zdigits2_pow2 k : (0 <= k)%Z -> Zdigits2 (2 ^ k) = (k + 1)%Z.
Proof.
  intros Hk. pose proof (Z.pow_pos_nonneg 2 k ltac:(lia) Hk) as Hp.
  destruct (Zdigits2_bound (2 ^ k)) as [Hd Hhi]; [lia|].
  apply Z.pow_lt_mono_r_iff in Hhi; [|lia..].
  assert (Zdigits2 (2 ^ k) + 0 - 1 < k + 1)%Z; [|lia].
  apply pow2_lt_inv. eapply Qle_lt_trans; [apply (pow2_digits_le (2 ^ k) 0 Hp)|].
  rewrite <- (pow2_nonneg k), pow2_succ by done. change (pow2 0) with 1.
  pose proof (pow2_pos k). lra.
Qed.

Lemma pow2_even k : (0 < k)%Z -> exists q, (2 ^ k)%Z = Z.pos q~0.
Proof.
  intros Hk. replace k with (Z.succ (k - 1)) by lia. rewrite Z.pow_succ_r by lia.
  pose proof (Z.pow_pos_nonneg 2 (k - 1)).
  destruct (2 ^ (k - 1))%Z as [|q|q]; [lia| |lia]. by exists q.
Qed.

(** ** Rounding in a format

    [prec] is the number of digits of a mantissa and [emax] the bound of
    the exponents, as in the standard library's [SpecFloat]. *)
Section format.
Variables prec emax : Z.
Hypothesis prec_pos : (0 < prec)%Z.
Hypothesis prec_emax : (prec < emax)%Z.

(** The second step of rounding: a mantissa of at most [2^prec] is kept,
    or halved when it is [2^prec]. *)
Lemma shr_fexp_rounded m e :
  (0 <= m <= 2 ^ prec)%Z -> (emin prec emax <= e)%Z ->
  let r := shr_fexp prec emax m e loc_Exact in
  (0 <= shr_m r.1)%Z /\ (e <= r.2 <= e + 1)%Z /\
  inject_Z (shr_m r.1) * pow2 r.2 == inject_Z m * pow2 e.
Proof.
  intros Hm He. unfold shr_fexp. destruct (decide (m = 2 ^ prec)%Z) as [->|Hne].
  - replace (fexp prec emax (Zdigits2 (2 ^ prec) + e) - e)%Z with 1%Z
      by (rewrite Zdigits2_pow2 by lia; unfold fexp; lia).
    destruct (pow2_even prec prec_pos) as [q ->].
    cbn [shr shr_record_of_loc SpecFloat.iter_pos shr_1 shr_m fst snd].
    split; [done|]. split; [lia|]. rewrite pow2_succ, inject_Z_xO. ring.
  - rewrite shr_nonpos; [cbn; split; [lia|]; split; [lia | reflexivity]|].
    pose proof (Zdigits2_le m prec). unfold fexp. lia.
Qed.

(** Rounding a located real: the result denotes a rational within half a
    unit in the last place of the real, where the last place is the
    exponent the format gives to the magnitude of the real. *)
Lemma binary_round_aux_near x m e l :
  (0 <= m)%Z -> located x m e l ->
  let e1 := Z.max e (fexp prec emax (Zdigits2 m + e)) in
  (e1 < emax - prec)%Z ->
  exists q, f32_value (binary_round_aux prec emax false m e l) = Some q /\
    q - pow2 e1 * (1 # 2) <= x /\ x <= q + pow2 e1 * (1 # 2) /\
    exponent_le (binary_round_aux prec emax false m e l) (e1 + 1).
Proof.
  intros Hm Hl e1 He1. unfold binary_round_aux.
  destruct (rec_located_shr_fexp prec emax x m e l Hm Hl) as [[Hm1 Hl1] E1].
  destruct (shr_fexp prec emax m e l) as [mrs1 e1']. cbn [fst snd] in *. subst e1'.
  fold e1 in Hl1 |- *.
  destruct (round_nearest_even_near x _ _ _ Hl1) as (Hr & Hlo & Hhi).
  assert (shr_m mrs1 < 2 ^ prec)%Z as Hlt.
  { apply (inject_Z_lt_pow2 _ e1); [|lia].
    eapply Qle_lt_trans; [apply (located_bounds _ _ _ _ Hl1)|].
    eapply Qlt_le_trans; [exact (located_lt_pow2 _ _ _ _ Hm Hl)|].
    apply pow2_le. unfold e1, fexp. lia. }
  destruct (shr_fexp_rounded (round_nearest_even (shr_m mrs1) (loc_of_shr_record mrs1)) e1)
    as (Hm2 & He2 & Hv); [lia | unfold e1, fexp; lia |].
  destruct (shr_fexp prec emax _ e1 loc_Exact) as [mrs2 e2]. cbn [fst snd] in *.
  rewrite <- Hv in Hlo, Hhi. destruct (shr_m mrs2) as [|p|p]; [| |lia].
  - exists 0. change (inject_Z 0) with 0 in *.
    split; [done|]. split; [lra|]. split; [lra | done].
  - rewrite (proj2 (Z.leb_le _ _)) by lia. eexists. split; [done|].
    split; [exact Hlo|]. split; [exact Hhi|]. cbn [exponent_le]. lia.
Qed.

(** Rounding a located real below [2^k]: the error is at most half of
    [2^(fexp k)]. *)
Lemma binary_round_aux_below x m e l k :
  (0 <= m)%Z -> located x m e l -> x < pow2 k ->
  (e <= fexp prec emax k)%Z -> (k < emax)%Z ->
  exists q, f32_value (binary_round_aux prec emax false m e l) = Some q /\
    q - pow2 (fexp prec emax k) * (1 # 2) <= x /\
    x <= q + pow2 (fexp prec emax k) * (1 # 2) /\
    exponent_le (binary_round_aux prec emax false m e l) (fexp prec emax k + 1).
Proof.
  intros Hm Hl Hx He Hk.
  assert (Z.max e (fexp prec emax (Zdigits2 m + e)) <= fexp prec emax k)%Z as He1.
  { destruct (decide (m = 0%Z)) as [->|Hne]; [cbn [Zdigits2]; unfold fexp, emin in *; lia|].
    assert (Zdigits2 m + e <= k)%Z; [|unfold fexp, emin in *; lia].
    apply digits_exp_le; [lia|]. eapply Qle_lt_trans; [|exact Hx].
    apply (located_bounds _ _ _ _ Hl). }
  destruct (binary_round_aux_near x m e l Hm Hl) as (q & Hq & Hlo & Hhi & Hr);
    [unfold fexp, emin in *; lia|].
  pose proof (pow2_le _ _ He1). exists q. split; [done|]. split; [lra|]. split; [lra|].
  destruct (binary_round_aux prec emax false m e l) as [[]|[]| |[]];
    cbn [exponent_le] in *; try done; lia.
Qed.

(** The quotient of two mantissas is located by its remainder. *)
Lemma SFdiv_core_located x mx ex my ey :
  x * (inject_Z (Z.pos my) * pow2 ey) == inject_Z (Z.pos mx) * pow2 ex ->
  let r := SFdiv_core_binary prec emax (Z.pos mx) ex (Z.pos my) ey in
  (0 <= r.1.1)%Z /\ located x r.1.1 r.1.2 r.2 /\
  (r.1.2 <= fexp prec emax (Zdigits2 (Z.pos mx) + ex - (Zdigits2 (Z.pos my) + ey)))%Z.
Proof.
  intros Hx. unfold SFdiv_core_binary.
  set (e' := Z.min _ _). set (s := (ex - ey - e')%Z).
  assert (0 <= s)%Z as Hs by lia.
  assert (match s with
          | Z0 => Z.pos mx | Z.pos _ => Z.shiftl (Z.pos mx) s | Z.neg _ => 0%Z
          end = (Z.pos mx * 2 ^ s)%Z) as ->.
  { destruct s; [lia | by rewrite Z.shiftl_mul_pow2 | lia]. }
  pose proof (Z_div_mod (Z.pos mx * 2 ^ s) (Z.pos my) eq_refl) as Hd.
  destruct (Z.div_eucl _ _) as [q k]. destruct Hd as [E Hk]. cbn [fst snd].
  split; [nia|]. split; [|lia]. apply located_quotient; [done|].
  assert (inject_Z (Z.pos mx) * inject_Z (2 ^ s) ==
          inject_Z q * inject_Z (Z.pos my) + inject_Z k) as Hq.
  { rewrite <- !inject_Z_mult, <- inject_Z_plus, E. f_equiv. lia. }
  apply (Qmult_inj_r _ _ (pow2 ey)); [pose proof (pow2_pos ey); lra|].
  rewrite <- Qmult_assoc, Hx, <- Hq. replace ex with (s + e' + ey)%Z at 1 by lia.
  rewrite !pow2_add, (pow2_nonneg s) by done. ring.
Qed.

(** Division of positive floats with a quotient below one: the result is
    within half a unit in the last place of the quotient. *)
Lemma SFdiv_near x mx ex my ey :
  x * (inject_Z (Z.pos my) * pow2 ey) == inject_Z (Z.pos mx) * pow2 ex -> x < 1 ->
  let r := SFdiv prec emax (S754_finite false mx ex) (S754_finite false my ey) in
  exists q, f32_value r = Some q /\
    q - pow2 (fexp prec emax 0) * (1 # 2) <= x /\
    x <= q + pow2 (fexp prec emax 0) * (1 # 2) /\
    exponent_le r (fexp prec emax 0 + 1).
Proof.
  intros Hx Hlt. cbn [SFdiv xorb].
  destruct (SFdiv_core_located x mx ex my ey Hx) as (Hq & Hl & He).
  destruct (SFdiv_core_binary prec emax _ ex _ ey) as [[mz ez] lz]. cbn [fst snd] in *.
  apply (binary_round_aux_below x mz ez lz 0); [done | done | done | | lia].
  pose proof (pow2_digits_le (Z.pos mx) ex eq_refl). pose proof (finite_lt_pow2 my ey).
  assert (0 < inject_Z (Z.pos my) * pow2 ey) by (apply Qmult_lt_0_compat; [done | apply pow2_pos]).
  assert (Zdigits2 (Z.pos mx) + ex - 1 < Zdigits2 (Z.pos my) + ey)%Z
    by (apply pow2_lt_inv; nra).
  unfold fexp, emin in *. lia.
Qed.

(** Rounding an integer multiple of a power of two below [2^k]. *)
Lemma binary_round_below x m e k :
  x == inject_Z (Z.pos m) * pow2 e -> x < pow2 k -> (k < emax)%Z ->
  let r := binary_round prec emax false m e in
  exists q, f32_value r = Some q /\
    q - pow2 (fexp prec emax k) * (1 # 2) <= x /\
    x <= q + pow2 (fexp prec emax k) * (1 # 2) /\
    exponent_le r (fexp prec emax k + 1).
Proof.
  intros Hx Hlt Hk. unfold binary_round.
  destruct (shl_align_value m e (fexp prec emax (Z.pos (digits2_pos m) + e))) as [Hv He].
  destruct (shl_align m e _) as [mz ez]. cbn [fst snd] in *.
  apply binary_round_aux_below; [done | by rewrite <- Hv in Hx | done | | done].
  assert (Zdigits2 (Z.pos m) + e <= k)%Z by (apply digits_exp_le; [done | by rewrite <- Hx]).
  cbn [Zdigits2] in *. unfold fexp, emin in *. lia.
Qed.

(** Addition of positive floats with a sum below [2^k]. *)
Lemma SFadd_near x mx ex my ey k :
  x == inject_Z (Z.pos mx) * pow2 ex + inject_Z (Z.pos my) * pow2 ey ->
  x < pow2 k -> (k < emax)%Z ->
  let r := SFadd prec emax (S754_finite false mx ex) (S754_finite false my ey) in
  exists q, f32_value r = Some q /\
    q - pow2 (fexp prec emax k) * (1 # 2) <= x /\
    x <= q + pow2 (fexp prec emax k) * (1 # 2) /\
    exponent_le r (fexp prec emax k + 1).
Proof.
  intros Hx Hlt Hk. cbn [SFadd cond_Zopp].
  destruct (shl_align_value mx ex (Z.min ex ey)) as [Hvx Hex].
  destruct (shl_align_value my ey (Z.min ex ey)) as [Hvy Hey].
  destruct (shl_align mx ex _) as [mx' ex'], (shl_align my ey _) as [my' ey'].
  cbn [fst snd binary_normalize Z.add] in *.
  apply binary_round_below; [|done..].
  rewrite Hx, <- Hvx, <- Hvy, Pos2Z.inj_add, inject_Z_plus.
  replace ex' with (Z.min ex ey) by lia. replace ey' with (Z.min ex ey) by lia. ring.
Qed.

(** *** Operations on floats that are not negative *)

(** Half a unit in the last place of the reals below [2^k]. *)
Definition half_ulp (k : Z) : Q := pow2 (fexp prec emax k) * (1 # 2).

Lemma SFdiv_nonneg x r1 q1 my ey :
  nonneg r1 q1 -> x * (inject_Z (Z.pos my) * pow2 ey) == q1 -> x < 1 ->
  exists q, nonneg (SFdiv prec emax r1 (S754_finite false my ey)) q /\
    q - half_ulp 0 <= x /\ x <= q + half_ulp 0.
Proof.
  intros Hr Hx Hlt. pose proof (pow2_pos (fexp prec emax 0)).
  assert (0 < inject_Z (Z.pos my) * pow2 ey) by (apply Qmult_lt_0_compat; [done | apply pow2_pos]).
  destruct r1 as [[]|[]| |[] m1 e1]; try done; cbn [nonneg] in Hr.
  - exists 0. split; [done|]. rewrite Hr in Hx. unfold half_ulp. split; nra.
  - rewrite Hr in Hx. destruct (SFdiv_near x m1 e1 my ey Hx Hlt) as (q & Hq & Hlo & Hhi & He).
    exists q. split; [by eapply exponent_le_nonneg|]. by split.
Qed.

Lemma SFadd_nonneg r1 r2 q1 q2 k :
  nonneg r1 q1 -> nonneg r2 q2 -> q1 + q2 < pow2 k -> (k < emax)%Z ->
  exists q, nonneg (SFadd prec emax r1 r2) q /\
    q - half_ulp k <= q1 + q2 /\ q1 + q2 <= q + half_ulp k.
Proof.
  intros H1 H2 Hlt Hk. pose proof (pow2_pos (fexp prec emax k)). unfold half_ulp.
  destruct r1 as [[]|[]| |[] m1 e1], r2 as [[]|[]| |[] m2 e2]; try done; cbn [nonneg] in H1, H2.
  - exists 0. split; [done|]. rewrite H1, H2. split; lra.
  - exists q2. split; [done|]. rewrite H1. split; lra.
  - exists q1. split; [done|]. rewrite H2. split; lra.
  - destruct (SFadd_near (q1 + q2) m1 e1 m2 e2 k) as (q & Hq & Hlo & Hhi & He);
      [by rewrite H1, H2 | done | done |].
    exists q. split; [by eapply exponent_le_nonneg|]. by split.
Qed.

End format.

(** The conversion to [float] of a value below [2^k] that is not
    negative. *)
Lemma f32_narrow_nonneg r q k :
  nonneg r q -> q < pow2 k -> (k < 128)%Z ->
  exists q', nonneg (f32_narrow r) q' /\
    q' - half_ulp 24 128 k <= q /\ q <= q' + half_ulp 24 128 k.
Proof.
  intros Hr Hlt Hk. pose proof (pow2_pos (fexp 24 128 k)). unfold half_ulp.
  destruct r as [[]|[]| |[] m e]; try done; cbn [nonneg f32_narrow] in *.
  - exists 0. split; [done|]. rewrite Hr. split; lra.
  - destruct (binary_round_below 24 128 eq_refl eq_refl q m e k Hr Hlt Hk)
      as (q' & Hq & Hlo & Hhi & He).
    exists q'. split; [by eapply exponent_le_nonneg|]. by split.
Qed.

(** ** Single precision *)

(** Division of positive floats with a quotient below one: the result is
    within [2^-25] of the quotient. *)
Lemma f32_div_near x mx ex my ey :
  x * (inject_Z (Z.pos my) * pow2 ey) == inject_Z (Z.pos mx) * pow2 ex -> x < 1 ->
  let r := f32_div (S754_finite false mx ex) (S754_finite false my ey) in
  exists q, f32_value r = Some q /\
    q - pow2 (-25) <= x /\ x <= q + pow2 (-25) /\ exponent_le r (-23).
Proof. intros Hx Hlt. by apply (SFdiv_near 24 128). Qed.

(** Addition of positive floats with a sum below [2^k]. *)
Lemma f32_add_near x mx ex my ey k :
  x == inject_Z (Z.pos mx) * pow2 ex + inject_Z (Z.pos my) * pow2 ey ->
  x < pow2 k -> (k <= 127)%Z ->
  let r := f32_add (S754_finite false mx ex) (S754_finite false my ey) in
  exists q, f32_value r = Some q /\
    q - pow2 (fexp 24 128 k) * (1 # 2) <= x /\ x <= q + pow2 (fexp 24 128 k) * (1 # 2) /\
    exponent_le r (fexp 24 128 k + 1).
Proof. intros Hx Hlt Hk. apply (SFadd_near 24 128); [done..|lia]. Qed.
