(* ===== verification/Transport.v ===== *)
(** * The serial transport

    [wisol_sigfox__serial_sync] is declared in [src/wisol_sigfox.h] and
    implemented by the user of the driver: it sends one command line and
    places the module's answer in the response array.  The driver's
    theorems are proved against the interface [Transport]; a scripted
    transport implements it for the closed examples.

    One call of the driver runs in the monad [M]: a state made of the
    transport's own state and the log of the calls made so far, and a
    result that is [None] when the C code's behaviour is undefined. *)

From S2P Require Import Prelude CString.

(** ** C integers *)

(** Conversion to [int] (32 bits, two's complement). *)
Definition to_int (z : Z) : Z := (z + 2 ^ 31) mod 2 ^ 32 - 2 ^ 31.

(** Conversion to [uint8_t]. *)
Definition to_uint8 (z : Z) : Z := z mod 256.

(** [sizeof a] for an array of [char], as the [int] argument it becomes. *)
Definition sizeof (a : list ascii) : Z := to_int (Z.of_nat (length a)).

(** ** The interface *)

(** What one call hands to the transport: the command line, the size of
    the response array and the timeout in milliseconds. *)
Record call : Type := Call {
  call_cmd : list ascii;
  call_size : Z;
  call_timeout : Z
}.

#[export] Instance call_eq_dec : EqDecision call.
Proof. solve_decision. Defined.

(** A transport answers a call with the characters it stores at the start
    of the response array, never more than the size it was given.  The
    bound is an assumption on the user's implementation: the header only
    names the parameter ([size of response buffer]); the specification
    has it ([truncated to capacity if necessary]).  It is what keeps the
    driver's arrays from being overrun, and it makes a size that is zero
    or negative mean that nothing is stored. *)
Class Transport (T : Type) : Type := {
  respond : T -> call -> list ascii * T;
  respond_bound : forall t c, (length (respond t c).1 <= Z.to_nat (call_size c))%nat
}.

(** A transport that terminates every answer inside the size it is given. *)
Class Terminating (T : Type) `{Transport T} : Prop :=
  respond_terminated : forall t c, 0 < call_size c -> NUL ∈ (respond t c).1.

(** ** The driver's monad *)

Record world (T : Type) : Type := World {
  dev : T;
  calls : list call
}.
Arguments World {T} _ _.
Arguments dev {T} _.
Arguments calls {T} _.

Definition M (T A : Type) : Type := world T -> option (A * world T).

#[export] Instance M_ret {T} : MRet (M T) := fun A x w => Some (x, w).

#[export] Instance M_bind {T} : MBind (M T) := fun A B f m w =>
  match m w with
  | Some (a, w') => f a w'
  | None => None
  end.

(** A step that does not touch the transport. *)
Definition lift {T A} (o : option A) : M T A := fun w =>
  match o with
  | Some a => Some (a, w)
  | None => None
  end.

(** The response array after the transport stored [answer] at its start. *)
Definition stored (answer buf : list ascii) : list ascii :=
  answer ++ drop (length answer) buf.

(** ** [wisol_sigfox__serial_sync(cmd, p_response_buf, sz, timeout)]

    The transport reads the command line in [cmd] and its answer is stored
    at the start of [p_response_buf], whose new contents are returned.  The
    call is undefined if [cmd] holds no terminated string or the answer
    does not fit the array that [p_response_buf] really is. *)
Definition wisol_sigfox__serial_sync {T} `{Transport T}
    (cmd p_response_buf : list ascii) (sz_response_buf timeout : Z)
  : M T (list ascii) := fun w =>
  line ← cstr cmd;
  let c := Call line sz_response_buf timeout in
  let '(answer, d) := respond (dev w) c in
  assert! (bool_decide (length answer <= length p_response_buf)%nat);
  Some (stored answer p_response_buf, World d (calls w ++ [c])).

(** ** A scripted transport

    Its state is the list of answers still to give; each call consumes the
    first, cut to the size of the response array.  When the script is
    exhausted nothing is stored. *)
Definition script : Type := list (list ascii).

Definition script_respond (t : script) (c : call) : list ascii * script :=
  match t with
  | [] => ([], [])
  | a :: t' => (take (Z.to_nat (call_size c)) a, t')
  end.

#[export, refine] Instance script_transport : Transport script :=
  {| respond := script_respond |}.
Proof.
  intros [|a t] c; simpl; [lia|]. rewrite length_take. lia.
Defined.

(** ** A line transport

    The transport the driver is written for: each answer is a line of text,
    stored cut to the size of the response array and always terminated. *)
Record lines : Type := Lines { pending : list (list ascii) }.

Definition lines_respond (t : lines) (c : call) : list ascii * lines :=
  let text := default [] (head (pending t)) in
  (match Z.to_nat (call_size c) with
   | O => []
   | S m => take m text ++ [NUL]
   end, Lines (tail (pending t))).

#[export, refine] Instance lines_transport : Transport lines :=
  {| respond := lines_respond |}.
Proof.
  intros t c. unfold lines_respond. simpl.
  destruct (Z.to_nat (call_size c)) as [|m]; simpl; [lia|].
  rewrite length_app, length_take. simpl. lia.
Defined.

#[export] Instance lines_terminating : Terminating lines.
Proof.
  intros t c Hc. unfold respond, lines_transport, lines_respond. simpl.
  destruct (Z.to_nat (call_size c)) as [|m] eqn:E; [lia|].
  apply elem_of_app. right. by apply list_elem_of_singleton.
Qed.

(** * Properties *)

Section monad.
Context {T : Type}.
Implicit Types (w : world T).

Lemma M_bind_Some {A B} (m : M T A) (f : A -> M T B) w b w2 :
  (m ≫= f) w = Some (b, w2) <->
  exists a w1, m w = Some (a, w1) /\ f a w1 = Some (b, w2).
Proof.
  unfold mbind, M_bind. destruct (m w) as [[a w1]|].
  - split; [eauto | by intros (? & ? & [= <- <-] & ?)].
  - split; [done | by intros (? & ? & ? & _)].
Qed.

Lemma M_bind_eq {A B} (m : M T A) (f : A -> M T B) w a w1 :
  m w = Some (a, w1) -> (m ≫= f) w = f a w1.
Proof. intros Hm. unfold mbind, M_bind. by rewrite Hm. Qed.

Lemma M_bind_None {A B} (m : M T A) (f : A -> M T B) w :
  m w = None -> (m ≫= f) w = None.
Proof. intros Hm. unfold mbind, M_bind. by rewrite Hm. Qed.

(** A function applied to the result changes neither whether the
    computation is defined nor the state it leaves. *)
Lemma M_bind_ret_Some {A B} (m : M T A) (f : A -> B) w b w' :
  (m ≫= fun a => mret (f a)) w = Some (b, w') <->
  exists a, m w = Some (a, w') /\ b = f a.
Proof.
  rewrite M_bind_Some. split.
  - intros (a & w1 & Hm & [= <- <-]). eauto.
  - intros (a & Hm & ->). by exists a, w'.
Qed.

Lemma M_bind_ret_is_Some {A B} (m : M T A) (f : A -> B) w :
  is_Some ((m ≫= fun a => mret (f a)) w) <-> is_Some (m w).
Proof.
  unfold mbind, M_bind. destruct (m w) as [[a w1]|]; [|done].
  split; intros _; by eexists.
Qed.

Lemma lift_Some {A} (o : option A) w a w' :
  lift o w = Some (a, w') <-> o = Some a /\ w' = w.
Proof.
  unfold lift. destruct o; [|by split; [|intros []]].
  split; [by intros [= -> ->] | by intros [[= ->] ->]].
Qed.

Lemma bind_lift_Some {A B} (o : option A) (f : A -> M T B) a w :
  o = Some a -> (lift o ≫= f) w = f a w.
Proof. by intros ->. Qed.

Lemma bind_lift_None {A B} (f : A -> M T B) w :
  (lift (@None A) ≫= f) w = None.
Proof. done. Qed.

End monad.

Section transport.
Context {T : Type} `{Transport T}.
Implicit Types (w : world T) (buf cmd : list ascii).

Lemma to_int_small z : - 2 ^ 31 <= z < 2 ^ 31 -> to_int z = z.
Proof. intros Hz. unfold to_int. rewrite Z.mod_small; lia. Qed.

(** Beyond [INT_MAX] the conversion wraps to a negative number. *)
Lemma to_int_wrap z : 2 ^ 31 <= z < 2 ^ 32 -> to_int z = z - 2 ^ 32.
Proof.
  intros Hz. unfold to_int.
  rewrite <- (Z.mod_unique_pos (z + 2 ^ 31) (2 ^ 32) 1 (z - 2 ^ 31)); lia.
Qed.

(** A size converted to [int] is never larger than the size. *)
Lemma to_int_of_nat_le (n : nat) : (Z.to_nat (to_int (Z.of_nat n)) <= n)%nat.
Proof.
  unfold to_int. pose proof (Z.mod_le (Z.of_nat n + 2 ^ 31) (2 ^ 32)). lia.
Qed.

Lemma to_uint8_range z : 0 <= to_uint8 z < 256.
Proof. apply Z.mod_pos_bound. lia. Qed.

Lemma to_uint8_small z : 0 <= z < 256 -> to_uint8 z = z.
Proof. apply Z.mod_small. Qed.

(** One call, in every case: the line is the string of [cmd], the call is
    logged and the answer stored when it fits the array that the response
    buffer really is; the call is undefined when it does not. *)
Lemma serial_sync_eq cmd line buf sz tmo w :
  cstr cmd = Some line ->
  let c := Call line sz tmo in
  let r := respond (dev w) c in
  wisol_sigfox__serial_sync cmd buf sz tmo w =
    if bool_decide (length r.1 <= length buf)%nat
    then Some (stored r.1 buf, World r.2 (calls w ++ [c])) else None.
Proof.
  intros Hl c r. unfold wisol_sigfox__serial_sync. rewrite Hl. simpl. fold c r.
  destruct r as [a d]. simpl. by case_bool_decide.
Qed.

(** The answer of a transport always fits an array of the size it was
    told: the call is defined, logs itself, and changes only the start of
    the response array. *)
Lemma serial_sync_Some cmd line buf sz tmo w :
  cstr cmd = Some line -> (Z.to_nat sz <= length buf)%nat ->
  let c := Call line sz tmo in
  let r := respond (dev w) c in
  wisol_sigfox__serial_sync cmd buf sz tmo w =
    Some (stored r.1 buf, World r.2 (calls w ++ [c])).
Proof.
  intros Hl Hsz c r. rewrite (serial_sync_eq _ _ _ _ _ _ Hl). fold c r.
  pose proof (respond_bound (dev w) c) as Hb. fold r in Hb. simpl in Hb.
  by rewrite bool_decide_true by lia.
Qed.

Lemma serial_sync_inv cmd buf sz tmo w buf' w' :
  wisol_sigfox__serial_sync cmd buf sz tmo w = Some (buf', w') ->
  exists line, cstr cmd = Some line /\
    let c := Call line sz tmo in
    let r := respond (dev w) c in
    buf' = stored r.1 buf /\ (length r.1 <= length buf)%nat /\
    w' = World r.2 (calls w ++ [c]).
Proof.
  unfold wisol_sigfox__serial_sync. intros Hs.
  destruct (cstr cmd) as [line|]; [|done]. simpl in Hs. exists line. split; [done|].
  destruct (respond (dev w) (Call line sz tmo)) as [a d]. simpl in *.
  destruct (bool_decide_reflect (length a <= length buf)%nat); [|done]. by inv Hs.
Qed.

Lemma length_stored (a buf : list ascii) :
  (length a <= length buf)%nat -> length (stored a buf) = length buf.
Proof. intros Hl. unfold stored. rewrite length_app, length_drop. lia. Qed.

(** An answer stored over a cleared array is followed by a terminator. *)
Lemma stored_cleared (a rest : list ascii) n :
  (length a < n)%nat ->
  stored a (replicate n NUL ++ rest) =
    a ++ NUL :: replicate (n - S (length a)) NUL ++ rest.
Proof.
  intros Hl. unfold stored. f_equal.
  rewrite drop_app_le by len.
  rewrite drop_replicate.
  by replace (n - length a)%nat with (S (n - S (length a))) by lia.
Qed.

(** A terminated answer hides what the array held before. *)
Lemma cstr_stored (a buf : list ascii) : NUL ∈ a -> cstr (stored a buf) = cstr a.
Proof. apply cstr_app_l. Qed.

(** With a transport that terminates its answers, the response array holds
    the text of the answer, whatever it held before. *)
Lemma cstr_stored_terminated `{!Terminating T} (t : T) c (buf : list ascii) :
  0 < call_size c -> cstr (stored (respond t c).1 buf) = Some (strn (respond t c).1).
Proof.
  intros Hc. pose proof (respond_terminated t c Hc) as Hin.
  rewrite cstr_stored by done. destruct (cstr (respond t c).1) as [s|] eqn:E.
  - by rewrite (cstr_Some_strn _ _ E).
  - by apply cstr_None in E.
Qed.

(** The same, as the contents of the array. *)
Lemma stored_terminated `{!Terminating T} (t : T) c (buf : list ascii) :
  0 < call_size c ->
  exists rest, stored (respond t c).1 buf = strn (respond t c).1 ++ NUL :: rest.
Proof.
  intros Hc. destruct (strn_split _ (respond_terminated t c Hc)) as [rest Hr].
  exists (rest ++ drop (length (respond t c).1) buf). unfold stored.
  rewrite Hr at 1. by rewrite <- app_assoc.
Qed.


End transport.
