(* ===== verification/Payload.v ===== *)
(** * The payload as hexadecimal text

    [wisol_sigfox__send_frame] turns the payload into text with a loop of
    [sprintf(p_buf, "%02X", p_payload_buf[i])] that advances [p_buf] by the
    value [sprintf] returns.  [payload_hex] is that loop on the array
    [payload_buf]; [hex_encode] is the text it is meant to produce and
    [hex_decode] its inverse. *)

From Stdlib Require Import Init.Byte Strings.Byte.
From S2P Require Import Prelude CString Printf.

(** The value of a [uint8_t]. *)
Definition byte_val (b : byte) : Z := Z.of_N (Byte.to_N b).

(** [n] iterations of the loop, from index [i], with [p_buf] at offset
    [off] of [payload_buf].  Reading [p_payload_buf[i]] past the end of the
    payload array is undefined, and so is a store past [payload_buf]. *)
Fixpoint payload_hex_loop (n : nat) (p_payload_buf : list byte) (i : nat)
    (payload_buf : list ascii) (off : nat) : option (list ascii) :=
  match n with
  | O => Some payload_buf
  | S n' =>
      b ← p_payload_buf !! i;
      '(payload_buf', k) ← sprintf payload_buf off (lit "%02X") [ArgUInt (byte_val b)];
      payload_hex_loop n' p_payload_buf (S i) payload_buf' (off + Z.to_nat k)
  end.

(** The loop [for (i = 0; i < payload_size; i++)] with [p_buf = payload_buf]. *)
Definition payload_hex (p_payload_buf : list byte) (payload_size : nat)
    (payload_buf : list ascii) : option (list ascii) :=
  payload_hex_loop payload_size p_payload_buf 0 payload_buf 0.

(** ** Reference encoding and decoding *)

Definition hex_byte (b : byte) : list ascii :=
  [digit_char (byte_val b / 16); digit_char (byte_val b mod 16)].

Definition hex_encode (p : list byte) : list ascii := p ≫= hex_byte.

Definition hex_digit_val (c : ascii) : option Z :=
  if (48 <=? code c) && (code c <=? 57) then Some (code c - 48)
  else if (65 <=? code c) && (code c <=? 70) then Some (code c - 55)
  else None.

Fixpoint hex_decode (s : list ascii) : option (list byte) :=
  match s with
  | [] => Some []
  | h :: l :: r =>
      hi ← hex_digit_val h;
      lo ← hex_digit_val l;
      b ← Byte.of_N (Z.to_N (16 * hi + lo));
      (b ::.) <$> hex_decode r
  | _ => None
  end.

(** An upper-case hexadecimal digit. *)
Definition is_upper_hex (c : ascii) : bool :=
  ((48 <=? code c) && (code c <=? 57)) || ((65 <=? code c) && (code c <=? 70)).

(** * Properties *)

Section payload.
Implicit Types (p : list byte) (b : byte) (buf pre rest : list ascii) (n i : nat).

Lemma byte_val_range b : 0 <= byte_val b < 256.
Proof. unfold byte_val. pose proof (Byte.to_N_bounded b). lia. Qed.

Lemma nibbles_range b :
  0 <= byte_val b / 16 < 16 /\ 0 <= byte_val b mod 16 < 16.
Proof.
  pose proof (byte_val_range b). split.
  - split; [apply Z.div_pos | apply Z.div_lt_upper_bound]; lia.
  - apply Z.mod_pos_bound. lia.
Qed.

(** One conversion of the loop prints the two nibbles of the byte. *)
Lemma vformat_02X b :
  vformat (chars "%02X") [ArgUInt (byte_val b)] = Some (hex_byte b).
Proof.
  unfold vformat. simpl. rewrite app_nil_r.
  by rewrite fmt_02X_byte by apply byte_val_range.
Qed.

Lemma hex_encode_cons b p : hex_encode (b :: p) = hex_byte b ++ hex_encode p.
Proof. done. Qed.

Lemma hex_encode_app p q : hex_encode (p ++ q) = hex_encode p ++ hex_encode q.
Proof. unfold hex_encode. apply bind_app. Qed.

Lemma length_hex_encode p : length (hex_encode p) = (2 * length p)%nat.
Proof.
  induction p as [|b p IH]; [done|].
  rewrite hex_encode_cons, length_app, IH. simpl. lia.
Qed.
#[local] Hint Rewrite length_hex_encode : wisol.

Lemma sprintf_02X pre rest b :
  (3 <= length rest)%nat ->
  sprintf (pre ++ rest) (length pre) (lit "%02X") [ArgUInt (byte_val b)] =
    Some ((pre ++ hex_byte b) ++ NUL :: drop 3 rest, 2).
Proof.
  intros Hr.
  rewrite (sprintf_Some _ _ _ (chars "%02X") _ (hex_byte b)); try done.
  - rewrite take_app_length, <- app_assoc.
    rewrite drop_app_ge by (simpl; lia). simpl.
    by replace (length pre + 2 + 1 - length pre)%nat with 3%nat by lia.
  - apply vformat_02X.
  - rewrite length_app. simpl. lia.
Qed.

(** One iteration that stays inside both arrays. *)
Lemma payload_hex_loop_step n p i pre rest b :
  p !! i = Some b -> (3 <= length rest)%nat ->
  payload_hex_loop (S n) p i (pre ++ rest) (length pre) =
    payload_hex_loop n p (S i) ((pre ++ hex_byte b) ++ NUL :: drop 3 rest)
      (length (pre ++ hex_byte b)).
Proof.
  intros Hb Hr. cbn [payload_hex_loop]. rewrite Hb. cbn [mbind option_bind].
  rewrite sprintf_02X by done. cbn [mbind option_bind].
  by rewrite length_app.
Qed.

(** The loop invariant: after [n] iterations from index [i], the text of
    those [n] bytes stands at [p_buf]'s first position, terminated. *)
Lemma payload_hex_loop_spec n p i pre rest :
  (i + S n <= length p)%nat -> (2 * S n + 1 <= length rest)%nat ->
  payload_hex_loop (S n) p i (pre ++ rest) (length pre) =
    Some (pre ++ hex_encode (take (S n) (drop i p)) ++ NUL :: drop (2 * S n + 1) rest).
Proof.
  revert i pre rest. induction n as [|n IH]; intros i pre rest Hp Hr.
  all: destruct (lookup_lt_is_Some_2 p i) as [b Hb]; [lia|].
  all: rewrite (drop_S _ _ _ Hb); cbn [take]; rewrite hex_encode_cons.
  all: rewrite (payload_hex_loop_step _ _ _ _ _ b) by (done || lia).
  - rewrite take_0. cbn [payload_hex_loop]. by rewrite <- !app_assoc.
  - rewrite IH by len.
    rewrite <- !app_assoc. do 4 f_equal.
    change (NUL :: drop 3 rest) with ([NUL] ++ drop 3 rest).
    rewrite drop_app_ge by (simpl; lia). rewrite drop_drop.
    cbn [length]. do 2 f_equal. lia.
Qed.

(** ** The loop against the reference *)

(** For a payload of at least one byte that the payload array really
    holds, and a text array with room for two characters per byte and the
    terminator, the loop stores the reference encoding of the payload
    followed by a terminator, and leaves the rest of the array as it was. *)
Lemma payload_hex_stored p payload_size buf :
  (0 < payload_size <= length p)%nat -> (2 * payload_size < length buf)%nat ->
  payload_hex p payload_size buf =
    Some (hex_encode (take payload_size p) ++ NUL :: drop (2 * payload_size + 1) buf).
Proof.
  intros Hp Hb. destruct payload_size as [|n]; [lia|].
  unfold payload_hex. apply (payload_hex_loop_spec n p 0 [] buf); simpl; lia.
Qed.

(** One iteration without room for two characters and a terminator. *)
Lemma payload_hex_loop_short n p i pre rest b :
  p !! i = Some b -> (length rest < 3)%nat ->
  payload_hex_loop (S n) p i (pre ++ rest) (length pre) = None.
Proof.
  intros Hb Hr. cbn [payload_hex_loop]. rewrite Hb. cbn [mbind option_bind].
  unfold sprintf. rewrite cstr_lit by nul_free. cbn [mbind option_bind].
  rewrite vformat_02X. cbn [mbind option_bind].
  by rewrite poke_None by len.
Qed.

Lemma payload_hex_loop_overflow n p i pre rest :
  (i + S n <= length p)%nat -> (length rest < 2 * S n + 1)%nat ->
  payload_hex_loop (S n) p i (pre ++ rest) (length pre) = None.
Proof.
  revert i pre rest. induction n as [|n IH]; intros i pre rest Hp Hr.
  all: destruct (lookup_lt_is_Some_2 p i) as [b Hb]; [lia|].
  - apply (payload_hex_loop_short _ _ _ _ _ b); [done | lia].
  - destruct (decide (3 <= length rest)%nat) as [H3|H3].
    + rewrite (payload_hex_loop_step _ _ _ _ _ b) by done.
      apply IH; [lia|]. simpl. rewrite length_drop. lia.
    + apply (payload_hex_loop_short _ _ _ _ _ b); [done | lia].
Qed.

(** More iterations than the payload array has bytes: the loop reads
    past the end of the payload. *)
Lemma payload_hex_loop_overread n p i buf off :
  (i <= length p < i + n)%nat -> payload_hex_loop n p i buf off = None.
Proof.
  revert i buf off. induction n as [|n IH]; intros i buf off Hp; [lia|].
  cbn [payload_hex_loop]. destruct (p !! i) as [b|] eqn:Hb; [|done].
  cbn [mbind option_bind]. destruct (sprintf _ _ _ _) as [[buf' k]|]; [|done].
  apply lookup_lt_Some in Hb. apply IH. lia.
Qed.

Lemma payload_hex_overread p payload_size buf :
  (length p < payload_size)%nat -> payload_hex p payload_size buf = None.
Proof. intros Hp. apply payload_hex_loop_overread. lia. Qed.

(** C9. With more bytes than the text array has room for, the loop writes
    past the end of the array: thirteen bytes overflow [payload_buf[25]],
    which is why the function rejects them first. *)
Theorem payload_hex_overflow p payload_size buf :
  (0 < payload_size <= length p)%nat -> (length buf < 2 * payload_size + 1)%nat ->
  payload_hex p payload_size buf = None.
Proof.
  intros Hp Hb. destruct payload_size as [|n]; [lia|].
  unfold payload_hex. apply (payload_hex_loop_overflow n p 0 [] buf); simpl; lia.
Qed.

Lemma payload_hex_overflow_witness :
  payload_hex (replicate 13 xff) 13 (replicate 25 "?"%char) = None.
Proof.
  apply (payload_hex_overflow (replicate 13 xff) 13 (replicate 25 "?"%char)); simpl; lia.
Defined.

(** ** The reference encoding *)

Lemma is_upper_hex_digit_char d : 0 <= d < 16 -> is_upper_hex (digit_char d) = true.
Proof.
  intros Hd. unfold is_upper_hex. destruct (decide (d < 10)).
  - rewrite digit_char_dec by lia. lia.
  - rewrite digit_char_hex by lia. lia.
Qed.

Lemma hex_digit_val_digit_char d : 0 <= d < 16 -> hex_digit_val (digit_char d) = Some d.
Proof.
  intros Hd. unfold hex_digit_val. destruct (decide (d < 10)).
  - rewrite digit_char_dec by lia.
    replace ((48 <=? 48 + d) && (48 + d <=? 57)) with true by lia. f_equal. lia.
  - rewrite digit_char_hex by lia.
    replace ((48 <=? 55 + d) && (55 + d <=? 57)) with false by lia.
    replace ((65 <=? 55 + d) && (55 + d <=? 70)) with true by lia. f_equal. lia.
Qed.

(** The encoding has two characters per byte, all of them upper-case
    hexadecimal digits. *)
Lemma hex_encode_upper p : Forall (fun c => is_upper_hex c = true) (hex_encode p).
Proof.
  induction p as [|b p IH]; [constructor|].
  rewrite hex_encode_cons. destruct (nibbles_range b).
  repeat constructor; [by apply is_upper_hex_digit_char.. | done].
Qed.

Lemma hex_encode_no_NUL p : NUL ∉ hex_encode p.
Proof.
  intros Hin. pose proof (hex_encode_upper p) as Hu.
  rewrite Forall_forall in Hu. by apply Hu in Hin.
Qed.

(** Decoding the text of a payload gives the payload back. *)
Lemma hex_decode_encode p : hex_decode (hex_encode p) = Some p.
Proof.
  induction p as [|b p IH]; [done|].
  rewrite hex_encode_cons. destruct (nibbles_range b) as [Hh Hl].
  cbn [hex_byte app hex_decode].
  rewrite !hex_digit_val_digit_char by done. cbn [mbind option_bind].
  replace (16 * (byte_val b / 16) + byte_val b mod 16) with (byte_val b)
    by (pose proof (Z_div_mod_eq_full (byte_val b) 16); lia).
  unfold byte_val. rewrite N2Z.id, Byte.of_to_N. cbn [mbind option_bind].
  by rewrite IH.
Qed.

(** ** The text the loop leaves *)

(** C5. Round trip: for a payload of at least one byte and a text array
    with room for it, the string the loop of [wisol_sigfox__send_frame]
    leaves in the text array hex-decodes to the payload. *)
Theorem payload_hex_roundtrip p payload_size buf :
  (0 < payload_size <= length p)%nat -> (2 * payload_size < length buf)%nat ->
  exists out text, payload_hex p payload_size buf = Some out /\
    cstr out = Some text /\ hex_decode text = Some (take payload_size p).
Proof.
  intros Hp Hb. eexists _, _. split; [by apply payload_hex_stored|].
  split; [apply cstr_app, hex_encode_no_NUL | apply hex_decode_encode].
Qed.

(** C8. For a payload of at least one byte and a text array with room
    for it, the string the loop leaves has two characters per payload
    byte, all of them upper-case hexadecimal digits; the loop keeps the
    size of the array and what it held beyond the terminator. *)
Theorem payload_hex_upper p payload_size buf :
  (0 < payload_size <= length p)%nat -> (2 * payload_size < length buf)%nat ->
  exists out text, payload_hex p payload_size buf = Some out /\
    cstr out = Some text /\ length text = (2 * payload_size)%nat /\
    Forall (fun c => is_upper_hex c = true) text /\
    length out = length buf /\
    drop (2 * payload_size + 1) out = drop (2 * payload_size + 1) buf.
Proof.
  intros Hp Hb. eexists _, _. split; [by apply payload_hex_stored|].
  assert (Hl : length (hex_encode (take payload_size p)) = (2 * payload_size)%nat)
    by len.
  split; [apply cstr_app, hex_encode_no_NUL|].
  split; [done|]. split; [apply hex_encode_upper|].
  split; [len|].
  rewrite drop_app_ge by lia. rewrite Hl.
  by replace (2 * payload_size + 1 - 2 * payload_size)%nat with 1%nat by lia.
Qed.

Lemma payload_hex_roundtrip_witness :
  exists out text, payload_hex [x01; x02; xab] 3 (replicate 25 "?"%char) = Some out /\
    cstr out = Some text /\ hex_decode text = Some [x01; x02; xab].
Proof.
  apply (payload_hex_roundtrip [x01; x02; xab] 3 (replicate 25 "?"%char)); simpl; lia.
Defined.

Lemma payload_hex_upper_witness :
  exists out text, payload_hex [x01; x02; xab] 3 (replicate 25 "?"%char) = Some out /\
    cstr out = Some text /\ length text = 6%nat /\
    Forall (fun c => is_upper_hex c = true) text /\
    length out = 25%nat /\ drop 7 out = replicate 18 "?"%char.
Proof.
  apply (payload_hex_upper [x01; x02; xab] 3 (replicate 25 "?"%char)); simpl; lia.
Defined.

End payload.

#[export] Hint Rewrite length_hex_encode : wisol.
