(* ===== verification/Driver.v ===== *)
(** * The driver's operations

    One definition per function of [src/wisol_sigfox.c], in the monad [M]
    of [Transport].  Each takes the stack contents [j] its automatic arrays
    start with; arrays the caller passes in are arguments and their new
    contents are results. *)

From Stdlib Require Import Init.Byte.
From S2P Require Import Prelude CString Printf Commands Float32 Transport Payload.

(** Size of the scratch arrays that hold commands and answers. *)
Definition DEFAULT_BUF_SZ : nat := 32.
#[export] Hint Unfold DEFAULT_BUF_SZ : wisol.

(** Timeout of every exchange but the transmission of a frame, in ms. *)
Definition WISOL_SIGFOX_DEFAULT_TIMEOUT : Z := 100.

(** The power modes of [wisol_sigfox_power_mode_t] and their values. *)
Inductive wisol_sigfox_power_mode_t : Type :=
  | WISOL_SIGFOX__POWER_MODE_RESET
  | WISOL_SIGFOX__POWER_MODE_SLEEP
  | WISOL_SIGFOX__POWER_MODE_DEEPSLEEP.

Definition power_mode_value (m : wisol_sigfox_power_mode_t) : Z :=
  match m with
  | WISOL_SIGFOX__POWER_MODE_RESET => 0
  | WISOL_SIGFOX__POWER_MODE_SLEEP => 1
  | WISOL_SIGFOX__POWER_MODE_DEEPSLEEP => 2
  end.

(** The value returned by [wisol_sigfox__freq_str_to_fl]:
    [(float)i1 + ((float)i2) / 1000000.0f], every operation in [float]. *)
Definition freq_of_ints (i1 i2 : Z) : float :=
  f32_add (f32_of_int i1) (f32_div (f32_of_int i2) (f32_of_int 1000000)).

(** [wisol_sigfox__freq_str_to_fl(buf)]: the first three characters of the
    answer as megahertz, the next six as millionths. *)
Definition wisol_sigfox__freq_str_to_fl (j : junk) (buf : list ascii)
  : option float :=
  let b1 := uninit j 0 4 in
  let b2 := uninit j 4 7 in
  b1 ← memset b1 0 (length b1);
  b1 ← strncpy b1 buf 3;
  b2 ← memset b2 0 (length b2);
  b2 ← strncpy b2 (drop 3 buf) 6;
  i1 ← atoi b1;
  i2 ← atoi b2;
  Some (freq_of_ints i1 i2).

Section driver.
Context {T : Type} `{Transport T}.

(** [wisol_sigfox__ready()] *)
Definition wisol_sigfox__ready (j : junk) : M T bool :=
  let buf := uninit j 0 DEFAULT_BUF_SZ in
  cmd ← lift (command CMD_STATUS);
  buf ← wisol_sigfox__serial_sync cmd buf (sizeof buf) WISOL_SIGFOX_DEFAULT_TIMEOUT;
  r ← lift (strncmp (lit "OK") buf (length buf));
  mret (bool_decide (r = 0)).

(** The body shared by [wisol_sigfox__get_id(p_id_buf)] and
    [wisol_sigfox__get_pac(p_pac_buf)]: [n_zero] characters of the caller's
    array are cleared, information [index] is asked for, and the answer
    goes to the caller's array with size [sz]. *)
Definition get_identity (n_zero : nat) (index sz : Z) (j : junk)
    (p_buf : list ascii) : M T (list ascii) :=
  p_buf ← lift (memset p_buf 0 n_zero);
  let buf := uninit j 0 DEFAULT_BUF_SZ in
  fmt ← lift (command CMD_INFORMATION);
  '(buf, _) ← lift (snprintf buf (length buf) fmt [ArgUInt index]);
  wisol_sigfox__serial_sync buf p_buf sz WISOL_SIGFOX_DEFAULT_TIMEOUT.

Definition wisol_sigfox__get_id : junk -> list ascii -> M T (list ascii) :=
  get_identity 9 10 8.
Definition wisol_sigfox__get_pac : junk -> list ascii -> M T (list ascii) :=
  get_identity 17 11 16.

(** The body shared by [wisol_sigfox__get_tx_freq()] and
    [wisol_sigfox__get_rx_freq()], which differ in the command only. *)
Definition get_freq (c : wisol_sigfox__commmands_e) (j : junk) : M T float :=
  let buf := uninit j 0 DEFAULT_BUF_SZ in
  let buf_res := uninit j 32 DEFAULT_BUF_SZ in
  text ← lift (command c);
  '(buf, _) ← lift (snprintf buf (length buf) (lit "%s") [ArgStr text]);
  buf_res ← wisol_sigfox__serial_sync buf buf_res (sizeof buf_res)
              WISOL_SIGFOX_DEFAULT_TIMEOUT;
  lift (wisol_sigfox__freq_str_to_fl (fun i => j (64 + i)%nat) buf_res).

Definition wisol_sigfox__get_tx_freq : junk -> M T float := get_freq CMD_GET_TX_FREQ.
Definition wisol_sigfox__get_rx_freq : junk -> M T float := get_freq CMD_GET_RX_FREQ.

(** [wisol_sigfox__send_frame(p_payload_buf, payload_size, downlink_flag)] *)
Definition wisol_sigfox__send_frame (j : junk) (p_payload_buf : list byte)
    (payload_size : nat) (downlink_flag : bool) : M T bool :=
  let buf := uninit j 0 (24 + DEFAULT_BUF_SZ) in
  let payload_buf := uninit j 56 25 in
  if (12 <? payload_size)%nat then mret false else
  payload_buf ← lift (payload_hex p_payload_buf payload_size payload_buf);
  fmt ← lift (command CMD_SEND_FRAME);
  '(buf, s) ← lift (snprintf buf (length buf) fmt
      [ArgStr payload_buf; ArgStr (if downlink_flag then lit ",1" else lit "")]);
  let buf_res := uninit j 81 DEFAULT_BUF_SZ in
  buf_res ← wisol_sigfox__serial_sync buf buf_res (sizeof buf_res) 20000;
  r ← lift (strncmp buf_res (lit "OK") (length buf_res));
  mret (bool_decide (r = 0)).

(** [wisol_sigfox__get_firmware_version(p_buf, sz_buf)] *)
Definition wisol_sigfox__get_firmware_version (j : junk) (p_buf : list ascii)
    (sz_buf : nat) : M T (list ascii) :=
  let buf := uninit j 0 DEFAULT_BUF_SZ in
  let buf_res1 := uninit j 32 DEFAULT_BUF_SZ in
  let buf_res2 := uninit j 64 DEFAULT_BUF_SZ in
  fmt ← lift (command CMD_INFORMATION);
  '(buf, _) ← lift (snprintf buf (length buf) fmt [ArgUInt 4]);
  buf_res1 ← wisol_sigfox__serial_sync buf buf_res1 (sizeof buf_res1)
               WISOL_SIGFOX_DEFAULT_TIMEOUT;
  '(buf, _) ← lift (snprintf buf (length buf) fmt [ArgUInt 5]);
  buf_res2 ← wisol_sigfox__serial_sync buf buf_res2 (sizeof buf_res2)
               WISOL_SIGFOX_DEFAULT_TIMEOUT;
  '(p_buf, _) ← lift (snprintf p_buf sz_buf (lit "%s.%s")
      [ArgStr buf_res1; ArgStr buf_res2]);
  mret p_buf.

(** The body shared by [wisol_sigfox__get_firmware_vcs_version(p_buf, sz_buf)]
    and [wisol_sigfox__get_library_version(p_buf, sz_buf)], which differ in
    the information index only. *)
Definition get_information (index : Z) (j : junk) (p_buf : list ascii)
    (sz_buf : nat) : M T (list ascii) :=
  let buf := uninit j 0 DEFAULT_BUF_SZ in
  fmt ← lift (command CMD_INFORMATION);
  '(buf, _) ← lift (snprintf buf (length buf) fmt [ArgUInt index]);
  wisol_sigfox__serial_sync buf p_buf (to_int (Z.of_nat sz_buf))
    WISOL_SIGFOX_DEFAULT_TIMEOUT.

Definition wisol_sigfox__get_firmware_vcs_version
  : junk -> list ascii -> nat -> M T (list ascii) := get_information 8.
Definition wisol_sigfox__get_library_version
  : junk -> list ascii -> nat -> M T (list ascii) := get_information 9.

(** [wisol_sigfox__set_power_mode(mode)] *)
Definition wisol_sigfox__set_power_mode (j : junk)
    (mode : wisol_sigfox_power_mode_t) : M T unit :=
  let buf := uninit j 0 DEFAULT_BUF_SZ in
  let buf_res := uninit j 32 DEFAULT_BUF_SZ in
  fmt ← lift (command CMD_SET_POWER_MODE);
  '(buf, _) ← lift (snprintf buf (length buf) fmt
      [ArgUInt (to_uint8 (power_mode_value mode))]);
  _ ← wisol_sigfox__serial_sync buf buf_res (sizeof buf_res)
        WISOL_SIGFOX_DEFAULT_TIMEOUT;
  mret tt.

(** [wisol_sigfox__get_power_level()] *)
Definition wisol_sigfox__get_power_level (j : junk) : M T Z :=
  let buf := uninit j 0 DEFAULT_BUF_SZ in
  let buf_res := uninit j 32 DEFAULT_BUF_SZ in
  buf_res ← lift (memset buf_res 0 (length buf_res));
  fmt ← lift (command CMD_GET_REGISTER);
  '(buf, _) ← lift (snprintf buf (length buf) fmt [ArgUInt 302]);
  buf_res ← wisol_sigfox__serial_sync buf buf_res (sizeof buf_res)
              WISOL_SIGFOX_DEFAULT_TIMEOUT;
  v ← lift (atoi buf_res);
  mret (to_uint8 v).

(** [wisol_sigfox__set_power_level(power_level)] *)
Definition wisol_sigfox__set_power_level (j : junk) (power_level : Z)
  : M T unit :=
  let buf := uninit j 0 DEFAULT_BUF_SZ in
  let buf_res := uninit j 32 DEFAULT_BUF_SZ in
  let buf_pl := uninit j 64 DEFAULT_BUF_SZ in
  buf_res ← lift (memset buf_res 0 (length buf_res));
  buf_pl ← lift (memset buf_pl 0 (length buf_pl));
  '(buf_pl, _) ← lift (snprintf buf_pl (length buf_pl) (lit "%u")
      [ArgUInt (to_uint8 power_level)]);
  fmt ← lift (command CMD_SET_REGISTER);
  '(buf, _) ← lift (snprintf buf (length buf) fmt [ArgUInt 302; ArgStr buf_pl]);
  _ ← wisol_sigfox__serial_sync buf buf_res (sizeof buf_res)
        WISOL_SIGFOX_DEFAULT_TIMEOUT;
  mret tt.

End driver.
