(* ===== verification/Codec.v ===== *)
(** * The codec, abstractly

    What the operations of the driver promise to a caller, stated on texts
    instead of arrays: every operation is one transaction (two for the
    firmware version) in which a command text goes to the transport and
    the text of its answer comes back.  Nothing here mentions the stack,
    array sizes other than the capacity handed to the transport, or the C
    library.  [Refinement] shows that the functions of [Driver] implement
    these operations when the transport terminates its answers, and
    [Simulation] that sessions do; the rules that compose a refinement
    along the binds of two computations are here. *)

From Stdlib Require Import Init.Byte.
From S2P Require Import Prelude CString Printf Float32 Transport Payload Driver.

(** ** Response grammars *)

(** A frequency answer: exactly nine decimal digits, three of megahertz
    and six of millionths. *)
Definition parse_frequency (text : list ascii) : option float :=
  if forallb isdigit text && (length text =? 9)%nat
  then Some (freq_of_ints (dec_value (take 3 text)) (dec_value (drop 3 text)))
  else None.

(** A numeric answer: plain decimal text. *)
Definition parse_unsigned (text : list ascii) : option Z :=
  match text with
  | [] => None
  | _ => if forallb isdigit text then Some (dec_value text) else None
  end.

Section codec.
Context {T : Type} `{Transport T}.

(** ** Transactions *)

(** One transaction: the command text goes to the transport with the
    capacity of the response buffer and the timeout; the result is the
    text of the answer. *)
Definition transact (line : list ascii) (capacity timeout : Z) : M T (list ascii) :=
  fun w =>
    let c := Call line capacity timeout in
    let r := respond (dev w) c in
    Some (strn r.1, World r.2 (calls w ++ [c])).

(** ** Operations *)

Definition codec_ready : M T bool :=
  text ← transact (chars "AT") 32 100;
  mret (bool_decide (text = chars "OK")).

Definition codec_send_frame (payload : list byte) (downlink : bool) : M T bool :=
  if (12 <? length payload)%nat then mret false else
  text ← transact (chars "AT$SF=" ++ hex_encode payload
                     ++ (if downlink then chars ",1" else [])) 32 20000;
  mret (bool_decide (text = chars "OK")).

Definition codec_get_information (index capacity : Z) : M T (list ascii) :=
  transact (chars "AT$I=" ++ fmt_u index) capacity 100.

(** The identifier and the PAC: the destination has a capacity of 9,
    respectively 17, bytes, and the transport writes at most
    [capacity - 1] of them, the 8 and the 16 characters of the texts.
    This is also the size the driver hands the transport; with a
    transport that spends one of these characters on a terminator the
    text is one character shorter, here and in the driver
    ([get_id_terminated_short] in [Queries]). *)
Definition codec_get_identity (index capacity : Z) : M T (list ascii) :=
  codec_get_information index (capacity - 1).

Definition codec_get_id : M T (list ascii) := codec_get_identity 10 9.
Definition codec_get_pac : M T (list ascii) := codec_get_identity 11 17.

Definition codec_get_firmware_version : M T (list ascii) :=
  major ← codec_get_information 4 32;
  minor ← codec_get_information 5 32;
  mret (major ++ chars "." ++ minor).

Definition codec_get_frequency (line : list ascii) : M T float :=
  text ← transact line 32 100;
  lift (parse_frequency text).

Definition codec_get_tx_freq : M T float := codec_get_frequency (chars "AT$IF?").
Definition codec_get_rx_freq : M T float := codec_get_frequency (chars "AT$DR?").

Definition codec_get_power_level : M T Z :=
  text ← transact (chars "ATS302?") 32 100;
  v ← lift (parse_unsigned text);
  mret (v mod 256).

Definition codec_set_power_level (level : Z) : M T unit :=
  _ ← transact (chars "ATS302=" ++ fmt_u level) 32 100;
  mret tt.

Definition codec_set_power_mode (mode : wisol_sigfox_power_mode_t) : M T unit :=
  _ ← transact (chars "AT$P=" ++ fmt_u (power_mode_value mode)) 32 100;
  mret tt.

(** ** Refinement *)

(** An implementation refines an operation when every result of the
    operation is a result of the implementation, up to the relation [R]
    between what the implementation returns (an array, say) and what the
    operation returns (a text), with the same transport state and the same
    calls.  The operations above are defined in every state unless the
    answer is outside the grammar, so that refinement includes that the
    implementation returns. *)
Definition refines {A B} (R : A -> B -> Prop) (impl : M T A) (spec : M T B) : Prop :=
  forall w y w', spec w = Some (y, w') -> exists x, impl w = Some (x, w') /\ R x y.

(** Refinement in one state [w]: the rules below compose it along the
    binds of the two computations. *)
Definition simulates {A B} (R : A -> B -> Prop) (impl : M T A) (spec : M T B)
    (w : world T) : Prop :=
  forall y w', spec w = Some (y, w') -> exists x, impl w = Some (x, w') /\ R x y.

(** The relation between an array and the text it holds. *)
Definition holds (buf text : list ascii) : Prop := cstr buf = Some text.

(** ** Properties of the definitions *)

Lemma transact_Some line capacity timeout w :
  transact line capacity timeout w =
    Some (strn (respond (dev w) (Call line capacity timeout)).1,
          World (respond (dev w) (Call line capacity timeout)).2
                (calls w ++ [Call line capacity timeout])).
Proof. done. Qed.

Lemma transact_bind {A} line capacity timeout (k : list ascii -> M T A) w :
  (transact line capacity timeout ≫= k) w =
    k (strn (respond (dev w) (Call line capacity timeout)).1)
      (World (respond (dev w) (Call line capacity timeout)).2
             (calls w ++ [Call line capacity timeout])).
Proof. done. Qed.

(** ** Rules of refinement *)

Lemma refines_simulates {A B} (R : A -> B -> Prop) (impl : M T A) (spec : M T B) :
  refines R impl spec <-> forall w, simulates R impl spec w.
Proof. done. Qed.

Lemma refines_at {A B} (R : A -> B -> Prop) (impl : M T A) (spec : M T B) w :
  refines R impl spec -> simulates R impl spec w.
Proof. intros Hr. exact (Hr w). Qed.

Lemma simulates_eq {A} (impl spec : M T A) w :
  impl w = spec w -> simulates eq impl spec w.
Proof. intros He y w' Hs. exists y. by rewrite He. Qed.

Lemma simulates_ret {A B} (R : A -> B -> Prop) x y w :
  R x y -> simulates R (mret x : M T A) (mret y) w.
Proof. intros Hxy y' w' [= <- <-]. by exists x. Qed.

Lemma simulates_mono {A B} (R R' : A -> B -> Prop) (impl : M T A) (spec : M T B) w :
  (forall x y, R x y -> R' x y) -> simulates R impl spec w -> simulates R' impl spec w.
Proof. intros HR Hs y w' Hy. destruct (Hs _ _ Hy) as (x & Hx & Hxy). eauto. Qed.

(** The rule of sequence: the continuations are compared on related
    results, in the state the first computation left. *)
Lemma simulates_bind {A B A' B'} (R : A -> B -> Prop) (S : A' -> B' -> Prop)
    (m : M T A) (m' : M T B) (k : A -> M T A') (k' : B -> M T B') w :
  simulates R m m' w ->
  (forall x y w1, R x y -> m w = Some (x, w1) -> simulates S (k x) (k' y) w1) ->
  simulates S (m ≫= k) (m' ≫= k') w.
Proof.
  intros Hm Hk z w2 (y & w1 & Hs & Hz)%M_bind_Some.
  destruct (Hm _ _ Hs) as (x & Hx & Hxy).
  destruct (Hk x y w1 Hxy Hx _ _ Hz) as (x' & Hx' & Hz').
  exists x'. split; [|done]. apply M_bind_Some. eauto.
Qed.

(** An implementation that computes the operation's result refines it. *)
Lemma refines_eq {A} (impl spec : M T A) :
  (forall w, impl w = spec w) -> refines eq impl spec.
Proof. intros He w y w' Hs. exists y. by rewrite He. Qed.

End codec.

(** ** The grammars *)

Lemma parse_frequency_Some text x :
  parse_frequency text = Some x ->
  length text = 9%nat /\ Forall (fun d => isdigit d = true) text /\
  x = freq_of_ints (dec_value (take 3 text)) (dec_value (drop 3 text)).
Proof.
  unfold parse_frequency. destruct (forallb isdigit text) eqn:Hd; [|done].
  destruct (length text =? 9)%nat eqn:Hl; [|done]. intros [= <-].
  apply Nat.eqb_eq in Hl. by apply forallb_Forall in Hd.
Qed.

Lemma parse_unsigned_Some text v :
  parse_unsigned text = Some v ->
  text <> [] /\ Forall (fun d => isdigit d = true) text /\ v = dec_value text.
Proof.
  unfold parse_unsigned. destruct text as [|c r]; [done|].
  destruct (forallb isdigit (c :: r)) eqn:Hd; [|done]. intros [= <-].
  by apply forallb_Forall in Hd.
Qed.

Lemma parse_unsigned_digits ds :
  ds <> [] -> Forall (fun d => isdigit d = true) ds ->
  parse_unsigned ds = Some (dec_value ds).
Proof.
  intros Hne Hds. unfold parse_unsigned. destruct ds as [|d ds]; [done|].
  by rewrite (Forall_forallb _ _ Hds).
Qed.
