(* ===== verification/Exchange.v ===== *)
(** * What each operation exchanges with the module

    For every operation of [Driver]: the command line it hands to the
    transport, with the size and timeout, the log after the call, and the
    value it returns, as functions of the transport's answer and of the
    stack contents the operation started with.  The lemmas [..._eq] give
    the outcome of an operation in every case, the undefined ones
    included. *)

From Stdlib Require Import Init.Byte.
From S2P Require Import Prelude CString Printf Commands Float32 Transport Payload Driver.

(** The test [strncmp(..., "OK", sizeof ...) == 0] on an answer array. *)
Definition is_OK (buf : list ascii) : bool :=
  bool_decide (cstr buf = Some (chars "OK")).

(** The text [wisol_sigfox__send_frame] sends after [AT$SF=]: for a
    payload of at least one byte its encoding, and for an empty payload
    the string that [payload_buf] happens to hold. *)
Definition frame_text (j : junk) (p_payload_buf : list byte) (payload_size : nat)
  : option (list ascii) :=
  match payload_size with
  | O => cstr (uninit j 56 25)
  | _ => Some (hex_encode (take payload_size p_payload_buf))
  end.

(** The downlink marker of the send-frame command. *)
Definition downlink_suffix (downlink_flag : bool) : string :=
  if downlink_flag then ",1"%string else ""%string.

(** * Shared steps *)

Section steps.
Context {T : Type} `{Transport T}.
Implicit Types (w : world T) (j : junk) (buf : list ascii).

Lemma sizeof_uninit j off n :
  Z.of_nat n < 2 ^ 31 -> sizeof (uninit j off n) = Z.of_nat n.
Proof. intros Hn. unfold sizeof. rewrite length_uninit. apply to_int_small. lia. Qed.

Lemma sizeof_cleared n : Z.of_nat n < 2 ^ 31 -> sizeof (replicate n NUL) = Z.of_nat n.
Proof. intros Hn. unfold sizeof. rewrite length_replicate. apply to_int_small. lia. Qed.

Lemma strncmp_OK buf :
  (2 < length buf)%nat ->
  exists z, strncmp (lit "OK") buf (length buf) = Some z /\
    bool_decide (z = 0) = is_OK buf.
Proof.
  intros Hb. destruct (strncmp_lit (chars "OK") buf (length buf)) as (z & Hz & Hiff);
    [nul_free | simpl; lia | simpl; lia |].
  exists z. split; [done|]. by apply bool_decide_ext.
Qed.

(** The test as [wisol_sigfox__ready] writes it, literal first. *)
Lemma test_OK_l buf w :
  (2 < length buf)%nat ->
  (lift (strncmp (lit "OK") buf (length buf)) ≫= fun r => mret (bool_decide (r = 0))) w
    = Some (is_OK buf, w).
Proof.
  intros Hb. destruct (strncmp_OK buf Hb) as (z & Hz & <-).
  by rewrite (M_bind_eq _ _ w z w) by (by rewrite Hz).
Qed.

(** The test as [wisol_sigfox__send_frame] writes it, literal second. *)
Lemma test_OK_r buf w :
  (2 < length buf)%nat ->
  (lift (strncmp buf (lit "OK") (length buf)) ≫= fun r => mret (bool_decide (r = 0))) w
    = Some (is_OK buf, w).
Proof.
  intros Hb. destruct (strncmp_OK buf Hb) as (z & Hz & <-).
  rewrite (M_bind_eq _ _ w (- z) w) by (by rewrite strncmp_swap, Hz).
  unfold mret, M_ret. do 2 f_equal. apply bool_decide_ext. lia.
Qed.

(** An answer array of 32 characters is longer than the literal [OK]. *)
Lemma answer_longer j off w c :
  call_size c = 32 ->
  (2 < length (stored (respond (dev w) c).1 (uninit j off 32)))%nat.
Proof.
  intros Hc. pose proof (respond_bound (dev w) c) as Hb. rewrite Hc in Hb.
  rewrite length_stored; len.
Qed.

(** Formatting a command whose syntax starts with literal text. *)
Lemma format_lits s ds args :
  format ((DLit <$> s) ++ ds) args = (s ++.) <$> format ds args.
Proof.
  induction s as [|c s IH].
  - simpl. by destruct (format ds args).
  - rewrite fmap_cons. cbn [app format]. rewrite IH. by destruct (format ds args).
Qed.

(** Sending one line, in every case: [snprintf] builds it in [buf] from a
    format whose text fits, and the transport's answer goes to [buf_res]
    when it fits the array; the rest of the function may use both arrays.
    An answer longer than the array is stored past its end. *)
Lemma send_line_eq {A} fmt f ds args out buf buf_res sz tmo
    (k : list ascii -> list ascii -> M T A) w :
  cstr fmt = Some f -> parse_fmt f = Some ds -> format ds args = Some out ->
  NUL ∉ out -> (length out < length buf)%nat ->
  let cl := Call out sz tmo in
  let r := respond (dev w) cl in
  ('(buf', _) ← lift (snprintf buf (length buf) fmt args);
   buf_res' ← wisol_sigfox__serial_sync buf' buf_res sz tmo;
   k buf' buf_res') w
  = if bool_decide (length r.1 <= length buf_res)%nat
    then k (out ++ NUL :: drop (S (length out)) buf) (stored r.1 buf_res)
           (World r.2 (calls w ++ [cl]))
    else None.
Proof.
  intros Hf Hp Hout Hnul Hlen cl r.
  assert (Hv : vformat f args = Some out) by (unfold vformat; by rewrite Hp).
  rewrite (M_bind_eq _ _ w _ w)
    by (by rewrite (snprintf_fits _ _ _ _ _ _ Hf Hv) by lia).
  cbv beta iota. unfold mbind at 1, M_bind at 1.
  rewrite (serial_sync_eq _ _ _ _ _ _ (cstr_app _ _ Hnul)). fold cl r.
  by case_bool_decide.
Qed.

(** The same when the array is as large as the size given: the answer
    always fits. *)
Lemma send_line_buf {A} fmt f ds args out buf buf_res sz tmo
    (k : list ascii -> list ascii -> M T A) w :
  cstr fmt = Some f -> parse_fmt f = Some ds -> format ds args = Some out ->
  NUL ∉ out -> (length out < length buf)%nat -> (Z.to_nat sz <= length buf_res)%nat ->
  let cl := Call out sz tmo in
  let r := respond (dev w) cl in
  ('(buf', _) ← lift (snprintf buf (length buf) fmt args);
   buf_res' ← wisol_sigfox__serial_sync buf' buf_res sz tmo;
   k buf' buf_res') w
  = k (out ++ NUL :: drop (S (length out)) buf) (stored r.1 buf_res)
      (World r.2 (calls w ++ [cl])).
Proof.
  intros Hf Hp Hout Hnul Hlen Hsz cl r.
  rewrite (send_line_eq _ _ _ _ _ _ _ _ _ _ _ Hf Hp Hout Hnul Hlen). fold cl r.
  pose proof (respond_bound (dev w) cl) as Hb. fold r in Hb. simpl in Hb.
  by rewrite bool_decide_true by lia.
Qed.

(** The same when the rest of the function uses the answer only. *)
Lemma send_line {A} fmt f ds args out buf buf_res sz tmo (k : list ascii -> M T A) w :
  cstr fmt = Some f -> parse_fmt f = Some ds -> format ds args = Some out ->
  NUL ∉ out -> (length out < length buf)%nat -> (Z.to_nat sz <= length buf_res)%nat ->
  let cl := Call out sz tmo in
  let r := respond (dev w) cl in
  ('(buf', _) ← lift (snprintf buf (length buf) fmt args);
   buf_res' ← wisol_sigfox__serial_sync buf' buf_res sz tmo;
   k buf_res') w
  = k (stored r.1 buf_res) (World r.2 (calls w ++ [cl])).
Proof.
  intros Hf Hp Hout Hnul Hlen Hsz.
  exact (send_line_buf _ _ _ _ _ _ _ _ _ (fun _ => k) w Hf Hp Hout Hnul Hlen Hsz).
Qed.

(** The same when the call is the last statement of the function. *)
Lemma send_line_last fmt f ds args out buf buf_res sz tmo w :
  cstr fmt = Some f -> parse_fmt f = Some ds -> format ds args = Some out ->
  NUL ∉ out -> (length out < length buf)%nat -> (Z.to_nat sz <= length buf_res)%nat ->
  let cl := Call out sz tmo in
  let r := respond (dev w) cl in
  ('(buf', _) ← lift (snprintf buf (length buf) fmt args);
   wisol_sigfox__serial_sync buf' buf_res sz tmo) w
  = Some (stored r.1 buf_res, World r.2 (calls w ++ [cl])).
Proof.
  intros Hf Hp Hout Hnul Hlen Hsz cl r.
  assert (Hv : vformat f args = Some out) by (unfold vformat; by rewrite Hp).
  rewrite (M_bind_eq _ _ w _ w)
    by (by rewrite (snprintf_fits _ _ _ _ _ _ Hf Hv) by lia).
  cbv beta iota.
  by rewrite (serial_sync_Some _ _ _ _ _ _ (cstr_app _ _ Hnul) Hsz).
Qed.

(** One exchange: the format is fetched from the command table, the line
    is built and sent. *)
Lemma exchange {A} c args out buf buf_res sz tmo (k : list ascii -> M T A) w :
  format (cmd_syntax c) args = Some out -> NUL ∉ out ->
  (length out < length buf)%nat -> (Z.to_nat sz <= length buf_res)%nat ->
  let cl := Call out sz tmo in
  let r := respond (dev w) cl in
  (fmt ← lift (command c);
   '(buf', _) ← lift (snprintf buf (length buf) fmt args);
   buf_res' ← wisol_sigfox__serial_sync buf' buf_res sz tmo;
   k buf_res') w
  = k (stored r.1 buf_res) (World r.2 (calls w ++ [cl])).
Proof.
  intros Hout Hnul Hlen Hsz. destruct (command_syntax c) as (fmt & f & Hc & Hf & Hp).
  rewrite (M_bind_eq _ _ w fmt w) by (by rewrite Hc).
  by apply (send_line fmt f (cmd_syntax c)).
Qed.

Lemma exchange_last c args out buf buf_res sz tmo w :
  format (cmd_syntax c) args = Some out -> NUL ∉ out ->
  (length out < length buf)%nat -> (Z.to_nat sz <= length buf_res)%nat ->
  let cl := Call out sz tmo in
  let r := respond (dev w) cl in
  (fmt ← lift (command c);
   '(buf', _) ← lift (snprintf buf (length buf) fmt args);
   wisol_sigfox__serial_sync buf' buf_res sz tmo) w
  = Some (stored r.1 buf_res, World r.2 (calls w ++ [cl])).
Proof.
  intros Hout Hnul Hlen Hsz. destruct (command_syntax c) as (fmt & f & Hc & Hf & Hp).
  rewrite (M_bind_eq _ _ w fmt w) by (by rewrite Hc).
  by apply (send_line_last fmt f (cmd_syntax c)).
Qed.

(** One exchange that ends the function, in every case. *)
Lemma exchange_eq c args out buf buf_res sz tmo w :
  format (cmd_syntax c) args = Some out -> NUL ∉ out -> (length out < length buf)%nat ->
  let cl := Call out sz tmo in
  let r := respond (dev w) cl in
  (fmt ← lift (command c);
   '(buf', _) ← lift (snprintf buf (length buf) fmt args);
   wisol_sigfox__serial_sync buf' buf_res sz tmo) w
  = if bool_decide (length r.1 <= length buf_res)%nat
    then Some (stored r.1 buf_res, World r.2 (calls w ++ [cl])) else None.
Proof.
  intros Hout Hnul Hlen cl r. destruct (command_syntax c) as (fmt & f & Hc & Hf & Hp).
  rewrite (M_bind_eq _ _ w fmt w) by (by rewrite Hc).
  assert (Hv : vformat f args = Some out) by (unfold vformat; by rewrite Hp).
  rewrite (M_bind_eq _ _ w _ w)
    by (by rewrite (snprintf_fits _ _ _ _ _ _ Hf Hv) by lia).
  cbv beta iota. by rewrite (serial_sync_eq _ _ _ _ _ _ (cstr_app _ _ Hnul)).
Qed.

(** The lines of the commands with one numeric argument. *)
Lemma format_information index :
  format (cmd_syntax CMD_INFORMATION) [ArgUInt index] = Some (chars "AT$I=" ++ fmt_u index).
Proof. unfold cmd_syntax. rewrite format_lits. cbn. by rewrite app_nil_r. Qed.

Lemma format_set_power_mode v :
  format (cmd_syntax CMD_SET_POWER_MODE) [ArgUInt v] = Some (chars "AT$P=" ++ fmt_u v).
Proof. unfold cmd_syntax. rewrite format_lits. cbn. by rewrite app_nil_r. Qed.

Lemma format_get_register reg :
  format (cmd_syntax CMD_GET_REGISTER) [ArgUInt reg] =
    Some (chars "ATS" ++ fmt_u reg ++ chars "?").
Proof. unfold cmd_syntax. rewrite format_lits. by cbn. Qed.

Lemma format_set_register reg text rest :
  NUL ∉ text ->
  format (cmd_syntax CMD_SET_REGISTER) [ArgUInt reg; ArgStr (text ++ NUL :: rest)] =
    Some (chars "ATS" ++ fmt_u reg ++ chars "=" ++ text).
Proof.
  intros Ht. unfold cmd_syntax. rewrite format_lits. cbn [format].
  rewrite cstr_app by done. cbn. by rewrite app_nil_r.
Qed.

(** A line made of literal text and one number holds no terminator and is
    at most ten characters longer than its text. *)
Lemma line_u_no_NUL (pre : list ascii) v : NUL ∉ pre -> NUL ∉ pre ++ fmt_u v.
Proof. intros Hp. rewrite not_elem_of_app. split; [done | apply fmt_u_no_NUL]. Qed.

Lemma length_line_u (pre : list ascii) v :
  (length (pre ++ fmt_u v) <= length pre + 10)%nat.
Proof. rewrite length_app. pose proof (length_fmt_u v). lia. Qed.

End steps.

(** * [wisol_sigfox__ready] *)

Section ready.
Context {T : Type} `{Transport T}.
Implicit Types (w : world T) (j : junk).

(** [wisol_sigfox__ready] always returns: it makes one call with the
    line [AT], size 32 and timeout 100, and answers whether the response
    array, the transport's answer over what the stack held, has [OK] as
    its string. *)
Lemma ready_stored j w :
  let c := Call (chars "AT") 32 WISOL_SIGFOX_DEFAULT_TIMEOUT in
  let r := respond (dev w) c in
  wisol_sigfox__ready j w =
    Some (is_OK (stored r.1 (uninit j 0 32)), World r.2 (calls w ++ [c])).
Proof.
  intros c r. unfold wisol_sigfox__ready.
  rewrite (M_bind_eq _ _ w (lit "AT") w) by done.
  rewrite sizeof_uninit by done.
  assert (Hc : cstr (lit "AT") = Some (chars "AT")) by done.
  assert (Hl : (Z.to_nat 32 <= length (uninit j 0 DEFAULT_BUF_SZ))%nat)
    by (by rewrite length_uninit).
  rewrite (M_bind_eq _ _ w _ _ (serial_sync_Some _ _ _ _ WISOL_SIGFOX_DEFAULT_TIMEOUT w Hc Hl)).
  by apply test_OK_l, answer_longer.
Qed.

(** C7. When the transport stores the two characters [OK] and no
    terminator, the result is decided by what the stack held at the third
    position of the response array. *)
Theorem ready_unterminated j w :
  let c := Call (chars "AT") 32 WISOL_SIGFOX_DEFAULT_TIMEOUT in
  let r := respond (dev w) c in
  r.1 = chars "OK" ->
  wisol_sigfox__ready j w =
    Some (bool_decide (j 2%nat = NUL), World r.2 (calls w ++ [c])).
Proof.
  intros c r Hr. rewrite ready_stored. fold c r. rewrite Hr. do 2 f_equal.
  unfold is_OK. apply bool_decide_ext.
  change (stored (chars "OK") (uninit j 0 32))
    with ("O"%char :: "K"%char :: j 2%nat :: uninit j 3 29).
  cbn [cstr]. rewrite !decide_False by done.
  destruct (decide (j 2%nat = NUL)) as [->|Hne]; [done|].
  split; [|done]. by destruct (cstr (uninit j 3 29)).
Qed.

End ready.

Lemma ready_unterminated_witness :
  wisol_sigfox__ready (fun _ => "x"%char) (World [chars "OK"] []) =
    Some (false, World [] [Call (chars "AT") 32 100]).
Proof.
  refine (ready_unterminated (T := script) (fun _ => "x"%char) (World [chars "OK"] []) _).
  reflexivity.
Defined.


(** * [wisol_sigfox__send_frame] *)

Section send_frame.
Context {T : Type} `{Transport T}.
Implicit Types (w : world T) (j : junk) (p : list byte) (downlink_flag : bool).

(** C3. A payload size above 12 is rejected before anything else
    happens: the result is false, the transport is not called and nothing
    is read from the payload. *)
Theorem send_frame_rejects j p payload_size downlink_flag w :
  (12 < payload_size)%nat ->
  wisol_sigfox__send_frame j p payload_size downlink_flag w = Some (false, w).
Proof.
  intros Hs. unfold wisol_sigfox__send_frame.
  by rewrite (proj2 (Nat.ltb_lt _ _) Hs).
Qed.

Lemma format_send_frame text rest downlink_flag :
  NUL ∉ text ->
  format (cmd_syntax CMD_SEND_FRAME)
    [ArgStr (text ++ NUL :: rest);
     ArgStr (if downlink_flag then lit ",1" else lit "")] =
  Some (chars "AT$SF=" ++ text ++ chars (downlink_suffix downlink_flag)).
Proof.
  intros Ht. unfold cmd_syntax. rewrite format_lits. cbn [format].
  rewrite cstr_app by done. cbn [mbind option_bind].
  replace (cstr (if downlink_flag then lit ",1" else lit ""))
    with (Some (chars (downlink_suffix downlink_flag))) by (by destruct downlink_flag).
  cbn. by rewrite app_nil_r.
Qed.

(** The exchange once the text array holds a string [text] of at most 24
    characters. *)
Lemma send_frame_text j p payload_size downlink_flag w text rest :
  (payload_size <= 12)%nat ->
  payload_hex p payload_size (uninit j 56 25) = Some (text ++ NUL :: rest) ->
  NUL ∉ text -> (length text <= 24)%nat ->
  let c := Call (chars "AT$SF=" ++ text ++ chars (downlink_suffix downlink_flag))
             32 20000 in
  let r := respond (dev w) c in
  wisol_sigfox__send_frame j p payload_size downlink_flag w =
    Some (is_OK (stored r.1 (uninit j 81 32)), World r.2 (calls w ++ [c])).
Proof.
  intros Hs Hp Ht Hl c r. unfold wisol_sigfox__send_frame.
  rewrite (proj2 (Nat.ltb_ge _ _)) by lia.
  rewrite (M_bind_eq _ _ w _ w) by (by rewrite Hp).
  rewrite sizeof_uninit by done.
  rewrite (exchange CMD_SEND_FRAME _ _ _ _ _ _ _ w (format_send_frame _ _ _ Ht)).
  - by apply test_OK_r, answer_longer.
  - rewrite !not_elem_of_app. split; [nul_free|]. split; [done|].
    destruct downlink_flag; nul_free.
  - rewrite length_uninit, !length_app. unfold DEFAULT_BUF_SZ.
    destruct downlink_flag; simpl; lia.
  - by rewrite length_uninit, Nat2Z.id.
Qed.

(** For a payload of 1 to 12 bytes: one call whose line is [AT$SF=], the
    hexadecimal text of the payload and the downlink marker. *)
Lemma send_frame_stored j p payload_size downlink_flag w :
  (0 < payload_size <= 12)%nat -> (payload_size <= length p)%nat ->
  let c := Call (chars "AT$SF=" ++ hex_encode (take payload_size p)
                  ++ chars (downlink_suffix downlink_flag)) 32 20000 in
  let r := respond (dev w) c in
  wisol_sigfox__send_frame j p payload_size downlink_flag w =
    Some (is_OK (stored r.1 (uninit j 81 32)), World r.2 (calls w ++ [c])).
Proof.
  intros Hs Hp. eapply send_frame_text; [lia | | apply hex_encode_no_NUL |].
  - apply payload_hex_stored; [lia | len].
  - rewrite length_hex_encode, length_take. lia.
Qed.

(** C1. For a payload of at least one byte that the caller's array
    holds, [wisol_sigfox__send_frame] always returns.  Above 12 bytes it
    answers false and calls nothing.  Otherwise it makes one call whose
    line is [AT$SF=], the upper-case hexadecimal text of the payload and
    [,1] when a downlink is requested, with size 32 and timeout 20000, and
    answers whether the response array has [OK] as its string. *)
Theorem send_frame_exchange j p payload_size downlink_flag w :
  (0 < payload_size <= length p)%nat ->
  let c := Call (chars "AT$SF=" ++ hex_encode (take payload_size p)
                  ++ chars (downlink_suffix downlink_flag)) 32 20000 in
  let r := respond (dev w) c in
  wisol_sigfox__send_frame j p payload_size downlink_flag w =
    if (12 <? payload_size)%nat then Some (false, w)
    else Some (is_OK (stored r.1 (uninit j 81 32)), World r.2 (calls w ++ [c])).
Proof.
  intros Hp c r. destruct (12 <? payload_size)%nat eqn:Hs.
  - unfold wisol_sigfox__send_frame. by rewrite Hs.
  - apply Nat.ltb_ge in Hs. apply send_frame_stored; lia.
Qed.

(** C4. For an empty payload the loop stores nothing, not even a
    terminator: the text sent after [AT$SF=] is whatever string the stack
    held where [payload_buf] is allocated. *)
Theorem send_frame_empty j p downlink_flag w text :
  cstr (uninit j 56 25) = Some text ->
  let c := Call (chars "AT$SF=" ++ text ++ chars (downlink_suffix downlink_flag))
             32 20000 in
  let r := respond (dev w) c in
  wisol_sigfox__send_frame j p 0 downlink_flag w =
    Some (is_OK (stored r.1 (uninit j 81 32)), World r.2 (calls w ++ [c])).
Proof.
  intros Hc. pose proof (cstr_length _ _ Hc) as Hl. rewrite length_uninit in Hl.
  apply cstr_inv in Hc as [Hn Hb].
  eapply send_frame_text; [lia | | done | lia].
  unfold payload_hex. cbn [payload_hex_loop]. by rewrite Hb at 1.
Qed.

(** For an empty payload and a stack without a zero byte in the 25
    positions of [payload_buf], building the command reads past the end of
    the array: the behaviour is undefined. *)
Lemma send_frame_empty_undefined j p downlink_flag w :
  NUL ∉ uninit j 56 25 ->
  wisol_sigfox__send_frame j p 0 downlink_flag w = None.
Proof.
  intros Hn%cstr_None. unfold wisol_sigfox__send_frame. cbn [Nat.ltb Nat.leb].
  rewrite (M_bind_eq _ _ w (uninit j 56 25) w) by done.
  rewrite (M_bind_eq _ _ w (lit "AT$SF=%s%s") w) by done.
  apply M_bind_None. unfold lift, snprintf.
  change (cstr (lit "AT$SF=%s%s")) with (Some (chars "AT$SF=%s%s")).
  cbn [mbind option_bind]. unfold vformat.
  change (parse_fmt (chars "AT$SF=%s%s")) with (Some (cmd_syntax CMD_SEND_FRAME)).
  cbn [mbind option_bind]. unfold cmd_syntax. rewrite format_lits. cbn [format].
  by rewrite Hn.
Qed.

(** [wisol_sigfox__send_frame] in every case: rejection above 12 bytes;
    a read past the payload array when it has fewer bytes than announced;
    a read past [payload_buf] when the payload is empty and the stack
    holds no terminator there; and otherwise one call with the line
    [AT$SF=], the text and the downlink marker. *)
Lemma send_frame_eq j p payload_size downlink_flag w :
  wisol_sigfox__send_frame j p payload_size downlink_flag w =
    if (12 <? payload_size)%nat then Some (false, w)
    else if decide (payload_size <= length p)%nat then
      text ← frame_text j p payload_size;
      let c := Call (chars "AT$SF=" ++ text ++ chars (downlink_suffix downlink_flag))
                 32 20000 in
      let r := respond (dev w) c in
      Some (is_OK (stored r.1 (uninit j 81 32)), World r.2 (calls w ++ [c]))
    else None.
Proof.
  destruct (12 <? payload_size)%nat eqn:E.
  { unfold wisol_sigfox__send_frame. by rewrite E. }
  apply Nat.ltb_ge in E. case_decide as Hp.
  - destruct payload_size as [|n]; cbn [frame_text].
    + destruct (cstr (uninit j 56 25)) as [text|] eqn:Hc;
        [|by apply send_frame_empty_undefined, cstr_None].
      pose proof (cstr_length _ _ Hc) as Hl. rewrite length_uninit in Hl.
      apply cstr_inv in Hc as [Hn Hb]. cbn [mbind option_bind].
      eapply send_frame_text; [lia | | done | lia].
      unfold payload_hex. cbn [payload_hex_loop]. by rewrite Hb at 1.
    + cbn [mbind option_bind]. apply send_frame_stored; lia.
  - unfold wisol_sigfox__send_frame. rewrite (proj2 (Nat.ltb_ge _ _)) by done.
    apply M_bind_None. unfold lift. by rewrite payload_hex_overread by lia.
Qed.

End send_frame.

Lemma send_frame_rejects_witness :
  wisol_sigfox__send_frame (fun _ => NUL) (replicate 13 x00) 13 false
    (World (Lines [chars "OK"]) []) = Some (false, World (Lines [chars "OK"]) []).
Proof. apply (send_frame_rejects (T := lines)). lia. Defined.

Lemma send_frame_exchange_witness :
  wisol_sigfox__send_frame (fun _ => "x"%char) [x01; x02; xab] 3 true
    (World (Lines [chars "OK"]) []) =
  Some (true, World (Lines []) [Call (chars "AT$SF=0102AB,1") 32 20000]).
Proof.
  refine (send_frame_exchange (T := lines) (fun _ => "x"%char) [x01; x02; xab] 3 true
    (World (Lines [chars "OK"]) []) _); simpl; lia.
Defined.

Lemma send_frame_empty_witness :
  wisol_sigfox__send_frame
    (fun i => if decide (i = 57)%nat then NUL else "Z"%char) [] 0 false
    (World (Lines [chars "OK"]) []) =
  Some (true, World (Lines []) [Call (chars "AT$SF=Z") 32 20000]).
Proof.
  refine (send_frame_empty (T := lines)
    (fun i => if decide (i = 57)%nat then NUL else "Z"%char) [] false
    (World (Lines [chars "OK"]) []) (chars "Z") _).
  reflexivity.
Defined.

