(* ===== verification/Queries.v ===== *)
(** * Identity, information and power operations

    The exchanges of [wisol_sigfox__get_id], [wisol_sigfox__get_pac],
    [wisol_sigfox__get_firmware_vcs_version],
    [wisol_sigfox__get_library_version], [wisol_sigfox__set_power_mode],
    [wisol_sigfox__get_power_level], [wisol_sigfox__set_power_level] and
    [wisol_sigfox__get_firmware_version]: what each sends, what it leaves
    in the caller's array or returns, and the answers on which it is
    undefined.  The lemmas [..._eq] give the outcome of an operation in
    every case, the undefined ones included. *)

From S2P Require Import Prelude CString Printf Commands Float32 Transport Payload Driver Exchange.

(** * Identifier and PAC *)

Section identity.
Context {T : Type} `{Transport T}.
Implicit Types (w : world T) (j : junk) (p_buf : list ascii).

(** When the caller's array has the [n_zero] characters that are
    cleared, and the size given to the transport is smaller, the operation
    always returns: one call with the line [AT$I=<index>]; the array then
    holds the answer, terminators up to position [n_zero], and what it held
    beyond. *)
Lemma get_identity_stored n_zero index sz j p_buf w :
  (Z.to_nat sz < n_zero <= length p_buf)%nat ->
  let c := Call (chars "AT$I=" ++ fmt_u index) sz WISOL_SIGFOX_DEFAULT_TIMEOUT in
  let r := respond (dev w) c in
  get_identity n_zero index sz j p_buf w =
    Some ((r.1 ++ replicate (n_zero - length r.1) NUL) ++ drop n_zero p_buf,
          World r.2 (calls w ++ [c])).
Proof.
  intros Hn c r. unfold get_identity.
  rewrite (M_bind_eq _ _ w _ w) by (by rewrite memset_Some by lia).
  rewrite (exchange_last CMD_INFORMATION _ _ _ _ _ _ w (format_information index)).
  - pose proof (respond_bound (dev w) c) as Hb. fold c r in Hb |- *. simpl in Hb.
    rewrite stored_cleared by lia. rewrite <- app_assoc.
    by replace (n_zero - length r.1)%nat with (S (n_zero - S (length r.1))) by lia.
  - apply line_u_no_NUL. nul_free.
  - pose proof (length_line_u (chars "AT$I=") index) as Hl.
    rewrite length_uninit. unfold DEFAULT_BUF_SZ. simpl in *. lia.
  - rewrite length_app, length_replicate, length_drop. lia.
Qed.

(** Without room for the characters it clears, the operation stores
    past the end of the caller's array. *)
Lemma get_identity_short n_zero index sz j p_buf w :
  (length p_buf < n_zero)%nat -> get_identity n_zero index sz j p_buf w = None.
Proof.
  intros Hn. unfold get_identity. apply M_bind_None.
  unfold lift, memset. by rewrite poke_None by len.
Qed.

(** The shared body in every case. *)
Lemma get_identity_eq n_zero index sz j p_buf w :
  (Z.to_nat sz < n_zero)%nat ->
  let c := Call (chars "AT$I=" ++ fmt_u index) sz WISOL_SIGFOX_DEFAULT_TIMEOUT in
  let r := respond (dev w) c in
  get_identity n_zero index sz j p_buf w =
    if decide (n_zero <= length p_buf)%nat
    then Some ((r.1 ++ replicate (n_zero - length r.1) NUL) ++ drop n_zero p_buf,
               World r.2 (calls w ++ [c]))
    else None.
Proof.
  intros Hn c r. case_decide.
  - by apply get_identity_stored.
  - apply get_identity_short. lia.
Qed.

(** What the caller reads back: the answer and terminators in the first
    [n_zero] positions, hence a terminated string, the text of the answer;
    the array is unchanged beyond. *)
Lemma get_identity_string n_zero index sz j p_buf w :
  (Z.to_nat sz < n_zero <= length p_buf)%nat ->
  let c := Call (chars "AT$I=" ++ fmt_u index) sz WISOL_SIGFOX_DEFAULT_TIMEOUT in
  let r := respond (dev w) c in
  exists buf, get_identity n_zero index sz j p_buf w = Some (buf, World r.2 (calls w ++ [c])) /\
    take n_zero buf = r.1 ++ replicate (n_zero - length r.1) NUL /\
    drop n_zero buf = drop n_zero p_buf /\
    cstr buf = Some (strn r.1) /\ (length (strn r.1) <= Z.to_nat sz)%nat.
Proof.
  intros Hn c r. eexists. split; [by apply get_identity_stored|]. fold c r.
  pose proof (respond_bound (dev w) c) as Hb. fold c r in Hb. simpl in Hb.
  pose proof (length_strn r.1).
  assert (Hl : length (r.1 ++ replicate (n_zero - length r.1) NUL) = n_zero)
    by len.
  split; [by rewrite take_app_length'|]. split; [by rewrite drop_app_length'|].
  split; [|lia].
  replace (n_zero - length r.1)%nat with (S (n_zero - S (length r.1))) by lia.
  cbn [replicate]. rewrite <- !app_assoc. apply cstr_strn.
Qed.

(** C23. For an array of at least 9 characters [wisol_sigfox__get_id]
    makes one call with line [AT$I=10] and size 8.  Afterwards the first 9
    positions hold the answer followed by terminators only (nothing of
    what they held before), so the array holds a terminated string of at
    most 8 characters, the text of the answer; positions from 9 on are
    untouched. *)
Theorem get_id_string j p_id_buf w :
  (9 <= length p_id_buf)%nat ->
  let c := Call (chars "AT$I=10") 8 WISOL_SIGFOX_DEFAULT_TIMEOUT in
  let r := respond (dev w) c in
  exists buf, wisol_sigfox__get_id j p_id_buf w = Some (buf, World r.2 (calls w ++ [c])) /\
    take 9 buf = r.1 ++ replicate (9 - length r.1) NUL /\
    drop 9 buf = drop 9 p_id_buf /\
    cstr buf = Some (strn r.1) /\ (length (strn r.1) <= 8)%nat.
Proof. intros Hn. apply (get_identity_string 9 10 8). simpl. lia. Qed.

(** The same for the PAC: for an array of at least 17 characters
    [wisol_sigfox__get_pac] makes one call with line [AT$I=11] and size 16.  Afterwards the first
    17 positions hold the answer followed by terminators only, so the
    array holds a terminated string of at most 16 characters, the text of
    the answer; positions from 17 on are untouched. *)
Corollary get_pac_string j p_pac_buf w :
  (17 <= length p_pac_buf)%nat ->
  let c := Call (chars "AT$I=11") 16 WISOL_SIGFOX_DEFAULT_TIMEOUT in
  let r := respond (dev w) c in
  exists buf, wisol_sigfox__get_pac j p_pac_buf w = Some (buf, World r.2 (calls w ++ [c])) /\
    take 17 buf = r.1 ++ replicate (17 - length r.1) NUL /\
    drop 17 buf = drop 17 p_pac_buf /\
    cstr buf = Some (strn r.1) /\ (length (strn r.1) <= 16)%nat.
Proof. intros Hn. apply (get_identity_string 17 11 16). simpl. lia. Qed.

(** C24. A transport that terminates every answer inside the size it is
    given can deliver only 7 of the 8 characters of an identifier, since
    [wisol_sigfox__get_id] gives it the size 8: the string the caller reads
    back has at most 7 characters. *)
Theorem get_id_terminated_short `{!Terminating T} j p_id_buf w :
  (9 <= length p_id_buf)%nat ->
  exists buf w', wisol_sigfox__get_id j p_id_buf w = Some (buf, w') /\
    exists text, cstr buf = Some text /\ (length text <= 7)%nat.
Proof.
  intros Hn.
  destruct (get_identity_string 9 10 8 j p_id_buf w) as (buf & Hg & _ & _ & Hs & _);
    [simpl; lia|].
  exists buf. eexists. split; [exact Hg|]. eexists. split; [exact Hs|].
  set (c := Call (chars "AT$I=" ++ fmt_u 10) 8 WISOL_SIGFOX_DEFAULT_TIMEOUT).
  pose proof (respond_bound (dev w) c) as Hb.
  pose proof (length_strn_lt _ (respond_terminated (dev w) c eq_refl)). simpl in Hb. lia.
Qed.

End identity.

Lemma get_id_string_witness :
  exists buf, wisol_sigfox__get_id (fun _ => "x"%char) (replicate 12 "#"%char)
      (World [chars "00A1B2C3"] []) =
    Some (buf, World [] [Call (chars "AT$I=10") 8 100]) /\
    take 9 buf = chars "00A1B2C3" ++ [NUL] /\ drop 9 buf = replicate 3 "#"%char /\
    cstr buf = Some (chars "00A1B2C3") /\ (8 <= 8)%nat.
Proof.
  refine (get_id_string (T := script) (fun _ => "x"%char) (replicate 12 "#"%char)
    (World [chars "00A1B2C3"] []) _). simpl. lia.
Defined.

Lemma get_id_terminated_short_witness :
  exists buf w', wisol_sigfox__get_id (fun _ => "x"%char) (replicate 9 "#"%char)
      (World (Lines [chars "00A1B2C3"]) []) = Some (buf, w') /\
    exists text, cstr buf = Some text /\ (length text <= 7)%nat.
Proof.
  refine (get_id_terminated_short (T := lines) (fun _ => "x"%char) (replicate 9 "#"%char)
    (World (Lines [chars "00A1B2C3"]) []) _). simpl. lia.
Defined.

(** * Version strings *)

Section information.
Context {T : Type} `{Transport T}.
Implicit Types (w : world T) (j : junk) (p_buf : list ascii).

(** The version queries in every case: one call with line
    [AT$I=<index>] and the size converted to [int]; the answer is stored at
    the start of the caller's array when it fits, and past its end when it
    does not. *)
Lemma get_information_eq index j p_buf sz_buf w :
  let c := Call (chars "AT$I=" ++ fmt_u index) (to_int (Z.of_nat sz_buf))
             WISOL_SIGFOX_DEFAULT_TIMEOUT in
  let r := respond (dev w) c in
  get_information index j p_buf sz_buf w =
    if bool_decide (length r.1 <= length p_buf)%nat
    then Some (stored r.1 p_buf, World r.2 (calls w ++ [c])) else None.
Proof.
  intros c r. unfold get_information.
  apply (exchange_eq CMD_INFORMATION _ _ _ _ _ _ w (format_information index)).
  - apply line_u_no_NUL. nul_free.
  - pose proof (length_line_u (chars "AT$I=") index) as Hl.
    rewrite length_uninit. unfold DEFAULT_BUF_SZ. simpl in *. lia.
Qed.

(** When the size passed on, converted to [int], does not exceed the
    caller's array, the version queries always return: one call with line
    [AT$I=<index>] and that size, and the answer stored at the start of the
    array, which is otherwise unchanged. *)
Lemma get_information_stored index j p_buf sz_buf w :
  (Z.to_nat (to_int (Z.of_nat sz_buf)) <= length p_buf)%nat ->
  let c := Call (chars "AT$I=" ++ fmt_u index) (to_int (Z.of_nat sz_buf))
             WISOL_SIGFOX_DEFAULT_TIMEOUT in
  let r := respond (dev w) c in
  get_information index j p_buf sz_buf w =
    Some (stored r.1 p_buf, World r.2 (calls w ++ [c])).
Proof.
  intros Hn c r. rewrite get_information_eq. fold c r.
  pose proof (respond_bound (dev w) c) as Hb. fold r in Hb. simpl in Hb.
  by rewrite bool_decide_true by lia.
Qed.

(** C38. Nothing terminates the text of the version queries if the
    transport does not: when the size given is the size of the caller's
    array and the answer fills it without a terminator, the operation
    makes its one call, with line [AT$I=<index>], and leaves an array
    that holds no string. *)
Theorem get_information_unterminated index j p_buf w :
  let c := Call (chars "AT$I=" ++ fmt_u index) (Z.of_nat (length p_buf))
             WISOL_SIGFOX_DEFAULT_TIMEOUT in
  let r := respond (dev w) c in
  Z.of_nat (length p_buf) < 2 ^ 31 -> length r.1 = length p_buf -> NUL ∉ r.1 ->
  get_information index j p_buf (length p_buf) w = Some (r.1, World r.2 (calls w ++ [c])) /\
  cstr r.1 = None.
Proof.
  intros c r Hsz Hl Hnul. split; [|by apply cstr_None].
  rewrite get_information_stored; rewrite to_int_small by lia; [|lia].
  fold c r. unfold stored. by rewrite drop_ge, app_nil_r by lia.
Qed.

(** C39. Sizes beyond [INT_MAX].  The version queries take their size as
    a [size_t] and hand it to [wisol_sigfox__serial_sync], whose
    parameter is an [int]: a size from 2^31 up to 2^32 - 1 reaches the
    transport as the negative number [sz_buf - 2^32].  The call is made
    all the same, no character can be stored within such a size, and the
    caller's array is returned as it was. *)
Theorem get_information_size_wraps index j p_buf sz_buf w :
  let c := Call (chars "AT$I=" ++ fmt_u index) (Z.of_nat sz_buf - 2 ^ 32)
             WISOL_SIGFOX_DEFAULT_TIMEOUT in
  2 ^ 31 <= Z.of_nat sz_buf < 2 ^ 32 ->
  get_information index j p_buf sz_buf w =
    Some (p_buf, World (respond (dev w) c).2 (calls w ++ [c])).
Proof.
  intros c Hsz. rewrite get_information_eq, to_int_wrap by done.
  fold c. pose proof (respond_bound (dev w) c) as Hb. cbn [call_size c] in Hb.
  destruct (respond (dev w) c) as [[|a l] t]; [done|]. simpl in Hb. lia.
Qed.

End information.

Lemma get_information_unterminated_witness :
  wisol_sigfox__get_library_version (fun _ => "x"%char) (replicate 5 "#"%char) 5
    (World [chars "1.2.3"] []) =
    Some (chars "1.2.3", World [] [Call (chars "AT$I=9") 5 100]) /\
  cstr (chars "1.2.3") = None.
Proof.
  refine (get_information_unterminated (T := script) 9 (fun _ => "x"%char)
    (replicate 5 "#"%char) (World [chars "1.2.3"] []) _ _ _);
    [reflexivity | reflexivity | nul_free].
Defined.

Lemma get_information_size_wraps_witness :
  let n := Z.to_nat (2 ^ 31) in
  let w : world script := World [chars "1.2.3"] [] in
  let c := Call (chars "AT$I=" ++ fmt_u 9) (Z.of_nat n - 2 ^ 32)
             WISOL_SIGFOX_DEFAULT_TIMEOUT in
  get_information 9 (fun _ => "x"%char) (replicate 5 "#"%char) n w =
    Some (replicate 5 "#"%char, World (respond (dev w) c).2 (calls w ++ [c])).
Proof. intros n w c. apply get_information_size_wraps. unfold n. lia. Defined.

(** * Power mode and power level *)

Section power.
Context {T : Type} `{Transport T}.
Implicit Types (w : world T) (j : junk).

(** The line of each power mode. *)
Definition power_mode_line (mode : wisol_sigfox_power_mode_t) : string :=
  match mode with
  | WISOL_SIGFOX__POWER_MODE_RESET => "AT$P=0"
  | WISOL_SIGFOX__POWER_MODE_SLEEP => "AT$P=1"
  | WISOL_SIGFOX__POWER_MODE_DEEPSLEEP => "AT$P=2"
  end.

(** [wisol_sigfox__set_power_mode] always returns: one call with
    the line [AT$P=] and the value of the mode, size 32 and timeout 100;
    the answer is dropped. *)
Lemma set_power_mode_stored j mode w :
  let c := Call (chars (power_mode_line mode)) 32 WISOL_SIGFOX_DEFAULT_TIMEOUT in
  wisol_sigfox__set_power_mode j mode w =
    Some (tt, World (respond (dev w) c).2 (calls w ++ [c])).
Proof.
  intros c. unfold wisol_sigfox__set_power_mode. rewrite sizeof_uninit by done.
  rewrite (exchange CMD_SET_POWER_MODE _ _ _ _ _ _ _ w (format_set_power_mode _)).
  - by destruct mode.
  - apply line_u_no_NUL. nul_free.
  - pose proof (length_line_u (chars "AT$P=") (to_uint8 (power_mode_value mode))) as Hl.
    rewrite length_uninit. unfold DEFAULT_BUF_SZ. simpl in *. lia.
  - by rewrite length_uninit, Nat2Z.id.
Qed.

Lemma memset_uninit j off n :
  memset (uninit j off n) 0 (length (uninit j off n)) = Some (replicate n NUL).
Proof.
  rewrite length_uninit. rewrite memset_Some by (by rewrite length_uninit).
  rewrite drop_ge by (by rewrite length_uninit). by rewrite app_nil_r.
Qed.

(** [wisol_sigfox__set_power_level] always returns: one call with
    the line [ATS302=] and the level, reduced to 8 bits, in decimal; the
    answer is dropped. *)
Lemma set_power_level_stored j power_level w :
  let c := Call (chars "ATS302=" ++ fmt_u (to_uint8 power_level)) 32
             WISOL_SIGFOX_DEFAULT_TIMEOUT in
  wisol_sigfox__set_power_level j power_level w =
    Some (tt, World (respond (dev w) c).2 (calls w ++ [c])).
Proof.
  intros c. unfold wisol_sigfox__set_power_level.
  rewrite (M_bind_eq _ _ w _ w) by (by rewrite memset_uninit).
  rewrite (M_bind_eq _ _ w _ w) by (by rewrite memset_uninit).
  pose proof (length_fmt_u (to_uint8 power_level)) as Hl.
  rewrite (M_bind_eq _ _ w _ w)
    by (by rewrite snprintf_u by len).
  cbv beta iota. rewrite sizeof_cleared by done.
  rewrite (exchange CMD_SET_REGISTER _ _ _ _ _ _ _ w
    (format_set_register 302 _ _ (fmt_u_no_NUL _))).
  - done.
  - change (chars "ATS" ++ fmt_u 302 ++ chars "=" ++ fmt_u (to_uint8 power_level))
      with (chars "ATS302=" ++ fmt_u (to_uint8 power_level)).
    apply line_u_no_NUL. nul_free.
  - rewrite length_uninit. unfold DEFAULT_BUF_SZ.
    rewrite !length_app. change (length (fmt_u 302)) with 3%nat. simpl. lia.
  - by rewrite length_replicate, Nat2Z.id.
Qed.

(** [wisol_sigfox__get_power_level] makes one call with line [ATS302?],
    size 32 and timeout 100, into a cleared array, and returns what [atoi]
    reads there reduced to 8 bits; it is undefined exactly when [atoi]
    is. *)
Lemma get_power_level_atoi j w :
  let c := Call (chars "ATS302?") 32 WISOL_SIGFOX_DEFAULT_TIMEOUT in
  let r := respond (dev w) c in
  wisol_sigfox__get_power_level j w =
    (v ← atoi (stored r.1 (replicate 32 NUL));
     Some (to_uint8 v, World r.2 (calls w ++ [c]))).
Proof.
  intros c r. unfold wisol_sigfox__get_power_level.
  rewrite (M_bind_eq _ _ w _ w) by (by rewrite memset_uninit).
  rewrite sizeof_cleared by done.
  rewrite (exchange CMD_GET_REGISTER _ _ _ _ _ _ _ w (format_get_register 302)).
  - change (Call (chars "ATS" ++ fmt_u 302 ++ chars "?") _ _) with c. fold r.
    unfold lift, mbind, M_bind. by destruct (atoi _).
  - nul_free.
  - rewrite length_uninit. vm_compute. lia.
  - by rewrite length_replicate, Nat2Z.id.
Qed.

(** C31. When the module answers with the decimal text of a number [n]
    that an [int] holds, terminated or shorter than the array, the
    operation makes one call with line [ATS302?], size 32 and timeout 100
    and returns [n] reduced to 8 bits: the level itself when it is below
    256, and for instance 44 for the answer 300. *)
Theorem get_power_level_decimal j w n :
  let c := Call (chars "ATS302?") 32 WISOL_SIGFOX_DEFAULT_TIMEOUT in
  let r := respond (dev w) c in
  0 <= n <= INT_MAX ->
  (exists rest, r.1 = fmt_u n ++ NUL :: rest) \/ r.1 = fmt_u n ->
  wisol_sigfox__get_power_level j w = Some (n mod 256, World r.2 (calls w ++ [c])).
Proof.
  intros c r Hn Hr. rewrite get_power_level_atoi. fold c r.
  assert (Ha : atoi (stored r.1 (replicate 32 NUL)) = Some n); [|by rewrite Ha].
  pose proof (length_fmt_u n) as Hl. unfold stored.
  destruct Hr as [[rest ->]| ->].
  - rewrite <- app_assoc. cbn [app]. by rewrite atoi_fmt_u.
  - rewrite drop_replicate.
    replace (32 - length (fmt_u n))%nat with (S (31 - length (fmt_u n))) by lia.
    cbn [replicate]. by rewrite atoi_fmt_u.
Qed.

(** C32. When the answer fills the response array with digits, [atoi]
    reads past the end of the array: the behaviour is undefined. *)
Theorem get_power_level_undefined j w :
  let r := respond (dev w) (Call (chars "ATS302?") 32 WISOL_SIGFOX_DEFAULT_TIMEOUT) in
  length r.1 = 32%nat -> Forall (fun d => isdigit d = true) r.1 ->
  wisol_sigfox__get_power_level j w = None.
Proof.
  intros r Hl Hds. rewrite get_power_level_atoi. fold r. unfold stored.
  rewrite drop_ge by len. rewrite app_nil_r.
  by rewrite atoi_unterminated.
Qed.

End power.

Lemma get_power_level_decimal_witness :
  wisol_sigfox__get_power_level (fun _ => "x"%char) (World (Lines [chars "300"]) []) =
    Some (44, World (Lines []) [Call (chars "ATS302?") 32 100]).
Proof.
  refine (get_power_level_decimal (T := lines) (fun _ => "x"%char)
    (World (Lines [chars "300"]) []) 300 _ _);
    [unfold INT_MAX; lia | left; by exists []].
Defined.

Lemma get_power_level_undefined_witness :
  wisol_sigfox__get_power_level (fun _ => "x"%char)
    (World [replicate 32 "1"%char] []) = None.
Proof.
  refine (get_power_level_undefined (T := script) (fun _ => "x"%char)
    (World [replicate 32 "1"%char] []) _ _); [reflexivity | by repeat constructor].
Defined.

(** * Firmware version *)

Section firmware.
Context {T : Type} `{Transport T}.
Implicit Types (w : world T) (j : junk) (p_buf : list ascii).

Lemma vformat_version (b1 b2 s1 s2 : list ascii) :
  cstr b1 = Some s1 -> cstr b2 = Some s2 ->
  vformat (chars "%s.%s") [ArgStr b1; ArgStr b2] = Some (s1 ++ chars "." ++ s2).
Proof.
  intros H1 H2. unfold vformat.
  change (parse_fmt (chars "%s.%s")) with (Some [DStr; DLit "."%char; DStr]).
  cbn [mbind option_bind format]. rewrite H1, H2. cbn. by rewrite app_nil_r.
Qed.

Lemma length_line_stored (out buf : list ascii) :
  (length out < length buf)%nat ->
  length (out ++ NUL :: drop (S (length out)) buf) = length buf.
Proof. intros Hl. rewrite length_app. cbn [length]. rewrite length_drop. lia. Qed.

(** One information query from an array of the default size. *)
Lemma send_information {A} index buf buf_res sz
    (k : list ascii -> list ascii -> M T A) w :
  length buf = DEFAULT_BUF_SZ -> (Z.to_nat sz <= length buf_res)%nat ->
  let out := chars "AT$I=" ++ fmt_u index in
  let cl := Call out sz WISOL_SIGFOX_DEFAULT_TIMEOUT in
  let r := respond (dev w) cl in
  ('(buf', _) ← lift (snprintf buf (length buf) (lit "AT$I=%u") [ArgUInt index]);
   buf_res' ← wisol_sigfox__serial_sync buf' buf_res sz WISOL_SIGFOX_DEFAULT_TIMEOUT;
   k buf' buf_res') w
  = k (out ++ NUL :: drop (S (length out)) buf) (stored r.1 buf_res)
      (World r.2 (calls w ++ [cl])).
Proof.
  intros Hb Hsz out cl r.
  apply (send_line_buf (lit "AT$I=%u") (chars "AT$I=%u") _ _ _ _ _ _ _ k w
    eq_refl eq_refl (format_information index)); [|  |done].
  - apply line_u_no_NUL. nul_free.
  - pose proof (length_line_u (chars "AT$I=") index) as Hl.
    rewrite Hb. unfold DEFAULT_BUF_SZ. simpl in *. lia.
Qed.

(** The two queries of [wisol_sigfox__get_firmware_version], up to the
    final formatting. *)
Lemma firmware_queries j p_buf sz_buf w :
  let c1 := Call (chars "AT$I=4") 32 WISOL_SIGFOX_DEFAULT_TIMEOUT in
  let r1 := respond (dev w) c1 in
  let c2 := Call (chars "AT$I=5") 32 WISOL_SIGFOX_DEFAULT_TIMEOUT in
  let r2 := respond r1.2 c2 in
  wisol_sigfox__get_firmware_version j p_buf sz_buf w =
    ('(p_buf, _) ← lift (snprintf p_buf sz_buf (lit "%s.%s")
        [ArgStr (stored r1.1 (uninit j 32 DEFAULT_BUF_SZ));
         ArgStr (stored r2.1 (uninit j 64 DEFAULT_BUF_SZ))]);
     mret p_buf) (World r2.2 (calls w ++ [c1; c2])).
Proof.
  intros c1 r1 c2 r2. unfold wisol_sigfox__get_firmware_version.
  rewrite (M_bind_eq _ _ w (lit "AT$I=%u") w) by done.
  cbv beta. rewrite !sizeof_uninit by done.
  rewrite send_information by (by rewrite length_uninit).
  rewrite send_information; [|rewrite length_line_stored|]; rewrite ?length_uninit;
    [|done|vm_compute; lia|done].
  cbn [dev calls]. by rewrite <- app_assoc.
Qed.

(** The final formatting in every case, once both response arrays hold
    strings: nothing for the size 0, the text cut at [sz_buf - 1] when it
    fits the caller's array with its terminator. *)
Lemma firmware_format_eq (b1 b2 s1 s2 : list ascii) p_buf sz_buf w :
  cstr b1 = Some s1 -> cstr b2 = Some s2 ->
  ('(p_buf, _) ← lift (snprintf p_buf sz_buf (lit "%s.%s") [ArgStr b1; ArgStr b2]);
   mret p_buf) w
  = match sz_buf with
    | O => Some (p_buf, w)
    | S n =>
        let text := take n (s1 ++ chars "." ++ s2) in
        if decide (length text < length p_buf)%nat
        then Some (text ++ NUL :: drop (S (length text)) p_buf, w) else None
    end.
Proof.
  intros Hs1 Hs2. unfold mbind, M_bind, lift.
  rewrite (snprintf_eq _ _ (lit "%s.%s") (chars "%s.%s") _ _ eq_refl
             (vformat_version _ _ _ _ Hs1 Hs2)).
  destruct sz_buf as [|n]; [done|]. cbv zeta. by case_decide.
Qed.

(** The final formatting, once both response arrays hold strings. *)
Lemma firmware_format (b1 b2 s1 s2 : list ascii) p_buf n w :
  cstr b1 = Some s1 -> cstr b2 = Some s2 -> (S n <= length p_buf)%nat ->
  let text := take n (s1 ++ chars "." ++ s2) in
  ('(p_buf, _) ← lift (snprintf p_buf (S n) (lit "%s.%s") [ArgStr b1; ArgStr b2]);
   mret p_buf) w
  = Some (text ++ NUL :: drop (S (length text)) p_buf, w).
Proof.
  intros Hs1 Hs2 Hn text.
  apply bind_lift_Some with (a := (text ++ NUL :: drop (S (length text)) p_buf,
                                   Z.of_nat (length (s1 ++ chars "." ++ s2)))).
  apply (snprintf_Some _ _ (lit "%s.%s") (chars "%s.%s") _ _ eq_refl
           (vformat_version _ _ _ _ Hs1 Hs2)).
  fold text. unfold text. rewrite length_take. lia.
Qed.

(** The text of the firmware version: the answers to the two queries,
    joined by a dot. *)
Definition firmware_text (w : world T) : list ascii :=
  let r1 := respond (dev w) (Call (chars "AT$I=4") 32 WISOL_SIGFOX_DEFAULT_TIMEOUT) in
  let r2 := respond r1.2 (Call (chars "AT$I=5") 32 WISOL_SIGFOX_DEFAULT_TIMEOUT) in
  strn r1.1 ++ chars "." ++ strn r2.1.

(** The firmware version with terminated answers, in every case. *)
Lemma get_firmware_version_eq `{!Terminating T} j p n w :
  let c1 := Call (chars "AT$I=4") 32 WISOL_SIGFOX_DEFAULT_TIMEOUT in
  let r1 := respond (dev w) c1 in
  let c2 := Call (chars "AT$I=5") 32 WISOL_SIGFOX_DEFAULT_TIMEOUT in
  let r2 := respond r1.2 c2 in
  wisol_sigfox__get_firmware_version j p n w =
    match n with
    | O => Some (p, World r2.2 (calls w ++ [c1; c2]))
    | S m =>
        let text := take m (firmware_text w) in
        if decide (length text < length p)%nat
        then Some (text ++ NUL :: drop (S (length text)) p, World r2.2 (calls w ++ [c1; c2]))
        else None
    end.
Proof.
  intros c1 r1 c2 r2. rewrite firmware_queries.
  by rewrite (firmware_format_eq _ _ (strn r1.1) (strn r2.1))
    by (by apply cstr_stored_terminated).
Qed.

(** C35. When both answers are terminated strings [s1] and [s2] (in the
    response arrays, over what the stack held), and the size given is
    positive and within the caller's array, the operation makes two calls,
    [AT$I=4] then [AT$I=5], and leaves [s1.s2] cut to [sz_buf - 1]
    characters and terminated in the caller's array. *)
Theorem get_firmware_version_exchange j p_buf n w s1 s2 :
  let c1 := Call (chars "AT$I=4") 32 WISOL_SIGFOX_DEFAULT_TIMEOUT in
  let r1 := respond (dev w) c1 in
  let c2 := Call (chars "AT$I=5") 32 WISOL_SIGFOX_DEFAULT_TIMEOUT in
  let r2 := respond r1.2 c2 in
  let text := take n (s1 ++ chars "." ++ s2) in
  cstr (stored r1.1 (uninit j 32 32)) = Some s1 ->
  cstr (stored r2.1 (uninit j 64 32)) = Some s2 ->
  (S n <= length p_buf)%nat ->
  wisol_sigfox__get_firmware_version j p_buf (S n) w =
    Some (text ++ NUL :: drop (S (length text)) p_buf,
          World r2.2 (calls w ++ [c1; c2])).
Proof.
  intros c1 r1 c2 r2 text Hs1 Hs2 Hn. rewrite firmware_queries.
  by apply firmware_format.
Qed.

(** C36. When the first answer fills its array and holds no terminator,
    formatting the version reads past the end of the array. *)
Theorem get_firmware_version_unterminated j p_buf sz_buf w :
  let r1 := respond (dev w) (Call (chars "AT$I=4") 32 WISOL_SIGFOX_DEFAULT_TIMEOUT) in
  length r1.1 = 32%nat -> NUL ∉ r1.1 ->
  wisol_sigfox__get_firmware_version j p_buf sz_buf w = None.
Proof.
  intros r1 Hl Hnul. rewrite firmware_queries. fold r1.
  apply M_bind_None. unfold lift, snprintf.
  change (cstr (lit "%s.%s")) with (Some (chars "%s.%s")). cbn [mbind option_bind].
  unfold vformat.
  change (parse_fmt (chars "%s.%s")) with (Some [DStr; DLit "."%char; DStr]).
  cbn [mbind option_bind format].
  replace (cstr (stored r1.1 (uninit j 32 DEFAULT_BUF_SZ))) with (@None (list ascii)); [done|].
  symmetry. apply cstr_None. unfold stored.
  rewrite drop_ge by len.
  by rewrite app_nil_r.
Qed.

End firmware.

Lemma get_firmware_version_exchange_witness :
  wisol_sigfox__get_firmware_version (fun _ => "x"%char) (replicate 8 "#"%char) 8
    (World (Lines [chars "1"; chars "23"]) []) =
  Some (chars "1.23" ++ NUL :: replicate 3 "#"%char,
        World (Lines []) [Call (chars "AT$I=4") 32 100; Call (chars "AT$I=5") 32 100]).
Proof.
  refine (get_firmware_version_exchange (T := lines) (fun _ => "x"%char)
    (replicate 8 "#"%char) 7 (World (Lines [chars "1"; chars "23"]) [])
    (chars "1") (chars "23") _ _ _); [reflexivity | reflexivity | simpl; lia].
Defined.

Lemma get_firmware_version_unterminated_witness :
  wisol_sigfox__get_firmware_version (fun _ => "x"%char) (replicate 8 "#"%char) 8
    (World [replicate 32 "7"%char; chars "23"] []) = None.
Proof.
  refine (get_firmware_version_unterminated (T := script) (fun _ => "x"%char)
    (replicate 8 "#"%char) 8 (World [replicate 32 "7"%char; chars "23"] []) _ _);
    [reflexivity | by apply (bool_decide_unpack _)].
Defined.
