(* ===== verification/Frequency.v ===== *)
(** * Frequencies

    [wisol_sigfox__freq_str_to_fl] cuts the answer at fixed offsets with
    [strncpy], reads both fields with [atoi] and combines them in single
    precision.  This file shows that it is defined on every answer array,
    what it computes on the nine-digit answers of the module and how far
    the [float] is from the frequency the digits denote, whether the C
    implementation evaluates the arithmetic in [float] or in a wider
    format, and that on shorter answers it reads the characters that
    follow the terminator. *)

From Stdlib Require Import SpecFloat QArith Qabs Lqa.
From S2P Require Import Prelude CString Printf Commands Float32 Rounding.
From S2P Require Import Transport Payload Driver Exchange.

Section fields.
Implicit Types (j : junk) (buf ds rest : list ascii).

(** The array [b] of [n + 1] characters after [memset(b, 0, sizeof b)] and
    [strncpy(b, src, n)]: the characters copied, then a terminator. *)
Lemma field_copy j off n src bytes :
  strncpy_src src n = Some bytes ->
  (memset (uninit j off (S n)) 0 (length (uninit j off (S n))) ≫= fun b => strncpy b src n)
    = Some (bytes ++ [NUL]).
Proof.
  intros Hb. rewrite length_uninit.
  rewrite memset_Some by (by rewrite length_uninit).
  rewrite drop_ge by (by rewrite length_uninit). rewrite app_nil_r.
  cbn [mbind option_bind]. change (chr 0) with NUL.
  rewrite (strncpy_Some _ _ _ _ Hb) by len.
  rewrite drop_replicate. by replace (S n - n)%nat with 1%nat by lia.
Qed.

(** How the function computes, once the two copies are known. *)
Lemma freq_str_to_fl_fields j buf x1 x2 :
  strncpy_src buf 3 = Some x1 -> strncpy_src (drop 3 buf) 6 = Some x2 ->
  wisol_sigfox__freq_str_to_fl j buf =
    (i1 ← atoi (x1 ++ [NUL]); i2 ← atoi (x2 ++ [NUL]); Some (freq_of_ints i1 i2)).
Proof.
  intros H1 H2. unfold wisol_sigfox__freq_str_to_fl.
  pose proof (field_copy j 0 3 buf x1 H1) as E1.
  pose proof (field_copy j 4 6 (drop 3 buf) x2 H2) as E2.
  destruct (memset (uninit j 0 4) 0 (length (uninit j 0 4))) as [b1|]; [|done].
  cbn [mbind option_bind] in E1 |- *. rewrite E1. cbn [mbind option_bind].
  destruct (memset (uninit j 4 7) 0 (length (uninit j 4 7))) as [b2|]; [|done].
  cbn [mbind option_bind] in E2 |- *. rewrite E2. done.
Qed.

(** On an array of at least nine characters both fields are copied, and
    [atoi] is defined on each copy: it ends with a terminator, and three
    or six digits cannot overflow an [int]. *)
Lemma freq_fields_read buf :
  (9 <= length buf)%nat ->
  exists x1 x2 i1 i2,
    strncpy_src buf 3 = Some x1 /\ strncpy_src (drop 3 buf) 6 = Some x2 /\
    atoi (x1 ++ [NUL]) = Some i1 /\ atoi (x2 ++ [NUL]) = Some i2.
Proof.
  intros Hb.
  destruct (strncpy_src_total buf 3) as [x1 H1]; [lia|].
  destruct (strncpy_src_total (drop 3 buf) 6) as [x2 H2]; [len|].
  pose proof (strncpy_src_length _ _ _ H1). pose proof (strncpy_src_length _ _ _ H2).
  assert (Ha : forall x, (length x <= 6)%nat -> is_Some (atoi (x ++ [NUL]))).
  { intros x Hx. apply atoi_total; [|len].
    apply elem_of_app; right. by apply list_elem_of_singleton. }
  destruct (Ha x1) as [i1 Hi1]; [lia|]. destruct (Ha x2) as [i2 Hi2]; [lia|].
  by exists x1, x2, i1, i2.
Qed.

(** C27. [wisol_sigfox__freq_str_to_fl] is defined on every array of at
    least nine characters, terminated or not, whatever its characters are
    and whatever the stack held: the result is the combination of two
    integers, the values [atoi] reads in the copies of the two fields. *)
Theorem freq_str_to_fl_total j buf :
  (9 <= length buf)%nat ->
  exists i1 i2, wisol_sigfox__freq_str_to_fl j buf = Some (freq_of_ints i1 i2).
Proof.
  intros (x1 & x2 & i1 & i2 & H1 & H2 & Hi1 & Hi2)%freq_fields_read.
  exists i1, i2. by rewrite (freq_str_to_fl_fields j buf x1 x2 H1 H2), Hi1, Hi2.
Qed.

Lemma atoi_field ds :
  Forall (fun d => isdigit d = true) ds -> (length ds <= 9)%nat ->
  atoi (ds ++ [NUL]) = Some (dec_value ds).
Proof.
  intros Hds Hl. apply atoi_digits; try done.
  pose proof (dec_value_bound ds Hds) as Hb.
  assert (10 ^ Z.of_nat (length ds) <= 10 ^ 9) by (apply Z.pow_le_mono_r; lia).
  unfold INT_MAX. lia.
Qed.

Lemma digits_no_NUL ds : Forall (fun d => isdigit d = true) ds -> NUL ∉ ds.
Proof. intros Hds Hin. rewrite Forall_forall in Hds. by apply Hds in Hin. Qed.

(** On an answer that starts with nine decimal digits the two integers
    are the numbers the first three and the last six digits denote. *)
Lemma freq_str_to_fl_nine j ds rest :
  length ds = 9%nat -> Forall (fun d => isdigit d = true) ds ->
  wisol_sigfox__freq_str_to_fl j (ds ++ rest) =
    Some (freq_of_ints (dec_value (take 3 ds)) (dec_value (drop 3 ds))).
Proof.
  intros Hl Hds.
  assert (H3 : Forall (fun d => isdigit d = true) (take 3 ds)) by (by apply Forall_take).
  assert (H6 : Forall (fun d => isdigit d = true) (drop 3 ds)) by (by apply Forall_drop).
  rewrite (freq_str_to_fl_fields j _ (take 3 ds) (drop 3 ds)).
  - by rewrite !atoi_field by (done || len).
  - rewrite strncpy_src_take; rewrite ?take_app_le by lia;
      [done | len | by apply digits_no_NUL].
  - rewrite drop_app_le by lia.
    rewrite strncpy_src_take; rewrite ?take_app_length' by len;
      [done | len | by apply digits_no_NUL].
Qed.

(** C26. On an answer that starts with nine decimal digits, the result
    is [(float)(n / 1000000) + (float)(n % 1000000) / 1000000.0f] for the
    number [n] the digits denote; what follows the digits is ignored, and
    so is the stack. *)
Theorem freq_str_to_fl_digits j ds rest :
  length ds = 9%nat -> Forall (fun d => isdigit d = true) ds ->
  wisol_sigfox__freq_str_to_fl j (ds ++ rest) =
    Some (freq_of_ints (dec_value ds / 1000000) (dec_value ds mod 1000000)).
Proof.
  intros Hl Hds. rewrite freq_str_to_fl_nine by done.
  pose proof (dec_value_bound _ (Forall_drop _ 3 _ Hds)) as Hb.
  rewrite length_drop, Hl in Hb. change (10 ^ Z.of_nat (9 - 3)) with 1000000 in Hb.
  assert (Hs : dec_value ds = dec_value (take 3 ds) * 1000000 + dec_value (drop 3 ds)).
  { rewrite <- (take_drop 3%nat ds) at 1. by rewrite dec_value_app, length_drop, Hl. }
  rewrite Hs. do 2 f_equal.
  - apply Z.div_unique with (dec_value (drop 3 ds)); lia.
  - apply Z.mod_unique with (dec_value (take 3 ds)); lia.
Qed.

(** C28. When the answer has only two characters before its terminator,
    the second field is read from the six characters that follow the
    terminator: whatever the array held there before the answer. *)
Theorem freq_str_to_fl_stale j (a b : ascii) ds rest :
  a <> NUL -> b <> NUL -> length ds = 6%nat -> Forall (fun d => isdigit d = true) ds ->
  exists i1, atoi [a; b; NUL; NUL] = Some i1 /\
    wisol_sigfox__freq_str_to_fl j ([a; b; NUL] ++ ds ++ rest) =
      Some (freq_of_ints i1 (dec_value ds)).
Proof.
  intros Ha Hb Hl Hds.
  destruct (atoi_total [a; b; NUL; NUL]) as [i1 Hi1];
    [rewrite !elem_of_cons; auto | simpl; lia |].
  exists i1. split; [done|].
  rewrite (freq_str_to_fl_fields j _ [a; b; NUL] ds).
  - change ([a; b; NUL] ++ [NUL]) with [a; b; NUL; NUL]. rewrite Hi1.
    cbn [mbind option_bind]. by rewrite atoi_field by (done || lia).
  - cbn [app strncpy_src]. rewrite !decide_False by done.
    rewrite decide_True by done. reflexivity.
  - cbn [app drop]. rewrite drop_0.
    rewrite strncpy_src_take; rewrite ?take_app_length' by lia;
      [done | len | by apply digits_no_NUL].
Qed.

End fields.

Lemma freq_str_to_fl_total_witness :
  exists i1 i2, wisol_sigfox__freq_str_to_fl (fun _ => "x"%char) (chars "ERROR: ???") =
    Some (freq_of_ints i1 i2).
Proof.
  refine (freq_str_to_fl_total (fun _ => "x"%char) (chars "ERROR: ???") _). simpl. lia.
Defined.

Lemma freq_str_to_fl_digits_witness :
  wisol_sigfox__freq_str_to_fl (fun _ => "x"%char) (chars "868130000" ++ [NUL]) =
    Some (freq_of_ints 868 130000).
Proof.
  refine (freq_str_to_fl_digits (fun _ => "x"%char) (chars "868130000") [NUL] _ _);
    [reflexivity | by repeat constructor].
Defined.

Lemma freq_str_to_fl_stale_witness :
  exists i1, atoi (chars "OK" ++ [NUL; NUL]) = Some i1 /\
    wisol_sigfox__freq_str_to_fl (fun _ => "x"%char)
      (chars "OK" ++ [NUL] ++ chars "123456" ++ [NUL]) = Some (freq_of_ints i1 123456).
Proof.
  refine (freq_str_to_fl_stale (fun _ => "x"%char) "O"%char "K"%char (chars "123456") [NUL]
    _ _ _ _); [done | done | reflexivity | by repeat constructor].
Defined.

(** * Accuracy *)

Section accuracy.
Local Open Scope Q_scope.

(** Line 115 when the implementation of C evaluates the operations in a
    wider format ([FLT_EVAL_METHOD] 1 or 2: [double], [long double]) and
    converts the result to [float] on return: the operands are the
    [float] values of the two integers and of the constant. *)
Definition freq_of_ints_in (prec emax : Z) (i1 i2 : Z) : float :=
  f32_narrow (SFadd prec emax (f32_of_int i1)
                (SFdiv prec emax (f32_of_int i2) (f32_of_int 1000000))).

(** The quotient and the sum of line 115 in a format of [prec] digits,
    for megahertz below 1000 and millionths below [10^6]: one rounding of
    the quotient, below one, and one of the sum, below 1024. *)
Lemma freq_sum_near prec emax i1 i2 :
  (24 <= prec < emax)%Z -> (0 <= i1 < 1000)%Z -> (0 <= i2 < 1000000)%Z ->
  let err := half_ulp prec emax 10 + half_ulp prec emax 0 in
  exists q, nonneg (SFadd prec emax (f32_of_int i1)
                      (SFdiv prec emax (f32_of_int i2) (f32_of_int 1000000))) q /\
    q - err <= inject_Z i1 + (i2 # 1000000) /\ inject_Z i1 + (i2 # 1000000) <= q + err /\
    0 <= err <= 1.
Proof.
  intros [Hp He] H1 H2 err. assert (0 < prec)%Z as Hp0 by lia.
  assert (0 <= i2 # 1000000 /\ i2 # 1000000 < 1) as [Hx0 Hx1]
    by (unfold Qle, Qlt; simpl; lia).
  assert (0 <= inject_Z i1 <= 999) as [Hi0 Hi1]
    by (change 0 with (inject_Z 0); change 999 with (inject_Z 999); rewrite <- !Zle_Qle; lia).
  assert (0 < half_ulp prec emax 0 <= 1 # 2 /\ 0 < half_ulp prec emax 10 <= 1 # 2)
    as [[Hh0 Hh0'] [Hh1 Hh1']].
  { unfold half_ulp. pose proof (pow2_pos (fexp prec emax 0)).
    pose proof (pow2_pos (fexp prec emax 10)).
    pose proof (pow2_le (fexp prec emax 0) 0 ltac:(unfold fexp, emin; lia)).
    pose proof (pow2_le (fexp prec emax 10) 0 ltac:(unfold fexp, emin; lia)).
    change (pow2 0) with 1 in *. lra. }
  destruct (SFdiv_nonneg prec emax Hp0 He (i2 # 1000000) (f32_of_int i2) (inject_Z i2)
              16000000 (-4)) as (q2 & Hn2 & Hlo2 & Hhi2); [| |done|].
  { apply f32_of_int_nonneg. lia. }
  { change (pow2 (-4)) with (1 # 16). unfold Qeq. simpl. lia. }
  change (S754_finite false 16000000 (-4)) with (f32_of_int 1000000) in Hn2.
  destruct (SFadd_nonneg prec emax Hp0 He (f32_of_int i1) _ (inject_Z i1) q2 10
              (f32_of_int_nonneg i1 ltac:(lia)) Hn2) as (q & Hn & Hlo & Hhi); [|lia|].
  { change (pow2 10) with 1024. lra. }
  exists q. split; [done|]. unfold err. lra.
Qed.

(** The sum of line 115 in [float]. *)
Lemma freq_of_ints_near i1 i2 :
  (0 <= i1 < 1000)%Z -> (0 <= i2 < 1000000)%Z ->
  exists q, f32_value (freq_of_ints i1 i2) = Some q /\
    Qabs (q - (inject_Z i1 + (i2 # 1000000))) <= (1 # 32768) + (1 # 33554432).
Proof.
  intros H1 H2.
  destruct (freq_sum_near 24 128 i1 i2) as (q & Hn & Hlo & Hhi & _); [done..|].
  destruct (nonneg_value _ _ Hn) as (q' & Hq & E). exists q'. split; [done|].
  apply Qabs_Qle_condition. rewrite E.
  change (half_ulp 24 128 10 + half_ulp 24 128 0) with ((1 # 32768) + (1 # 33554432)) in *.
  lra.
Qed.

(** The sum of line 115 evaluated in a format of at least 53 digits and
    converted to [float]: the two roundings of the wider format are below
    [2^-43], the conversion is within [2^-15]. *)
Lemma freq_of_ints_in_near prec emax i1 i2 :
  (53 <= prec < emax)%Z -> (0 <= i1 < 1000)%Z -> (0 <= i2 < 1000000)%Z ->
  exists q, f32_value (freq_of_ints_in prec emax i1 i2) = Some q /\
    Qabs (q - (inject_Z i1 + (i2 # 1000000))) <= (1 # 32768) + (1 # 33554432).
Proof.
  intros Hp H1 H2.
  destruct (freq_sum_near prec emax i1 i2) as (q3 & Hn3 & Hlo3 & Hhi3 & Herr);
    [lia | done | done |].
  assert (inject_Z i1 <= 999)
    by (change 999 with (inject_Z 999); rewrite <- Zle_Qle; lia).
  assert (i2 # 1000000 < 1) by (unfold Qlt; simpl; lia).
  destruct (f32_narrow_nonneg _ q3 10 Hn3) as (q & Hn & Hlo & Hhi); [|done|].
  { change (pow2 10) with 1024. lra. }
  destruct (nonneg_value _ _ Hn) as (q' & Hq & E). exists q'. split; [done|].
  assert (half_ulp prec emax 10 + half_ulp prec emax 0 <= 1 # 33554432).
  { unfold half_ulp.
    pose proof (pow2_le (fexp prec emax 10) (-43) ltac:(unfold fexp, emin; lia)).
    pose proof (pow2_le (fexp prec emax 0) (-53) ltac:(unfold fexp, emin; lia)).
    change (pow2 (-43)) with (1 # 8796093022208) in *.
    change (pow2 (-53)) with (1 # 9007199254740992) in *. lra. }
  apply Qabs_Qle_condition. rewrite E.
  change (half_ulp 24 128 10) with (1 # 32768) in *. lra.
Qed.

(** Nine digits as the two fields of line 115: three of megahertz, six
    of millionths. *)
Lemma nine_digits_fields ds :
  length ds = 9%nat -> Forall (fun d => isdigit d = true) ds ->
  (0 <= dec_value (take 3 ds) < 1000)%Z /\ (0 <= dec_value (drop 3 ds) < 1000000)%Z /\
  dec_value ds # 1000000 ==
    inject_Z (dec_value (take 3 ds)) + (dec_value (drop 3 ds) # 1000000).
Proof.
  intros Hl Hds.
  pose proof (dec_value_bound (take 3 ds) (Forall_take _ 3%nat _ Hds)) as H3.
  pose proof (dec_value_bound (drop 3 ds) (Forall_drop _ 3%nat _ Hds)) as H6.
  rewrite length_take in H3. rewrite length_drop in H6. rewrite Hl in H3, H6.
  split; [done|]. split; [done|].
  rewrite <- (take_drop 3%nat ds) at 1. rewrite dec_value_app, length_drop, Hl.
  unfold Qeq, Qplus, inject_Z. simpl. lia.
Qed.

(** The same for the two fields of nine digits, against the frequency
    the nine digits denote. *)
Lemma freq_of_digits_near ds :
  length ds = 9%nat -> Forall (fun d => isdigit d = true) ds ->
  exists q, f32_value (freq_of_ints (dec_value (take 3 ds)) (dec_value (drop 3 ds))) = Some q /\
    Qabs (q - (dec_value ds # 1000000)) <= (1 # 32768) + (1 # 33554432).
Proof.
  intros Hl Hds. destruct (nine_digits_fields ds Hl Hds) as (H3 & H6 & E).
  destruct (freq_of_ints_near _ _ H3 H6) as (q & Hq & Hb).
  exists q. split; [done|]. by rewrite E.
Qed.

(** C20. On every answer that starts with nine decimal digits the function
    returns a finite [float], and the frequency it denotes is within
    [2^-15 + 2^-25] MHz (less than 31 Hz) of the frequency the digits
    denote, in millionths of a megahertz.  The bound is that of the two
    roundings of line 115: the quotient below one, the sum below 1024. *)
Theorem freq_str_to_fl_accurate j ds rest :
  length ds = 9%nat -> Forall (fun d => isdigit d = true) ds ->
  exists x q, wisol_sigfox__freq_str_to_fl j (ds ++ rest) = Some x /\
    f32_value x = Some q /\
    Qabs (q - (dec_value ds # 1000000)) <= (1 # 32768) + (1 # 33554432).
Proof.
  intros Hl Hds. rewrite (freq_str_to_fl_nine j ds rest Hl Hds).
  destruct (freq_of_digits_near ds Hl Hds) as (q & Hq & Hb). by eexists _, q.
Qed.

(** C21. Evaluation in a wider format.  A C implementation may evaluate
    the operations of line 115 in [double] or [long double] and convert
    the result to [float] on return.  For every format of at least 53
    digits, and every nine decimal digits, the [float] obtained that way
    is finite and within the same [2^-15 + 2^-25] MHz of the frequency
    the digits denote: the accuracy of the function does not depend on
    the evaluation method, although the [float] returned does
    ([freq_of_ints_in_differs]). *)
Theorem freq_of_ints_in_accurate prec emax ds :
  (53 <= prec < emax)%Z -> length ds = 9%nat -> Forall (fun d => isdigit d = true) ds ->
  exists q,
    f32_value (freq_of_ints_in prec emax (dec_value (take 3 ds)) (dec_value (drop 3 ds)))
      = Some q /\
    Qabs (q - (dec_value ds # 1000000)) <= (1 # 32768) + (1 # 33554432).
Proof.
  intros Hp Hl Hds. destruct (nine_digits_fields ds Hl Hds) as (H3 & H6 & E).
  destruct (freq_of_ints_in_near prec emax _ _ Hp H3 H6) as (q & Hq & Hb).
  exists q. split; [done|]. by rewrite E.
Qed.

(** The digits 947309906: evaluated in [float] the quotient is rounded
    before the sum and the result is the [float] above the frequency;
    evaluated in [double] and converted, it is the [float] below. *)
Example freq_of_ints_in_differs :
  freq_of_ints 947 309906 = S754_finite false 15520726 (-14) /\
  freq_of_ints_in 53 1024 947 309906 = S754_finite false 15520725 (-14).
Proof. by vm_compute. Qed.

End accuracy.

Lemma freq_str_to_fl_accurate_witness :
  exists x q,
    wisol_sigfox__freq_str_to_fl (fun _ => "x"%char) (chars "868130000" ++ [NUL]) = Some x /\
    f32_value x = Some q /\
    Qle (Qabs (Qminus q (Qmake (dec_value (chars "868130000")) 1000000)))
        (Qplus (Qmake 1 32768) (Qmake 1 33554432)).
Proof.
  apply (freq_str_to_fl_accurate _ (chars "868130000") [NUL]);
    [reflexivity | by repeat constructor].
Defined.

(** * Concrete values *)

(** The answer [868130000] gives the [float] 14223442 * 2^-14,
    which is within half a unit in the last place (2^-15) of 868.13, and
    the answer [000000000] gives zero, whatever follows the nine digits
    and whatever the stack held. *)
Example freq_str_to_fl_868 j rest :
  wisol_sigfox__freq_str_to_fl j (chars "868130000" ++ rest) =
    Some (S754_finite false 14223442 (-14)) /\
  (exists q, f32_value (S754_finite false 14223442 (-14)) = Some q /\
     Qle (Qabs (Qminus q (Qmake 86813 100))) (Qmake 1 32768)) /\
  wisol_sigfox__freq_str_to_fl j (chars "000000000" ++ rest) = Some (S754_zero false).
Proof.
  split; [|split].
  - by rewrite freq_str_to_fl_nine by (reflexivity || by repeat constructor).
  - eexists. split; [reflexivity|]. by vm_compute.
  - by rewrite freq_str_to_fl_nine by (reflexivity || by repeat constructor).
Qed.

(** * [wisol_sigfox__get_tx_freq] and [wisol_sigfox__get_rx_freq] *)

Section get_freq.
Context {T : Type} `{Transport T}.
Implicit Types (w : world T) (j : junk).

(** The exchange of the shared body, for the command [c] with text [f]. *)
Lemma get_freq_exchange c fmt f j w :
  command c = Some fmt -> cstr fmt = Some f ->
  let cl := Call f 32 WISOL_SIGFOX_DEFAULT_TIMEOUT in
  let r := respond (dev w) cl in
  exists x, get_freq c j w = Some (x, World r.2 (calls w ++ [cl])) /\
    wisol_sigfox__freq_str_to_fl (fun i => j (64 + i)%nat) (stored r.1 (uninit j 32 32))
      = Some x.
Proof.
  intros Hc Hf cl r. unfold get_freq.
  rewrite (M_bind_eq _ _ w fmt w) by (by rewrite Hc).
  rewrite sizeof_uninit by done.
  assert (Hlen : (length f < 32)%nat).
  { destruct c; injection Hc as <-; vm_compute in Hf; injection Hf as <-; simpl; lia. }
  apply cstr_inv in Hf as [Hn Hfmt]. rewrite Hfmt.
  rewrite (send_line (lit "%s") (chars "%s") [DStr] _ f); try done.
  - change (Z.of_nat DEFAULT_BUF_SZ) with 32. change DEFAULT_BUF_SZ with 32%nat.
    fold cl r.
    destruct (freq_fields_read (stored r.1 (uninit j 32 32)))
      as (x1 & x2 & i1 & i2 & H1 & H2 & Hi1 & Hi2).
    { pose proof (respond_bound (dev w) cl) as Hb. fold r in Hb. simpl in Hb.
      rewrite length_stored; len. }
    rewrite !(freq_str_to_fl_fields _ _ x1 x2 H1 H2), Hi1, Hi2. by eexists.
  - cbn [format]. rewrite cstr_app by done. cbn. by rewrite app_nil_r.
Qed.

(** [wisol_sigfox__get_tx_freq] and [wisol_sigfox__get_rx_freq]
    always return: one call with the line [AT$IF?], respectively [AT$DR?],
    size 32 and timeout 100, and the result is
    [wisol_sigfox__freq_str_to_fl] of the response array. *)
Lemma get_tx_rx_freq_exchange j w :
  let parse r := wisol_sigfox__freq_str_to_fl (fun i => j (64 + i)%nat)
                   (stored r (uninit j 32 32)) in
  let ctx := Call (chars "AT$IF?") 32 WISOL_SIGFOX_DEFAULT_TIMEOUT in
  let crx := Call (chars "AT$DR?") 32 WISOL_SIGFOX_DEFAULT_TIMEOUT in
  (exists x, wisol_sigfox__get_tx_freq j w =
      Some (x, World (respond (dev w) ctx).2 (calls w ++ [ctx])) /\
    parse (respond (dev w) ctx).1 = Some x) /\
  (exists x, wisol_sigfox__get_rx_freq j w =
      Some (x, World (respond (dev w) crx).2 (calls w ++ [crx])) /\
    parse (respond (dev w) crx).1 = Some x).
Proof.
  split.
  - by apply (get_freq_exchange CMD_GET_TX_FREQ (lit "AT$IF?")).
  - by apply (get_freq_exchange CMD_GET_RX_FREQ (lit "AT$DR?")).
Qed.

End get_freq.

Lemma freq_of_ints_in_accurate_witness :
  exists q, f32_value (freq_of_ints_in 53 1024 (dec_value (take 3 (chars "947309906")))
                         (dec_value (drop 3 (chars "947309906")))) = Some q /\
    (Qabs (q - (dec_value (chars "947309906") # 1000000)) <= (1 # 32768) + (1 # 33554432))%Q.
Proof.
  refine (freq_of_ints_in_accurate 53 1024 (chars "947309906") _ _ _);
    [done | reflexivity | by repeat constructor].
Defined.
