(* ===== verification/Refinement.v ===== *)
(** * The driver implements the codec

    For each operation of [Codec], the function of [Driver] refines it
    when the transport terminates its answers: whatever the operation
    returns, the function returns, with the same calls to the transport,
    and nothing of what the stack held shows in the result.  Where the
    refinement depends on the answer of the state at hand (room for a
    text, a number [atoi] can read) it is stated in that state, as
    [simulates], for [Simulation] to compose. *)

From Stdlib Require Import Init.Byte.
From S2P Require Import Prelude CString Printf Commands Float32 Transport Payload Driver.
From S2P Require Import Codec Exchange Queries Frequency.

Section refinement.
Context {T : Type} `{!Transport T} `{!Terminating T}.
Implicit Types (w : world T) (j : junk).

(** The test for [OK] on a response array is the test on the answer's
    text. *)
Lemma is_OK_terminated (t : T) c buf :
  0 < call_size c ->
  is_OK (stored (respond t c).1 buf) = bool_decide (strn (respond t c).1 = chars "OK").
Proof.
  intros Hc. unfold is_OK. rewrite cstr_stored_terminated by done.
  apply bool_decide_ext. split; [by intros [= ->] | by intros ->].
Qed.

(** C6. [wisol_sigfox__ready] computes the readiness check: one
    transaction with the text [AT], true exactly when the answer's text is
    [OK], whatever the stack held. *)
Theorem ready_refines j : refines eq (wisol_sigfox__ready j) codec_ready.
Proof.
  apply refines_eq. intros w. rewrite ready_stored.
  by rewrite is_OK_terminated.
Qed.

(** For a payload size within the payload the caller passes, the function
    computes the operation on these bytes. *)
Lemma send_frame_codec j p payload_size downlink_flag w :
  (0 < payload_size <= length p)%nat ->
  wisol_sigfox__send_frame j p payload_size downlink_flag w =
    codec_send_frame (take payload_size p) downlink_flag w.
Proof.
  intros Hp. unfold codec_send_frame. rewrite length_take, Nat.min_l by lia.
  destruct (12 <? payload_size)%nat eqn:Hs.
  { unfold wisol_sigfox__send_frame. by rewrite Hs. }
  apply Nat.ltb_ge in Hs. rewrite send_frame_stored by lia.
  rewrite is_OK_terminated by done. by destruct downlink_flag.
Qed.

(** C2. For a payload size of at least 1 and within the payload the
    caller passes, [wisol_sigfox__send_frame] computes the send-frame
    operation on these bytes: rejected without a transaction above 12
    bytes, else one transaction with [AT$SF=], the hex text and the
    downlink marker, true exactly when the answer's text is [OK].  The
    size 0 is excluded: the function then sends what the stack held
    ([send_frame_empty]), which the operation does not. *)
Theorem send_frame_refines j p payload_size downlink_flag :
  (0 < payload_size <= length p)%nat ->
  refines eq (wisol_sigfox__send_frame j p payload_size downlink_flag)
             (codec_send_frame (take payload_size p) downlink_flag).
Proof. intros Hp. apply refines_eq. intros w. by apply send_frame_codec. Qed.

(** The shared body of the identifier queries refines the information
    query, on any transport: the array was cleared before the call. *)
Lemma get_identity_refines n_zero index sz j p_buf :
  (Z.to_nat sz < n_zero <= length p_buf)%nat ->
  refines holds (get_identity n_zero index sz j p_buf) (codec_get_information index sz).
Proof.
  intros Hn w y w' Hs.
  destruct (get_identity_string n_zero index sz j p_buf w Hn) as (buf & Hg & _ & _ & Hc & _).
  exists buf. unfold codec_get_information in Hs. rewrite transact_Some in Hs.
  by injection Hs as <- <-.
Qed.

(** C25. [wisol_sigfox__get_id] and [wisol_sigfox__get_pac] implement
    the identifier and PAC queries: the caller's array, of at least 9 and
    17 characters, holds the text of the answer as a terminated string. *)
Theorem get_id_pac_refines j p_buf :
  ((9 <= length p_buf)%nat -> refines holds (wisol_sigfox__get_id j p_buf) codec_get_id) /\
  ((17 <= length p_buf)%nat -> refines holds (wisol_sigfox__get_pac j p_buf) codec_get_pac).
Proof.
  split; intros Hn.
  - apply (get_identity_refines 9 10 8). simpl. lia.
  - apply (get_identity_refines 17 11 16). simpl. lia.
Qed.

(** The shared body of the version queries refines the information query
    in every state whose answer the caller's array has room for. *)
Lemma get_information_simulates index j p_buf n w :
  (0 < n)%nat -> Z.of_nat n < 2 ^ 31 ->
  (length (respond (dev w) (Call (chars "AT$I=" ++ fmt_u index) (Z.of_nat n)
                              WISOL_SIGFOX_DEFAULT_TIMEOUT)).1 <= length p_buf)%nat ->
  simulates holds (get_information index j p_buf n)
                  (codec_get_information index (Z.of_nat n)) w.
Proof.
  intros Hn Hsz Hl y w' Hs. unfold codec_get_information in Hs.
  rewrite transact_Some in Hs. injection Hs as <- <-. eexists.
  rewrite get_information_eq, to_int_small by lia. rewrite bool_decide_true by done.
  split; [done|]. apply cstr_stored_terminated. simpl. lia.
Qed.

(** C40. [wisol_sigfox__get_firmware_vcs_version] and
    [wisol_sigfox__get_library_version] implement the information queries
    8 and 9 with the capacity the caller gives, when it is positive and
    within the caller's array: the array holds the text of the answer as a
    terminated string. *)
Theorem get_version_refines j p_buf sz_buf :
  (0 < sz_buf <= length p_buf)%nat -> Z.of_nat sz_buf < 2 ^ 31 ->
  refines holds (wisol_sigfox__get_firmware_vcs_version j p_buf sz_buf)
                (codec_get_information 8 (Z.of_nat sz_buf)) /\
  refines holds (wisol_sigfox__get_library_version j p_buf sz_buf)
                (codec_get_information 9 (Z.of_nat sz_buf)).
Proof.
  intros Hn Hsz. split; intros w; apply get_information_simulates; try lia.
  all: etrans; [apply respond_bound | cbn [call_size]; lia].
Qed.

(** The firmware version query, as its two transactions. *)
Lemma codec_firmware_version_queries w :
  let c1 := Call (chars "AT$I=4") 32 WISOL_SIGFOX_DEFAULT_TIMEOUT in
  let r1 := respond (dev w) c1 in
  let c2 := Call (chars "AT$I=5") 32 WISOL_SIGFOX_DEFAULT_TIMEOUT in
  let r2 := respond r1.2 c2 in
  codec_get_firmware_version w =
    Some (strn r1.1 ++ chars "." ++ strn r2.1, World r2.2 (calls w ++ [c1; c2])).
Proof.
  intros c1 r1 c2 r2. unfold codec_get_firmware_version, codec_get_information.
  rewrite !transact_bind. cbn [dev calls]. by rewrite <- app_assoc.
Qed.

(** The firmware version refines its query in every state in which the
    caller's array has room for the text, cut to the size less one. *)
Lemma get_firmware_version_simulates j p_buf n w :
  (length (take n (firmware_text w)) < length p_buf)%nat ->
  simulates (fun buf text => holds buf (take n text))
    (wisol_sigfox__get_firmware_version j p_buf (S n)) codec_get_firmware_version w.
Proof.
  intros Hl y w' Hs. rewrite codec_firmware_version_queries in Hs.
  injection Hs as <- <-. eexists. rewrite get_firmware_version_eq. cbn zeta.
  rewrite decide_True by done. split; [done|].
  unfold holds. apply cstr_app, not_elem_of_take.
  rewrite not_elem_of_app, not_elem_of_cons.
  split; [apply strn_no_NUL | split; [done | apply strn_no_NUL]].
Qed.

(** C37. [wisol_sigfox__get_firmware_version] implements the firmware
    version query for a positive size within the caller's array: two
    transactions, and the array holds the two texts joined by a dot, cut
    to the size less one, as a terminated string. *)
Theorem get_firmware_version_refines j p_buf n :
  (S n <= length p_buf)%nat ->
  refines (fun buf text => holds buf (take n text))
    (wisol_sigfox__get_firmware_version j p_buf (S n)) codec_get_firmware_version.
Proof.
  intros Hn w. apply get_firmware_version_simulates. rewrite length_take. lia.
Qed.

(** The shared body of the frequency queries refines the frequency query
    for the text of its command. *)
Lemma get_freq_refines c fmt f j :
  command c = Some fmt -> cstr fmt = Some f ->
  refines eq (get_freq c j) (codec_get_frequency f).
Proof.
  intros Hc Hf w y w' Hs. unfold codec_get_frequency in Hs.
  rewrite transact_bind in Hs. unfold lift in Hs.
  destruct (parse_frequency _) as [x|] eqn:Hp; [|done]. injection Hs as <- <-.
  apply parse_frequency_Some in Hp as (Hl & Hd & ->).
  destruct (get_freq_exchange c fmt f j w Hc Hf) as (x & Hg & Hx).
  destruct (stored_terminated (dev w) (Call f 32 WISOL_SIGFOX_DEFAULT_TIMEOUT)
              (uninit j 32 32) eq_refl) as [rest Hr].
  rewrite Hr, freq_str_to_fl_nine in Hx by done. injection Hx as <-. by eexists.
Qed.

(** C30. [wisol_sigfox__get_tx_freq] and [wisol_sigfox__get_rx_freq]
    implement the frequency queries: one transaction with [AT$IF?],
    respectively [AT$DR?], and for an answer of nine digits the
    single-precision sum of its megahertz and of its millionths over
    1000000. *)
Theorem get_tx_rx_freq_refines j :
  refines eq (wisol_sigfox__get_tx_freq j) codec_get_tx_freq /\
  refines eq (wisol_sigfox__get_rx_freq j) codec_get_rx_freq.
Proof. split; by eapply get_freq_refines. Qed.

(** A numeric answer as [atoi] reads it from the response array: the
    number of the text, unless an [int] cannot hold it. *)
Lemma atoi_stored_digits (t : T) c buf n :
  0 < call_size c -> parse_unsigned (strn (respond t c).1) = Some n ->
  atoi (stored (respond t c).1 buf) = if bool_decide (n <= INT_MAX) then Some n else None.
Proof.
  intros Hc (_ & Hd & ->)%parse_unsigned_Some.
  destruct (stored_terminated t c buf Hc) as [rest ->]. by apply atoi_digits_eq.
Qed.

(** The power level refines its query in every state whose answer [atoi]
    can read. *)
Lemma get_power_level_simulates j w :
  is_Some (atoi (stored (respond (dev w)
     (Call (chars "ATS302?") 32 WISOL_SIGFOX_DEFAULT_TIMEOUT)).1 (replicate 32 NUL))) ->
  simulates eq (wisol_sigfox__get_power_level j) codec_get_power_level w.
Proof.
  intros Ha v w' Hs. unfold codec_get_power_level in Hs. rewrite transact_bind in Hs.
  unfold lift, mbind at 1, M_bind in Hs.
  destruct (parse_unsigned _) as [n|] eqn:Hp; [|done]. injection Hs as <- <-.
  pose proof (fun buf H0 => atoi_stored_digits _ _ buf _ H0 Hp) as Hat.
  rewrite Hat in Ha by done. eexists. rewrite get_power_level_atoi, Hat by done.
  case_bool_decide; [done | by apply is_Some_None in Ha].
Qed.

(** C33. [wisol_sigfox__get_power_level] implements the power level
    query for every answer whose number an [int] holds: one transaction
    with [ATS302?], and the number of the decimal text reduced to 8
    bits. *)
Theorem get_power_level_refines j w v w' :
  codec_get_power_level w = Some (v, w') ->
  dec_value (strn (respond (dev w)
     (Call (chars "ATS302?") 32 WISOL_SIGFOX_DEFAULT_TIMEOUT)).1) <= INT_MAX ->
  wisol_sigfox__get_power_level j w = Some (v, w').
Proof.
  unfold codec_get_power_level. rewrite transact_bind. unfold lift, mbind at 1, M_bind.
  destruct (parse_unsigned _) as [n|] eqn:Hp; [|done]. intros [= <- <-] Hmax.
  apply parse_unsigned_Some in Hp as (_ & Hd & ->).
  rewrite get_power_level_atoi.
  destruct (stored_terminated (dev w)
              (Call (chars "ATS302?") 32 WISOL_SIGFOX_DEFAULT_TIMEOUT)
              (replicate 32 NUL) eq_refl) as [rest ->].
  by rewrite atoi_digits.
Qed.

(** C34. On any transport, [wisol_sigfox__set_power_mode] and
    [wisol_sigfox__set_power_level] compute the operations of the codec:
    one transaction with the line [AT$P=] and the value of the mode (0, 1
    or 2), respectively [ATS302=] and the level reduced to 8 bits in
    decimal, capacity 32 and timeout 100; the answer is dropped. *)
Theorem set_power_refines j mode power_level :
  refines eq (wisol_sigfox__set_power_mode j mode) (codec_set_power_mode mode) /\
  refines eq (wisol_sigfox__set_power_level j power_level)
             (codec_set_power_level (to_uint8 power_level)).
Proof.
  split; apply refines_eq; intros w.
  - rewrite set_power_mode_stored. by destruct mode.
  - by rewrite set_power_level_stored.
Qed.

End refinement.

Lemma send_frame_refines_witness :
  refines eq (wisol_sigfox__send_frame (T := lines) (fun _ => "x"%char) [x01; x02; xab] 3 true)
             (codec_send_frame [x01; x02; xab] true).
Proof.
  refine (send_frame_refines (T := lines) (fun _ => "x"%char) [x01; x02; xab] 3 true _).
  simpl. lia.
Defined.

Lemma get_version_refines_witness :
  refines holds (wisol_sigfox__get_firmware_vcs_version (T := lines) (fun _ => "x"%char)
                   (replicate 8 "#"%char) 8) (codec_get_information 8 8) /\
  refines holds (wisol_sigfox__get_library_version (T := lines) (fun _ => "x"%char)
                   (replicate 8 "#"%char) 8) (codec_get_information 9 8).
Proof.
  refine (get_version_refines (T := lines) (fun _ => "x"%char) (replicate 8 "#"%char) 8 _ _);
    [simpl; lia | reflexivity].
Defined.

Lemma get_firmware_version_refines_witness :
  refines (fun buf text => holds buf (take 7 text))
    (wisol_sigfox__get_firmware_version (T := lines) (fun _ => "x"%char)
       (replicate 8 "#"%char) 8) codec_get_firmware_version.
Proof.
  refine (get_firmware_version_refines (T := lines) (fun _ => "x"%char)
    (replicate 8 "#"%char) 7 _). simpl. lia.
Defined.

Lemma get_power_level_refines_witness :
  wisol_sigfox__get_power_level (fun _ => "x"%char) (World (Lines [chars "14"]) []) =
    Some (14, World (Lines []) [Call (chars "ATS302?") 32 100]).
Proof.
  refine (get_power_level_refines (T := lines) (fun _ => "x"%char)
    (World (Lines [chars "14"]) []) 14 _ _ _); [reflexivity | by vm_compute].
Defined.

Lemma ready_refines_witness :
  refines eq (wisol_sigfox__ready (T := lines) (fun _ => "x"%char)) codec_ready.
Proof. exact (ready_refines (T := lines) (fun _ => "x"%char)). Defined.

Lemma get_id_pac_refines_witness :
  refines holds (wisol_sigfox__get_id (T := lines) (fun _ => "x"%char)
                   (replicate 17 "#"%char)) codec_get_id /\
  refines holds (wisol_sigfox__get_pac (T := lines) (fun _ => "x"%char)
                   (replicate 17 "#"%char)) codec_get_pac.
Proof.
  destruct (get_id_pac_refines (T := lines) (fun _ => "x"%char) (replicate 17 "#"%char))
    as [Hid Hpac].
  split; [apply Hid | apply Hpac]; simpl; lia.
Defined.

Lemma get_tx_rx_freq_refines_witness :
  refines eq (wisol_sigfox__get_tx_freq (T := lines) (fun _ => "x"%char)) codec_get_tx_freq /\
  refines eq (wisol_sigfox__get_rx_freq (T := lines) (fun _ => "x"%char)) codec_get_rx_freq.
Proof. exact (get_tx_rx_freq_refines (T := lines) (fun _ => "x"%char)). Defined.
