(* ===== verification/Session.v ===== *)
(** * Sessions: sequences of operations

    The functions [src/wisol_sigfox.h] declares, as the requests of a
    caller with their results ([request], [response], [perform]), and
    sequences of requests on one transport ([exec], [run]).

    Two predicates on the arguments of a request: [header_ok] is what the
    comments of the header ask of a caller, and nothing more;
    [request_ok] is what the end-to-end theorems of [DeviceSession]
    assume, which differs from the header for a frame, as its comment
    says.  The exact condition under
    which a request returns is [safe], in [Contract]. *)

From Stdlib Require Import Init.Byte.
From S2P Require Import Prelude CString Printf Commands Float32 Transport Payload Driver.

(** The operations of the interface, with their arguments. *)
Inductive request : Type :=
  | Ready
  | GetId (p_id_buf : list ascii)
  | GetPac (p_pac_buf : list ascii)
  | SendFrame (p_payload_buf : list byte) (payload_size : nat) (downlink_flag : bool)
  | GetTxFreq
  | GetRxFreq
  | GetFirmwareVcsVersion (p_buf : list ascii) (sz_buf : nat)
  | GetFirmwareVersion (p_buf : list ascii) (sz_buf : nat)
  | GetLibraryVersion (p_buf : list ascii) (sz_buf : nat)
  | SetPowerMode (mode : wisol_sigfox_power_mode_t)
  | GetPowerLevel
  | SetPowerLevel (power_level : Z).

(** What the functions return. *)
Inductive response : Type :=
  | RBool (b : bool)
  | RBuf (buf : list ascii)
  | RFreq (x : float)
  | RLevel (v : Z)
  | RUnit.

(** What the comments of the header ask of the arguments: an array of
    at least 9 characters for the identifier and of at least 17 for the
    PAC (the two [@warning]s), a payload of at most 12 bytes, held by the
    array passed, and for the three versions a size that is at most that
    of the array ([max size of buffer]).  The header asks nothing of the
    other functions. *)
Definition header_ok (r : request) : Prop :=
  match r with
  | GetId p => (9 <= length p)%nat
  | GetPac p => (17 <= length p)%nat
  | SendFrame p n _ => (n <= 12)%nat /\ (n <= length p)%nat
  | GetFirmwareVcsVersion p n | GetFirmwareVersion p n | GetLibraryVersion p n =>
      (n <= length p)%nat
  | _ => True
  end.

#[export] Instance header_ok_dec (r : request) : Decision (header_ok r).
Proof. destruct r; simpl; apply _. Defined.

(** The requests of the end-to-end theorems: [header_ok], changed for a
    frame.  A frame announces at least one byte, which the header does
    not ask (a frame of no bytes is sent from the stack, see [Exchange]),
    and may announce more than 12, which the header forbids and the
    function rejects without reading the array. *)
Definition request_ok (r : request) : Prop :=
  match r with
  | SendFrame p n _ => (0 < n)%nat /\ ((n <= 12)%nat -> (n <= length p)%nat)
  | _ => header_ok r
  end.

#[export] Instance request_ok_dec (r : request) : Decision (request_ok r).
Proof. destruct r; simpl; apply _. Defined.

Section session.
Context {T : Type} `{Transport T}.
Implicit Types (w : world T) (j : junk) (r : request).

(** One request, started on the stack contents [j]: what the function
    returns (for the functions that fill an array of the caller, the
    array) with the new state of the transport and the log. *)
Definition perform (j : junk) (r : request) : M T response :=
  match r with
  | Ready => b ← wisol_sigfox__ready j; mret (RBool b)
  | GetId p => buf ← wisol_sigfox__get_id j p; mret (RBuf buf)
  | GetPac p => buf ← wisol_sigfox__get_pac j p; mret (RBuf buf)
  | SendFrame p n d => b ← wisol_sigfox__send_frame j p n d; mret (RBool b)
  | GetTxFreq => x ← wisol_sigfox__get_tx_freq j; mret (RFreq x)
  | GetRxFreq => x ← wisol_sigfox__get_rx_freq j; mret (RFreq x)
  | GetFirmwareVcsVersion p n =>
      buf ← wisol_sigfox__get_firmware_vcs_version j p n; mret (RBuf buf)
  | GetFirmwareVersion p n => buf ← wisol_sigfox__get_firmware_version j p n; mret (RBuf buf)
  | GetLibraryVersion p n => buf ← wisol_sigfox__get_library_version j p n; mret (RBuf buf)
  | SetPowerMode m => _ ← wisol_sigfox__set_power_mode j m; mret RUnit
  | GetPowerLevel => v ← wisol_sigfox__get_power_level j; mret (RLevel v)
  | SetPowerLevel l => _ ← wisol_sigfox__set_power_level j l; mret RUnit
  end.

(** The effect of a request, its result dropped. *)
Definition exec (j : junk) (r : request) (w : world T) : option (world T) :=
  snd <$> perform j r w.

(** A session: requests in order, each on the stack contents it finds. *)
Fixpoint run (s : list (junk * request)) (w : world T) : option (world T) :=
  match s with
  | [] => Some w
  | (j, r) :: s' => w1 ← exec j r w; run s' w1
  end.

End session.

(** ** The two predicates *)

(** A request that respects the header is one of the end-to-end theorems
    unless it is a frame of no bytes. *)
Lemma header_ok_request_ok r :
  header_ok r -> (forall p d, r <> SendFrame p 0 d) -> request_ok r.
Proof.
  destruct r as [|p|p|p n dl| | |p n|p n|p n|m| |l]; cbn [header_ok request_ok]; try done.
  intros [_ Hp] Hn. split; [|done]. destruct n; [by destruct (Hn p dl)|lia].
Qed.
