(* ===== verification/Contract.v ===== *)
(** * The contract of a request

    For every function the header declares: the calls it makes
    ([calls_for]) and the condition under which it is defined ([safe]).
    The calls are a function of the request and, for an empty payload, of
    the stack; a session that returns has made exactly the calls of its
    requests, in order, on every transport: the transport and the log it
    leaves are those of answering these calls one after the other
    ([replay]).  With a transport that terminates its answers a request
    is defined exactly when it is [safe]: the conditions are the array
    sizes of the header where the header states one, the room for the
    answer where it does not, and for the power level that the answer is
    a number an [int] holds; a session returns exactly when each of its
    requests is safe in the state the calls before it leave
    ([session_safe]). *)

From Stdlib Require Import Init.Byte.
From S2P Require Import Prelude CString Printf Commands Float32 Transport Payload Driver.
From S2P Require Import Exchange Queries Frequency Session.

(** ** The calls of a request *)

(** The calls a request makes, in order: the command line, the size of
    the response array and the timeout of each. *)
Definition calls_for (j : junk) (r : request) : list call :=
  let query line size := [Call (chars line) size WISOL_SIGFOX_DEFAULT_TIMEOUT] in
  match r with
  | Ready => query "AT" 32
  | GetId _ => query "AT$I=10" 8
  | GetPac _ => query "AT$I=11" 16
  | SendFrame p n downlink =>
      if (12 <? n)%nat then []
      else match frame_text j p n with
           | Some text =>
               [Call (chars "AT$SF=" ++ text ++ chars (downlink_suffix downlink)) 32 20000]
           | None => []
           end
  | GetTxFreq => query "AT$IF?" 32
  | GetRxFreq => query "AT$DR?" 32
  | GetFirmwareVcsVersion _ n => query "AT$I=8" (to_int (Z.of_nat n))
  | GetFirmwareVersion _ _ => query "AT$I=4" 32 ++ query "AT$I=5" 32
  | GetLibraryVersion _ n => query "AT$I=9" (to_int (Z.of_nat n))
  | SetPowerMode m => query (power_mode_line m) 32
  | GetPowerLevel => query "ATS302?" 32
  | SetPowerLevel l =>
      [Call (chars "ATS302=" ++ fmt_u (to_uint8 l)) 32 WISOL_SIGFOX_DEFAULT_TIMEOUT]
  end.

(** The calls of a session. *)
Definition session_calls (s : list (junk * request)) : list call :=
  s ≫= fun jr => calls_for jr.1 jr.2.

(** Closes an equivalence between a computation that is or is not defined
    and a condition on sizes. *)
Ltac some_iff :=
  split; intros;
  repeat match goal with
    | H : is_Some None |- _ => by apply is_Some_None in H
    | H : _ \/ _ |- _ => destruct H
    | H : _ /\ _ |- _ => destruct H
    end;
  solve [done | eexists; done | lia | left; done | right; split; (lia || (eexists; done))].

Section contract.
Context {T : Type} `{Transport T}.
Implicit Types (w : world T) (j : junk) (r : request).

(** ** The transport after a list of calls *)

(** The state after the transport answered the calls [cs] in order: its
    own state and the log. *)
Definition replay (cs : list call) (w : world T) : world T :=
  foldl (fun w c => World (respond (dev w) c).2 (calls w ++ [c])) w cs.

Lemma replay_app cs1 cs2 w : replay (cs1 ++ cs2) w = replay cs2 (replay cs1 w).
Proof. apply foldl_app. Qed.

Lemma calls_replay cs w : calls (replay cs w) = calls w ++ cs.
Proof.
  revert w. induction cs as [|c cs IH]; intros w; [by rewrite app_nil_r|].
  change (replay (c :: cs) w) with
    (replay cs (World (respond (dev w) c).2 (calls w ++ [c]))).
  rewrite IH. cbn [calls]. by rewrite <- app_assoc.
Qed.

(** ** When a request is defined *)

(** The safety condition of a request in the state [w]. *)
Definition safe (j : junk) (r : request) (w : world T) : Prop :=
  let answer line size :=
    (respond (dev w) (Call (chars line) size WISOL_SIGFOX_DEFAULT_TIMEOUT)).1 in
  match r with
  | GetId p => (9 <= length p)%nat
  | GetPac p => (17 <= length p)%nat
  | SendFrame p n _ => (12 < n)%nat \/ ((n <= length p)%nat /\ is_Some (frame_text j p n))
  | GetFirmwareVcsVersion p n =>
      (length (answer "AT$I=8" (to_int (Z.of_nat n))) <= length p)%nat
  | GetLibraryVersion p n =>
      (length (answer "AT$I=9" (to_int (Z.of_nat n))) <= length p)%nat
  | GetFirmwareVersion p n =>
      n = 0%nat \/ (length (take (n - 1) (firmware_text w)) < length p)%nat
  | GetPowerLevel => is_Some (atoi (stored (answer "ATS302?" 32) (replicate 32 NUL)))
  | _ => True
  end.

#[export] Instance safe_dec j r w : Decision (safe j r w).
Proof. destruct r; simpl; apply _. Defined.

(** A session is safe when each request is, in the state the calls of
    the requests before it leave. *)
Fixpoint session_safe (s : list (junk * request)) (w : world T) : Prop :=
  match s with
  | [] => True
  | (j, r) :: s' => safe j r w /\ session_safe s' (replay (calls_for j r) w)
  end.

#[export] Instance session_safe_dec s w : Decision (session_safe s w).
Proof. revert w. induction s as [|[j r] s IH]; intros w; simpl; apply _. Defined.

(** ** The log of one request *)

(** A request that returns has made its calls and nothing else, whatever
    the transport answered. *)
Lemma perform_replay j r w x w' :
  perform j r w = Some (x, w') -> w' = replay (calls_for j r) w.
Proof.
  destruct r as [|p|p|p n dl| | |p n|p n|p n|m| |l]; cbn [perform calls_for];
    intros (a & Ha & _)%M_bind_ret_Some.
  - rewrite ready_stored in Ha. by injection Ha as _ <-.
  - unfold wisol_sigfox__get_id in Ha. rewrite get_identity_eq in Ha by (simpl; lia).
    case_decide; [|done]. by injection Ha as _ <-.
  - unfold wisol_sigfox__get_pac in Ha. rewrite get_identity_eq in Ha by (simpl; lia).
    case_decide; [|done]. by injection Ha as _ <-.
  - rewrite send_frame_eq in Ha. destruct (12 <? n)%nat.
    { by injection Ha as _ <-. }
    case_decide; [|done]. destruct (frame_text j p n) as [text|]; [|done].
    by injection Ha as _ <-.
  - destruct (get_freq_exchange CMD_GET_TX_FREQ (lit "AT$IF?") (chars "AT$IF?") j w
                eq_refl eq_refl) as (y & Hy & _).
    unfold wisol_sigfox__get_tx_freq in Ha. rewrite Hy in Ha. by injection Ha as _ <-.
  - destruct (get_freq_exchange CMD_GET_RX_FREQ (lit "AT$DR?") (chars "AT$DR?") j w
                eq_refl eq_refl) as (y & Hy & _).
    unfold wisol_sigfox__get_rx_freq in Ha. rewrite Hy in Ha. by injection Ha as _ <-.
  - unfold wisol_sigfox__get_firmware_vcs_version in Ha. rewrite get_information_eq in Ha.
    case_bool_decide; [|done]. by injection Ha as _ <-.
  - rewrite firmware_queries in Ha.
    apply M_bind_Some in Ha as ([b z] & w1 & [_ ->]%lift_Some & [= _ <-]).
    cbn [replay foldl app dev calls]. by rewrite <- app_assoc.
  - unfold wisol_sigfox__get_library_version in Ha. rewrite get_information_eq in Ha.
    case_bool_decide; [|done]. by injection Ha as _ <-.
  - rewrite set_power_mode_stored in Ha. by injection Ha as _ <-.
  - rewrite get_power_level_atoi in Ha. destruct (atoi _); [|done]. by injection Ha as _ <-.
  - rewrite set_power_level_stored in Ha. by injection Ha as _ <-.
Qed.

(** C16. The calls of a session, exactly.  On every transport and every
    stack, a session that returns has made the calls of its requests, in
    order and nothing else: for each request the command line of the
    function, the size of its response array and its timeout (one call
    per request, two for the firmware version, none for a frame of more
    than 12 bytes).  The transport is left in the state these calls lead
    to, and the log has grown by them. *)
Theorem run_log (s : list (junk * request)) w w' :
  run s w = Some w' ->
  w' = replay (session_calls s) w /\ calls w' = calls w ++ session_calls s.
Proof.
  intros Hs. cut (w' = replay (session_calls s) w).
  { intros ->. by rewrite calls_replay. }
  revert w Hs. induction s as [|[j r] s IH]; intros w Hs; [by injection Hs as <-|].
  cbn [run] in Hs. apply bind_Some in Hs as (w1 & Hr & Hs).
  apply fmap_Some in Hr as ([x w2] & Hp & ->). cbn [snd] in Hs.
  rewrite (IH _ Hs), (perform_replay _ _ _ _ _ Hp). unfold session_calls.
  cbn [mbind list_bind fst snd]. by rewrite replay_app.
Qed.

(** ** Definedness *)

(** With a transport that terminates its answers, a request returns
    exactly when it is [safe]. *)
Lemma perform_safe_iff `{!Terminating T} j r w :
  is_Some (perform j r w) <-> safe j r w.
Proof.
  destruct r as [|p|p|p n dl| | |p n|p n|p n|m| |l]; cbn [perform safe];
    rewrite M_bind_ret_is_Some.
  - by rewrite ready_stored.
  - unfold wisol_sigfox__get_id. rewrite get_identity_eq by (simpl; lia).
    case_decide; some_iff.
  - unfold wisol_sigfox__get_pac. rewrite get_identity_eq by (simpl; lia).
    case_decide; some_iff.
  - rewrite send_frame_eq. destruct (Nat.ltb_spec 12 n). { some_iff. }
    case_decide. 2: { some_iff. } destruct (frame_text j p n); cbn [mbind option_bind]; some_iff.
  - destruct (get_freq_exchange CMD_GET_TX_FREQ (lit "AT$IF?") (chars "AT$IF?") j w
                eq_refl eq_refl) as (y & Hy & _).
    unfold wisol_sigfox__get_tx_freq. by rewrite Hy.
  - destruct (get_freq_exchange CMD_GET_RX_FREQ (lit "AT$DR?") (chars "AT$DR?") j w
                eq_refl eq_refl) as (y & Hy & _).
    unfold wisol_sigfox__get_rx_freq. by rewrite Hy.
  - unfold wisol_sigfox__get_firmware_vcs_version. rewrite get_information_eq.
    case_bool_decide; some_iff.
  - rewrite get_firmware_version_eq. destruct n as [|n]. { some_iff. }
    cbn [Nat.sub]. rewrite Nat.sub_0_r. case_decide; some_iff.
  - unfold wisol_sigfox__get_library_version. rewrite get_information_eq.
    case_bool_decide; some_iff.
  - by rewrite set_power_mode_stored.
  - rewrite get_power_level_atoi. cbn zeta.
    destruct (atoi _); cbn [mbind option_bind]; some_iff.
  - by rewrite set_power_level_stored.
Qed.

(** C15. Definedness.  With a transport that terminates its answers, a
    session returns exactly when each of its requests is [safe] in the
    state the calls before it leave: the identifier and the PAC need the
    9 and 17 characters the header asks for; a frame of at most 12 bytes
    needs the bytes it announces and, when it announces none, a
    terminator on the stack where [payload_buf] is; the version queries
    need room for the answer, the firmware version for the text cut at
    the size; the power level needs an answer whose number an [int]
    holds.  Outside these conditions a function reads or stores past the
    end of an array, or [atoi] overflows, and nothing else is undefined. *)
Theorem run_safe_iff `{!Terminating T} (s : list (junk * request)) w :
  is_Some (run s w) <-> session_safe s w.
Proof.
  revert w. induction s as [|[j r] s IH]; intros w; [by split; [|eexists]|].
  cbn [run session_safe]. rewrite <- IH, <- perform_safe_iff. unfold exec.
  destruct (perform j r w) as [[x w1]|] eqn:Hp; cbn [fmap option_fmap option_map mbind option_bind snd].
  - rewrite (perform_replay _ _ _ _ _ Hp). split; [by split; [eexists|] | by intros [_ ?]].
  - split; [by intros ?%is_Some_None | by intros [?%is_Some_None _]].
Qed.

(** The size a version query is given is room enough for the answer, on
    every transport. *)
Lemma version_safe line n (p : list ascii) w :
  (n <= length p)%nat ->
  (length (respond (dev w)
     (Call line (to_int (Z.of_nat n)) WISOL_SIGFOX_DEFAULT_TIMEOUT)).1 <= length p)%nat.
Proof.
  intros Hn. pose proof (to_int_of_nat_le n).
  pose proof (respond_bound (dev w)
    (Call line (to_int (Z.of_nat n)) WISOL_SIGFOX_DEFAULT_TIMEOUT)) as Hb.
  cbn [call_size] in Hb. lia.
Qed.

(** [request_ok] is sufficient for every function but
    [wisol_sigfox__get_power_level], whose answer must be a number. *)
Lemma request_ok_safe j r w : request_ok r -> r <> GetPowerLevel -> safe j r w.
Proof.
  destruct r as [|p|p|p n dl| | |p n|p n|p n|m| |l]; cbn [request_ok header_ok safe];
    try done.
  - intros [Hn Hp] _. destruct (decide (n <= 12)%nat); [right | left; lia].
    split; [auto|]. by destruct n; [lia|].
  - intros Hn _. by apply version_safe.
  - intros Hn _. destruct n; [by left | right]. rewrite length_take. lia.
  - intros Hn _. by apply version_safe.
Qed.

(** So a session of such requests is safe in every state. *)
Lemma session_safe_request_ok (s : list (junk * request)) w :
  Forall (fun jr => request_ok jr.2 /\ jr.2 <> GetPowerLevel) s -> session_safe s w.
Proof.
  intros Hs. revert w. induction Hs as [|[j r] s [Hr Hp] _ IH]; intros w; [done|].
  split; [by apply request_ok_safe | apply IH].
Qed.

End contract.

Lemma run_log_witness :
  let s := [(fun _ => "x"%char, Ready);
            (fun _ => "x"%char, SendFrame [x01; x02; xab] 3 true);
            (fun _ => "x"%char, SendFrame (replicate 13 x00) 13 false);
            (fun _ => "x"%char, GetFirmwareVersion (replicate 8 "#"%char) 8)] in
  let w := World (Lines [chars "OK"; chars "OK"; chars "1"; chars "23"]) [] in
  let w' := World (Lines []) [Call (chars "AT") 32 100; Call (chars "AT$SF=0102AB,1") 32 20000;
                              Call (chars "AT$I=4") 32 100; Call (chars "AT$I=5") 32 100] in
  w' = replay (session_calls s) w /\ calls w' = calls w ++ session_calls s.
Proof. intros s w w'. by apply (run_log (T := lines)). Defined.

Lemma run_safe_iff_witness :
  let s := [(fun _ => "x"%char, GetPac (replicate 17 "#"%char));
            (fun _ => "x"%char, SendFrame [x01] 2 false)] in
  let w := World (Lines [chars "0123456789ABCDEF"; chars "OK"]) [] in
  is_Some (run s w) <-> session_safe s w.
Proof. intros s w. apply (run_safe_iff (T := lines)). Defined.
