(* ===== verification/Simulation.v ===== *)
(** * Sessions of the driver against sessions of the codec

    [Refinement] compares each function of the driver with its operation
    of [Codec].  This file composes these facts along a session: the
    requests of a caller are run by the driver ([run_all], the session of
    [Session] with its results) and by the codec ([codec_run]), and every
    result of the codec's session is a result of the driver's, with the
    same calls to the transport and the same state of the transport, as
    long as every request is [safe] where it is made.  The proof follows
    the two computations bind by bind with the rules of [simulates]. *)

From Stdlib Require Import Init.Byte.
From S2P Require Import Prelude CString Printf Commands Float32 Transport Payload Driver.
From S2P Require Import Codec Exchange Queries Frequency Refinement Session Contract.

(** What the codec assumes of the arguments of a request: a frame
    announces at least one byte and no more than the caller passes, and a
    size for a text is positive and an [int] holds it. *)
Definition request_sized (r : request) : Prop :=
  match r with
  | SendFrame p n _ => (0 < n <= length p)%nat
  | GetFirmwareVcsVersion _ n | GetLibraryVersion _ n => (0 < n)%nat /\ Z.of_nat n < 2 ^ 31
  | GetFirmwareVersion _ n => (0 < n)%nat
  | _ => True
  end.

#[export] Instance request_sized_dec (r : request) : Decision (request_sized r).
Proof. destruct r; simpl; apply _. Defined.

(** A result of the driver answers a result of the codec: an array holds
    the text, and the other results are equal. *)
Definition answers (x y : response) : Prop :=
  match x, y with
  | RBuf buf, RBuf text => holds buf text
  | _, _ => x = y
  end.

Section simulation.
Context {T : Type} `{!Transport T}.
Implicit Types (w : world T) (j : junk) (r : request).

(** The operation of the codec a request stands for; where the driver
    fills an array, the result is the text. *)
Definition codec_perform (r : request) : M T response :=
  match r with
  | Ready => b ← codec_ready; mret (RBool b)
  | GetId _ => text ← codec_get_id; mret (RBuf text)
  | GetPac _ => text ← codec_get_pac; mret (RBuf text)
  | SendFrame p n d => b ← codec_send_frame (take n p) d; mret (RBool b)
  | GetTxFreq => x ← codec_get_tx_freq; mret (RFreq x)
  | GetRxFreq => x ← codec_get_rx_freq; mret (RFreq x)
  | GetFirmwareVcsVersion _ n =>
      text ← codec_get_information 8 (Z.of_nat n); mret (RBuf text)
  | GetFirmwareVersion _ n =>
      text ← codec_get_firmware_version; mret (RBuf (take (n - 1) text))
  | GetLibraryVersion _ n =>
      text ← codec_get_information 9 (Z.of_nat n); mret (RBuf text)
  | SetPowerMode m => _ ← codec_set_power_mode m; mret RUnit
  | GetPowerLevel => v ← codec_get_power_level; mret (RLevel v)
  | SetPowerLevel l => _ ← codec_set_power_level (to_uint8 l); mret RUnit
  end.

(** A session of the driver with the results of its requests. *)
Fixpoint run_all (s : list (junk * request)) : M T (list response) :=
  match s with
  | [] => mret []
  | (j, r) :: s' => x ← perform j r; xs ← run_all s'; mret (x :: xs)
  end.

(** The same requests, run by the codec. *)
Fixpoint codec_run (s : list request) : M T (list response) :=
  match s with
  | [] => mret []
  | r :: s' => y ← codec_perform r; ys ← codec_run s'; mret (y :: ys)
  end.

(** ** Sessions with their results *)

(** [run] is [run_all] with the results dropped. *)
Lemma run_run_all (s : list (junk * request)) w : run s w = snd <$> run_all s w.
Proof.
  revert w. induction s as [|[j r] s IH]; intros w; [done|].
  cbn [run run_all]. unfold exec. destruct (perform j r w) as [[x w1]|] eqn:Hp.
  - rewrite (M_bind_eq _ _ _ _ _ Hp). cbn [fmap option_fmap option_map mbind option_bind snd].
    rewrite IH. destruct (run_all s w1) as [[xs w2]|] eqn:Hr.
    + by rewrite (M_bind_eq _ _ _ _ _ Hr).
    + by rewrite (M_bind_None _ _ _ Hr).
  - by rewrite (M_bind_None _ _ _ Hp).
Qed.

(** ** One request *)

(** The shape of [perform] and [codec_perform]: a computation, and its
    result under a constructor of [response]. *)
Lemma simulates_perform {A B} (R : A -> B -> Prop) (impl : M T A) (spec : M T B)
    (f : A -> response) (g : B -> response) w :
  simulates R impl spec w -> (forall a b, R a b -> answers (f a) (g b)) ->
  simulates answers (impl ≫= fun a => mret (f a)) (spec ≫= fun b => mret (g b)) w.
Proof.
  intros Hs Hfg. eapply simulates_bind; [done|].
  intros x y w1 Hxy _. apply simulates_ret. auto.
Qed.

Context `{!Terminating T}.

(** A request that is safe simulates its operation. *)
Lemma perform_simulates j r w :
  request_sized r -> safe j r w -> simulates answers (perform j r) (codec_perform r) w.
Proof.
  destruct r as [|p|p|p n dl| | |p n|p n|p n|m| |l];
    cbn [request_sized safe perform codec_perform]; intros Hr Hs.
  - apply (simulates_perform eq); [|by intros ?? ->].
    apply simulates_eq. by rewrite ready_stored, is_OK_terminated.
  - apply (simulates_perform holds); [|done].
    apply refines_at, (get_identity_refines 9 10 8). simpl. lia.
  - apply (simulates_perform holds); [|done].
    apply refines_at, (get_identity_refines 17 11 16). simpl. lia.
  - apply (simulates_perform eq); [|by intros ?? ->].
    apply simulates_eq. by apply send_frame_codec.
  - apply (simulates_perform eq); [|by intros ?? ->].
    by eapply refines_at, get_freq_refines.
  - apply (simulates_perform eq); [|by intros ?? ->].
    by eapply refines_at, get_freq_refines.
  - destruct Hr. rewrite to_int_small in Hs by lia. apply (simulates_perform holds); [|done].
    by apply get_information_simulates.
  - destruct n as [|n]; [lia|]. destruct Hs as [|Hs]; [done|].
    cbn [Nat.sub] in *. rewrite Nat.sub_0_r in *.
    apply (simulates_perform (fun buf text => holds buf (take n text))); [|done].
    by apply get_firmware_version_simulates.
  - destruct Hr. rewrite to_int_small in Hs by lia. apply (simulates_perform holds); [|done].
    by apply get_information_simulates.
  - apply (simulates_perform eq); [|by intros ?? ->].
    apply simulates_eq. rewrite set_power_mode_stored. by destruct m.
  - apply (simulates_perform eq); [|by intros ?? ->].
    by apply get_power_level_simulates.
  - apply (simulates_perform eq); [|by intros ?? ->].
    apply simulates_eq. by rewrite set_power_level_stored.
Qed.

(** ** Sessions *)

(** C11. The driver implements the codec, session by session.  With a
    transport that terminates its answers, for requests whose sizes the
    codec accepts and which are safe where they are made, every result of
    the codec's session is a result of the driver's: the session of the
    driver returns, its results answer those of the codec one by one (an
    array holds the text, a flag, a frequency and a level are equal), and
    the transport has answered the same calls and is left in the same
    state.  What the stack held shows in no result. *)
Theorem run_simulates (s : list (junk * request)) w :
  Forall (fun jr => request_sized jr.2) s -> session_safe s w ->
  simulates (Forall2 answers) (run_all s) (codec_run s.*2) w.
Proof.
  intros Hs. revert w. induction Hs as [|[j r] s Hr _ IH]; intros w Hw.
  - by apply simulates_ret.
  - destruct Hw as [Hj Hw]. cbn [fmap list_fmap run_all codec_run snd].
    apply (simulates_bind answers); [by apply perform_simulates|].
    intros x y w1 Hxy Hp. rewrite (perform_replay _ _ _ _ _ Hp).
    apply (simulates_bind (Forall2 answers)); [by apply IH|].
    intros xs ys w2 Hxs _. apply simulates_ret. by constructor.
Qed.

End simulation.

Lemma run_simulates_witness :
  let s := [(fun _ => "x"%char, Ready);
            (fun _ => "x"%char, SendFrame [x01; x02; xab] 3 true);
            (fun _ => "x"%char, GetId (replicate 9 "#"%char));
            (fun _ => "x"%char, GetPowerLevel)] in
  let w := World (Lines [chars "OK"; chars "OK"; chars "00A1B2C"; chars "14"]) [] in
  simulates (Forall2 answers) (run_all s) (codec_run s.*2) w.
Proof.
  intros s w. apply (run_simulates (T := lines)); by apply (bool_decide_unpack _).
Defined.
