(* ===== verification/Independence.v ===== *)
(** * Independence of the stack

    The functions of the driver declare their arrays without initialising
    them, so that what they compute could depend on what the stack held.
    This file shows when it does not: with a transport that terminates
    its answers, a request has the same outcome on every stack: the same
    result, the same transport and the same calls when it returns, and
    no result on any stack when it does not ([Contract]); and so has a
    session, with the results of all its requests.  The two
    exceptions are exact: a frame of no bytes ([Exchange]) and a
    frequency answer of fewer than three characters ([Frequency]) do
    read what the stack held.  A transport that stores nothing, as after
    a timeout, is not of this kind: the functions that compare the
    response array with [OK] then answer from the stack. *)

From Stdlib Require Import Init.Byte.
From S2P Require Import Prelude CString Printf Commands Float32 Transport Payload Driver.
From S2P Require Import Exchange Queries Frequency Refinement Session Contract Simulation.

Section independence.
Context {T : Type} `{Transport T}.
Implicit Types (w : world T) (j : junk) (r : request).

(** The requests that do not read the stack in the state [w]: a frame
    announces a byte or more, and the answer to a frequency query has at
    least the three characters of the first field. *)
Definition stack_free (r : request) (w : world T) : Prop :=
  match r with
  | SendFrame _ n _ => (0 < n)%nat
  | GetTxFreq =>
      (3 <= length (strn (respond (dev w)
                      (Call (chars "AT$IF?") 32 WISOL_SIGFOX_DEFAULT_TIMEOUT)).1))%nat
  | GetRxFreq =>
      (3 <= length (strn (respond (dev w)
                      (Call (chars "AT$DR?") 32 WISOL_SIGFOX_DEFAULT_TIMEOUT)).1))%nat
  | _ => True
  end.

#[export] Instance stack_free_dec r w : Decision (stack_free r w).
Proof. destruct r; simpl; apply _. Defined.

(** A session reads no stack when each of its requests is [stack_free] in
    the state the calls before it leave. *)
Fixpoint session_stack_free (s : list (junk * request)) (w : world T) : Prop :=
  match s with
  | [] => True
  | (j, r) :: s' => stack_free r w /\ session_stack_free s' (replay (calls_for j r) w)
  end.

#[export] Instance session_stack_free_dec s w : Decision (session_stack_free s w).
Proof. revert w. induction s as [|[j r] s IH]; intros w; simpl; apply _. Defined.

(** ** The operations, one by one *)

Lemma bind_congr {A B} (m m' : M T A) (k : A -> M T B) w :
  m w = m' w -> (m ≫= k) w = (m' ≫= k) w.
Proof. intros Hm. unfold mbind, M_bind. by rewrite Hm. Qed.

(** The fields of an answer that is terminated after three characters or
    more come from the answer alone. *)
Lemma freq_str_to_fl_text j text rest :
  NUL ∉ text -> (3 <= length text)%nat ->
  wisol_sigfox__freq_str_to_fl j (text ++ NUL :: rest) =
    (i1 ← atoi (take 3 text ++ [NUL]);
     i2 ← atoi ((take 6 (drop 3 text) ++ replicate (6 - length (drop 3 text)) NUL) ++ [NUL]);
     Some (freq_of_ints i1 i2)).
Proof.
  intros Hn Hl. apply freq_str_to_fl_fields.
  - rewrite (strncpy_src_cstr _ text) by (by apply cstr_app).
    replace (3 - length text)%nat with 0%nat by lia. by rewrite app_nil_r.
  - rewrite drop_app_le by lia. by apply strncpy_src_cstr, cstr_app, not_elem_of_drop.
Qed.

(** ** Timeouts *)

Lemma stored_nil (buf : list ascii) : stored [] buf = buf.
Proof. done. Qed.

(** C19. A transport that stores nothing, as when the module does not
    answer before the timeout: [wisol_sigfox__ready] and
    [wisol_sigfox__send_frame] still make their call and return whether
    the stack held the string [OK] where the response array is allocated
    (offset 0, respectively 81), and [wisol_sigfox__get_power_level],
    which clears its array, returns 0. *)
Theorem timeout_reads_stack j p n d w :
  (forall c, (respond (dev w) c).1 = []) -> (0 < n <= 12)%nat -> (n <= length p)%nat ->
  (exists w', wisol_sigfox__ready j w = Some (is_OK (uninit j 0 32), w')) /\
  (exists w', wisol_sigfox__send_frame j p n d w = Some (is_OK (uninit j 81 32), w')) /\
  (exists w', wisol_sigfox__get_power_level j w = Some (0, w')).
Proof.
  intros Hs Hn Hp. split; [|split].
  - rewrite ready_stored, Hs, stored_nil. by eexists.
  - rewrite send_frame_stored, Hs, stored_nil by done. by eexists.
  - rewrite get_power_level_atoi, Hs, stored_nil. by eexists.
Qed.

Context `{!Terminating T}.

Lemma ready_independent j j' w : wisol_sigfox__ready j w = wisol_sigfox__ready j' w.
Proof. by rewrite !ready_stored, !is_OK_terminated. Qed.

Lemma send_frame_independent j j' p n d w :
  (0 < n)%nat ->
  wisol_sigfox__send_frame j p n d w = wisol_sigfox__send_frame j' p n d w.
Proof.
  intros Hn. rewrite !send_frame_eq. destruct n as [|n]; [lia|].
  cbn [frame_text mbind option_bind]. cbn zeta. by rewrite !is_OK_terminated.
Qed.

Lemma get_freq_independent c fmt f j j' w :
  command c = Some fmt -> cstr fmt = Some f ->
  (3 <= length (strn (respond (dev w) (Call f 32 WISOL_SIGFOX_DEFAULT_TIMEOUT)).1))%nat ->
  get_freq c j w = get_freq c j' w.
Proof.
  intros Hc Hf Hl.
  destruct (get_freq_exchange c fmt f j w Hc Hf) as (x & -> & Hx).
  destruct (get_freq_exchange c fmt f j' w Hc Hf) as (x' & -> & Hx').
  set (cl := Call f 32 WISOL_SIGFOX_DEFAULT_TIMEOUT) in *.
  destruct (stored_terminated (dev w) cl (uninit j 32 32) eq_refl) as [rest E].
  destruct (stored_terminated (dev w) cl (uninit j' 32 32) eq_refl) as [rest' E'].
  rewrite E, freq_str_to_fl_text in Hx by (done || apply strn_no_NUL).
  rewrite E', freq_str_to_fl_text in Hx' by (done || apply strn_no_NUL).
  congruence.
Qed.

(** The firmware version with terminated answers: the two texts joined
    by a dot, cut to the size less one. *)
Lemma get_firmware_version_terminated j p n w :
  (S n <= length p)%nat ->
  let c1 := Call (chars "AT$I=4") 32 WISOL_SIGFOX_DEFAULT_TIMEOUT in
  let r1 := respond (dev w) c1 in
  let c2 := Call (chars "AT$I=5") 32 WISOL_SIGFOX_DEFAULT_TIMEOUT in
  let r2 := respond r1.2 c2 in
  let text := take n (strn r1.1 ++ chars "." ++ strn r2.1) in
  wisol_sigfox__get_firmware_version j p (S n) w =
    Some (text ++ NUL :: drop (S (length text)) p, World r2.2 (calls w ++ [c1; c2])).
Proof.
  intros Hn c1 r1 c2 r2 text. rewrite get_firmware_version_eq. cbn zeta.
  fold c1 r1 c2 r2. unfold firmware_text. fold c1 r1 c2 r2 text.
  rewrite decide_True; [done|]. unfold text. rewrite length_take. lia.
Qed.

(** One request: the same outcome whatever the stack held when the
    function was entered, whatever the sizes of the caller's arrays. *)
Lemma perform_stack_independent r j j' w :
  stack_free r w -> perform j r w = perform j' r w.
Proof.
  intros Hw.
  destruct r as [|p|p|p n dl| | |p n|p n|p n|m| |l]; cbn [perform stack_free] in *;
    apply bind_congr.
  - apply ready_independent.
  - unfold wisol_sigfox__get_id. by rewrite !get_identity_eq by (simpl; lia).
  - unfold wisol_sigfox__get_pac. by rewrite !get_identity_eq by (simpl; lia).
  - by apply send_frame_independent.
  - by apply (get_freq_independent CMD_GET_TX_FREQ (lit "AT$IF?") (chars "AT$IF?")).
  - by apply (get_freq_independent CMD_GET_RX_FREQ (lit "AT$DR?") (chars "AT$DR?")).
  - unfold wisol_sigfox__get_firmware_vcs_version. by rewrite !get_information_eq.
  - by rewrite !get_firmware_version_eq.
  - unfold wisol_sigfox__get_library_version. by rewrite !get_information_eq.
  - by rewrite !set_power_mode_stored.
  - by rewrite !get_power_level_atoi.
  - by rewrite !set_power_level_stored.
Qed.

(** C14. Stack independence.  With a transport that terminates its
    answers, two sessions of the same requests have the same outcome
    whatever the stack held when each function was entered and whatever
    the sizes of the caller's arrays: the same results, the same state of
    the transport and the same log when they return, and no result
    either when one does not.  The requests excluded are exact: a frame
    that announces no byte, and a frequency whose answer has fewer than
    three characters.  The uninitialised arrays of the driver are never
    read before they are written. *)
Theorem run_stack_independent (s s' : list (junk * request)) w :
  s.*2 = s'.*2 -> session_stack_free s w -> run_all s w = run_all s' w.
Proof.
  revert s' w. induction s as [|[j r] s IH]; intros [|[j' r'] s'] w Hs Hw; try done.
  injection Hs as <- Hs. destruct Hw as [Hr Hw]. cbn [run_all].
  pose proof (perform_stack_independent r j j' w Hr) as Hj.
  destruct (perform j r w) as [[x w1]|] eqn:Hp.
  - rewrite (M_bind_eq _ _ _ _ _ Hp), (M_bind_eq _ _ _ _ _ (eq_sym Hj)).
    apply bind_congr, IH; [done|]. by rewrite (perform_replay _ _ _ _ _ Hp).
  - by rewrite (M_bind_None _ _ _ Hp), (M_bind_None _ _ _ (eq_sym Hj)).
Qed.

End independence.

Lemma run_stack_independent_witness :
  let s (c : ascii) := [(fun _ : nat => c, Ready);
                        (fun _ : nat => c, GetFirmwareVersion (replicate 8 "#"%char) 8);
                        (fun _ : nat => c, SendFrame [x01; x02] 2 false)] in
  let w := World (Lines [chars "OK"; chars "1"; chars "23"; chars "OK"]) [] in
  run_all (s "x"%char) w = run_all (s "O"%char) w.
Proof.
  intros s w. apply (run_stack_independent (T := lines));
    [reflexivity | by apply (bool_decide_unpack _)].
Defined.

Lemma timeout_reads_stack_witness :
  let j := fun i => nth (i mod 81) (chars "OK" ++ [NUL]) "x"%char in
  (exists w', wisol_sigfox__ready (T := script) j (World [] []) = Some (true, w')) /\
  (exists w', wisol_sigfox__send_frame (T := script) j [x01] 1 false (World [] []) =
     Some (true, w')) /\
  (exists w', wisol_sigfox__get_power_level (T := script) j (World [] []) = Some (0, w')).
Proof.
  refine (timeout_reads_stack (T := script)
    (fun i => nth (i mod 81) (chars "OK" ++ [NUL]) "x"%char) [x01] 1 false (World [] []) _ _ _);
    [done | lia | simpl; lia].
Defined.
