(* ===== verification/Device.v ===== *)
(** * The driver against a model of the module

    [device] is a radio module as the specification describes its answers:
    it answers [OK] to the status command, keeps the output power in
    register 302, answers the frequency queries with nine digits, the
    identifier and PAC queries with its identifier and PAC and the other
    information queries with the text it holds for the index, records the
    power mode it is put in, and records the frames it is asked to send
    after decoding their hexadecimal text.
    It implements [Transport] and terminates its answers.  The theorems
    run the functions of [Driver] against it: what the caller passes is
    what the module receives.  [DeviceSession] runs whole sessions. *)

From Stdlib Require Import Init.Byte.
From S2P Require Import Prelude CString Printf Commands Float32 Transport Payload Driver.
From S2P Require Import Codec Exchange Queries Refinement.

(** ** Reading a command line *)

(** What follows the prefix [pre] in [line], if [line] starts with it. *)
Definition after (pre line : list ascii) : option (list ascii) :=
  if decide (take (length pre) line = pre) then Some (drop (length pre) line) else None.

(** The text before the first comma, and the rest. *)
Fixpoint until_comma (s : list ascii) : list ascii * list ascii :=
  match s with
  | [] => ([], [])
  | c :: r =>
      if decide (c = ","%char) then ([], s)
      else let '(a, b) := until_comma r in (c :: a, b)
  end.

(** The argument of [AT$SF=]: hexadecimal text, then [,1] or nothing. *)
Definition parse_frame (text : list ascii) : option (list byte * bool) :=
  let '(hex, rest) := until_comma text in
  p ← hex_decode hex;
  if decide (rest = []) then Some (p, false)
  else if decide (rest = chars ",1") then Some (p, true)
  else None.

(** ** The module *)

Record device : Type := Device {
  power_level : Z;
  frames : list (list byte * bool);
  tx_freq : Z;
  rx_freq : Z;
  dev_id : list ascii;
  dev_pac : list ascii;
  power_mode : Z;
  dev_info : Z -> list ascii
}.

(** The module after one more frame, after a write to register 302 and
    after a change of power mode. *)
Definition with_frame (d : device) (f : list byte * bool) : device :=
  Device (power_level d) (frames d ++ [f]) (tx_freq d) (rx_freq d) (dev_id d) (dev_pac d)
    (power_mode d) (dev_info d).

Definition with_level (d : device) (v : Z) : device :=
  Device v (frames d) (tx_freq d) (rx_freq d) (dev_id d) (dev_pac d)
    (power_mode d) (dev_info d).

Definition with_mode (d : device) (m : Z) : device :=
  Device (power_level d) (frames d) (tx_freq d) (rx_freq d) (dev_id d) (dev_pac d)
    m (dev_info d).

(** A frequency in hertz as the nine digits of an answer. *)
Definition fmt_09 (v : Z) : list ascii :=
  let ds := digits_be 10 9 v [] in
  replicate (9 - length ds) "0"%char ++ ds.

(** The answer text to a command line, and the module's new state. *)
Definition device_answer (d : device) (line : list ascii) : list ascii * device :=
  if decide (line = chars "AT") then (chars "OK", d)
  else if decide (line = chars "ATS302?") then (fmt_u (power_level d), d)
  else if decide (line = chars "AT$IF?") then (fmt_09 (tx_freq d), d)
  else if decide (line = chars "AT$DR?") then (fmt_09 (rx_freq d), d)
  else if decide (line = chars "AT$I=10") then (dev_id d, d)
  else if decide (line = chars "AT$I=11") then (dev_pac d, d)
  else match after (chars "AT$SF=") line ≫= parse_frame with
       | Some (p, downlink) =>
           if (0 <? length p)%nat && (length p <=? 12)%nat
           then (chars "OK", with_frame d (p, downlink))
           else (chars "ERROR", d)
       | None =>
           match after (chars "ATS302=") line ≫= parse_unsigned with
           | Some v => (chars "OK", with_level d v)
           | None =>
               match after (chars "AT$P=") line ≫= parse_unsigned with
               | Some m => (chars "OK", with_mode d m)
               | None =>
                   match after (chars "AT$I=") line ≫= parse_unsigned with
                   | Some index => (dev_info d index, d)
                   | None => (chars "ERROR", d)
                   end
               end
           end
       end.

(** A module in order: the power level is a byte, the frequencies have
    nine digits, the identifier has 8 characters and the PAC 16, the
    frames received have 1 to 12 bytes, and the power mode is one of the
    three. *)
Definition device_ok (d : device) : Prop :=
  0 <= power_level d < 256 /\ 0 <= tx_freq d < 10 ^ 9 /\ 0 <= rx_freq d < 10 ^ 9 /\
  length (dev_id d) = 8%nat /\ length (dev_pac d) = 16%nat /\
  Forall (fun f => (0 < length f.1 <= 12)%nat) (frames d) /\
  0 <= power_mode d <= 2.

#[export] Instance device_ok_dec (d : device) : Decision (device_ok d).
Proof. unfold device_ok. apply _. Defined.

(** A module for the examples. *)
Definition module0 : device :=
  Device 14 [] 868130000 869525000 (chars "00A1B2C3") (chars "0123456789ABCDEF")
    0 (fun index => chars "v" ++ fmt_u index).

(** An answer text in a response buffer of [size] characters: cut to
    [size - 1] characters and terminated. *)
Definition deliver (size : Z) (text : list ascii) : list ascii :=
  match Z.to_nat size with
  | O => []
  | S m => take m text ++ [NUL]
  end.

Definition device_respond (d : device) (c : call) : list ascii * device :=
  let '(text, d') := device_answer d (call_cmd c) in
  (deliver (call_size c) text, d').

Lemma length_deliver size text : (length (deliver size text) <= Z.to_nat size)%nat.
Proof.
  unfold deliver. destruct (Z.to_nat size) as [|m]; simpl; [lia|].
  rewrite length_app, length_take. simpl. lia.
Qed.

#[export, refine] Instance device_transport : Transport device :=
  {| respond := device_respond |}.
Proof.
  intros d c. unfold device_respond. destruct (device_answer d (call_cmd c)).
  apply length_deliver.
Defined.

#[export] Instance device_terminating : Terminating device.
Proof.
  intros d c Hc. unfold respond, device_transport, device_respond.
  destruct (device_answer d (call_cmd c)) as [text d']. simpl. unfold deliver.
  destruct (Z.to_nat (call_size c)) as [|m] eqn:E; [lia|].
  apply elem_of_app. right. by apply list_elem_of_singleton.
Qed.

(** ** Properties of the definitions *)

Lemma after_app pre rest : after pre (pre ++ rest) = Some rest.
Proof.
  unfold after. rewrite take_app_length, drop_app_length. by rewrite decide_True.
Qed.

Lemma until_comma_app a b :
  ","%char ∉ a -> b = [] \/ (exists r, b = ","%char :: r) ->
  until_comma (a ++ b) = (a, b).
Proof.
  intros Ha Hb. induction a as [|c a IH]; simpl.
  - by destruct Hb as [->|[r ->]].
  - apply not_elem_of_cons in Ha as [Hc Ha].
    rewrite decide_False by done. by rewrite IH.
Qed.

Lemma hex_encode_no_comma p : ","%char ∉ hex_encode p.
Proof.
  intros Hin. pose proof (hex_encode_upper p) as Hu.
  rewrite Forall_forall in Hu. by apply Hu in Hin.
Qed.

(** The module reads back the payload and the downlink request from the
    text the driver sends. *)
Lemma parse_frame_encode p downlink_flag :
  parse_frame (hex_encode p ++ chars (downlink_suffix downlink_flag)) =
    Some (p, downlink_flag).
Proof.
  unfold parse_frame. rewrite until_comma_app.
  - rewrite hex_decode_encode. cbn [mbind option_bind]. by destruct downlink_flag.
  - apply hex_encode_no_comma.
  - destruct downlink_flag; [right; by eexists | by left].
Qed.

Lemma parse_unsigned_fmt_u v : parse_unsigned (fmt_u v) = Some (to_unsigned v).
Proof.
  destruct (fmt_u_digits v) as [Hd Hv]. pose proof (length_fmt_u v) as Hl.
  rewrite parse_unsigned_digits, Hv; [done | | done].
  intros E. rewrite E in Hl. simpl in Hl. lia.
Qed.

Lemma deliver_short text :
  (length text < 32)%nat -> deliver 32 text = text ++ [NUL].
Proof.
  intros Hl. unfold deliver. change (Z.to_nat 32) with 32%nat. cbv iota beta.
  by rewrite take_ge by lia.
Qed.

(** The module's answers to the lines of the driver. *)
Lemma device_answer_frame d p downlink_flag :
  (0 < length p <= 12)%nat ->
  device_answer d (chars "AT$SF=" ++ hex_encode p ++ chars (downlink_suffix downlink_flag)) =
    (chars "OK", with_frame d (p, downlink_flag)).
Proof.
  intros Hp. unfold device_answer. rewrite !decide_False by done.
  rewrite after_app. cbn [mbind option_bind]. rewrite parse_frame_encode.
  by rewrite (proj2 (Nat.ltb_lt _ _)), (proj2 (Nat.leb_le _ _)) by lia.
Qed.

Lemma device_answer_set d v :
  device_answer d (chars "ATS302=" ++ fmt_u v) = (chars "OK", with_level d (to_unsigned v)).
Proof.
  unfold device_answer. rewrite !decide_False by done.
  replace (after (chars "AT$SF=") (chars "ATS302=" ++ fmt_u v)) with (@None (list ascii))
    by (unfold after; by rewrite decide_False).
  rewrite after_app. cbn [mbind option_bind]. by rewrite parse_unsigned_fmt_u.
Qed.

Lemma device_answer_mode d v :
  device_answer d (chars "AT$P=" ++ fmt_u v) = (chars "OK", with_mode d (to_unsigned v)).
Proof.
  unfold device_answer. rewrite !decide_False by done.
  replace (after (chars "AT$SF=") (chars "AT$P=" ++ fmt_u v)) with (@None (list ascii))
    by (unfold after; by rewrite decide_False).
  replace (after (chars "ATS302=") (chars "AT$P=" ++ fmt_u v)) with (@None (list ascii))
    by (unfold after; by rewrite decide_False).
  rewrite after_app. cbn [mbind option_bind]. by rewrite parse_unsigned_fmt_u.
Qed.

(** A line that is neither a frame, nor a write to the register, nor a
    change of power mode leaves the module as it is. *)
Lemma device_answer_query d line :
  after (chars "AT$SF=") line = None -> after (chars "ATS302=") line = None ->
  after (chars "AT$P=") line = None ->
  (device_answer d line).2 = d.
Proof.
  intros Hf Hs Hp. unfold device_answer. rewrite Hf, Hs, Hp. cbn [mbind option_bind].
  repeat case_decide; try done. by destruct (after _ _ ≫= _).
Qed.

(** A send-frame line leaves a module in order as it is, or with one
    more frame of 1 to 12 bytes, whatever follows the prefix: the module
    refuses what is not such a frame. *)
Lemma device_answer_frame_ok d text :
  device_ok d -> device_ok (device_answer d (chars "AT$SF=" ++ text)).2.
Proof.
  intros Hd. unfold device_answer. rewrite !decide_False by done.
  rewrite after_app. cbn [mbind option_bind].
  destruct (parse_frame text) as [[p dl]|].
  - destruct (_ && _) eqn:E; [|done].
    apply andb_true_iff in E as [?%Nat.ltb_lt ?%Nat.leb_le].
    destruct Hd as (? & ? & ? & ? & ? & ? & ?). unfold device_ok. cbn.
    split_and!; try (done || lia). apply Forall_app. split; [done|].
    by apply Forall_singleton.
  - replace (after (chars "ATS302=") (chars "AT$SF=" ++ text)) with (@None (list ascii))
      by (unfold after; by rewrite decide_False).
    replace (after (chars "AT$P=") (chars "AT$SF=" ++ text)) with (@None (list ascii))
      by (unfold after; by rewrite decide_False).
    replace (after (chars "AT$I=") (chars "AT$SF=" ++ text)) with (@None (list ascii))
      by (unfold after; by rewrite decide_False).
    done.
Qed.

(** The nine digits of a frequency. *)
Lemma dec_value_zeros k ds : dec_value (replicate k "0"%char ++ ds) = dec_value ds.
Proof.
  induction k as [|k IH]; [done|].
  change (replicate (S k) "0"%char ++ ds) with ([("0"%char)] ++ replicate k "0"%char ++ ds).
  rewrite dec_value_app, IH. change (dec_value [("0"%char)]) with 0. lia.
Qed.

Lemma fmt_09_digits v :
  0 <= v < 10 ^ 9 ->
  length (fmt_09 v) = 9%nat /\ Forall (fun c => isdigit c = true) (fmt_09 v) /\
  dec_value (fmt_09 v) = v.
Proof.
  intros Hv. unfold fmt_09. destruct (digits_be_dec 9 v Hv) as [Hd Hval].
  destruct (length_digits_be 10 9 v) as [Hl _].
  rewrite length_app, length_replicate, Forall_app, dec_value_zeros.
  split; [lia|]. split; [|done]. split; [|done]. by apply Forall_replicate.
Qed.

Section device.
Implicit Types (d : device) (j : junk) (log : list call).

(** The module's state after a frame whose text is [hex_encode q]. *)
Lemma send_frame_text_delivers j p payload_size downlink_flag d log q rest :
  (payload_size <= 12)%nat -> (0 < length q <= 12)%nat ->
  payload_hex p payload_size (uninit j 56 25) = Some (hex_encode q ++ NUL :: rest) ->
  wisol_sigfox__send_frame j p payload_size downlink_flag (World d log) =
    Some (true,
          World (with_frame d (q, downlink_flag))
                (log ++ [Call (chars "AT$SF=" ++ hex_encode q
                                ++ chars (downlink_suffix downlink_flag)) 32 20000])).
Proof.
  intros Hs Hq Hp.
  rewrite (send_frame_text _ _ _ _ _ _ _ Hs Hp (hex_encode_no_NUL q))
    by len.
  rewrite is_OK_terminated by done. cbn [dev calls respond device_transport].
  unfold device_respond. cbn [call_cmd call_size].
  rewrite device_answer_frame by done.
  by rewrite deliver_short by (simpl; lia).
Qed.

(** C10. End to end, a frame: for 1 to 12 bytes that the caller's array
    holds, [wisol_sigfox__send_frame] returns true and the module has
    received exactly these bytes and the downlink request, after what it
    had received before; one call is logged. *)
Theorem send_frame_delivers j p payload_size downlink_flag d log :
  (0 < payload_size <= 12)%nat -> (payload_size <= length p)%nat ->
  wisol_sigfox__send_frame j p payload_size downlink_flag (World d log) =
    Some (true,
          World (with_frame d (take payload_size p, downlink_flag))
                (log ++ [Call (chars "AT$SF=" ++ hex_encode (take payload_size p)
                                ++ chars (downlink_suffix downlink_flag)) 32 20000])).
Proof.
  intros Hs Hp. apply send_frame_text_delivers with
    (rest := drop (2 * payload_size + 1) (uninit j 56 25));
    [lia | len |].
  apply payload_hex_stored; [lia | len].
Qed.

(** C12. End to end, the power level: after
    [wisol_sigfox__set_power_level] the module holds the level reduced to
    8 bits, and [wisol_sigfox__get_power_level] returns it, whatever the
    stack held in either call; two calls are logged and no frame is
    recorded. *)
Theorem power_level_roundtrip j1 j2 power_level0 d log :
  let c1 := Call (chars "ATS302=" ++ fmt_u (power_level0 mod 256)) 32 100 in
  let c2 := Call (chars "ATS302?") 32 100 in
  (wisol_sigfox__set_power_level j1 power_level0 ≫= fun _ =>
   wisol_sigfox__get_power_level j2) (World d log) =
    Some (power_level0 mod 256,
          World (with_level d (power_level0 mod 256)) (log ++ [c1; c2])).
Proof.
  intros c1 c2. pose proof (Z.mod_pos_bound power_level0 256 eq_refl) as Hb.
  erewrite M_bind_eq by apply set_power_level_stored.
  rewrite get_power_level_atoi. cbn [dev calls respond device_transport].
  unfold device_respond, to_uint8. cbn [call_cmd call_size].
  rewrite device_answer_set, to_unsigned_small by lia. cbn [fst snd].
  unfold device_answer. rewrite decide_False, decide_True by done. cbn [fst snd power_level with_level].
  pose proof (length_fmt_u (power_level0 mod 256)) as Hl.
  rewrite deliver_short by lia. unfold stored. rewrite <- !app_assoc. cbn [app].
  rewrite atoi_fmt_u by (done || unfold INT_MAX; lia). cbn [mbind option_bind].
  by rewrite Z.mod_mod by done.
Qed.

(** C13. The empty payload against the module: when the stack holds, where
    [payload_buf] is allocated, the hexadecimal text of some bytes [q] and
    a terminator, [wisol_sigfox__send_frame] with [payload_size] 0 returns
    true and the module has received the frame [q]: bytes of the stack
    that the caller never passed. *)
Theorem send_frame_empty_leaks j p downlink_flag d log q rest :
  uninit j 56 25 = hex_encode q ++ NUL :: rest -> (0 < length q)%nat ->
  wisol_sigfox__send_frame j p 0 downlink_flag (World d log) =
    Some (true,
          World (with_frame d (q, downlink_flag))
                (log ++ [Call (chars "AT$SF=" ++ hex_encode q
                                ++ chars (downlink_suffix downlink_flag)) 32 20000])).
Proof.
  intros Hj Hq. apply send_frame_text_delivers with (rest := rest);
    [lia | | unfold payload_hex; cbn [payload_hex_loop]; by rewrite Hj].
  apply (f_equal length) in Hj.
  rewrite length_uninit, length_app, length_hex_encode in Hj. simpl in Hj. lia.
Qed.

End device.

Lemma send_frame_delivers_witness :
  wisol_sigfox__send_frame (fun _ => "x"%char) [x01; x02; xab; xff] 3 true
    (World module0 []) =
  Some (true, World (with_frame module0 ([x01; x02; xab], true))
                    [Call (chars "AT$SF=0102AB,1") 32 20000]).
Proof.
  refine (send_frame_delivers (fun _ => "x"%char) [x01; x02; xab; xff] 3 true
    module0 [] _ _); simpl; lia.
Defined.

Lemma power_level_roundtrip_witness :
  (wisol_sigfox__set_power_level (fun _ => "x"%char) 270 ≫= fun _ =>
   wisol_sigfox__get_power_level (fun _ => "y"%char)) (World module0 []) =
  Some (14, World (with_level module0 14)
                  [Call (chars "ATS302=14") 32 100; Call (chars "ATS302?") 32 100]).
Proof.
  exact (power_level_roundtrip (fun _ => "x"%char) (fun _ => "y"%char) 270 module0 []).
Defined.

Lemma send_frame_empty_leaks_witness :
  wisol_sigfox__send_frame
    (fun i => nth (i - 56) (chars "C0FFEE" ++ [NUL]) "x"%char) [] 0 false
    (World module0 []) =
  Some (true, World (with_frame module0 ([xc0; xff; xee], false))
                    [Call (chars "AT$SF=C0FFEE") 32 20000]).
Proof.
  refine (send_frame_empty_leaks (fun i => nth (i - 56) (chars "C0FFEE" ++ [NUL]) "x"%char)
    [] false module0 [] [xc0; xff; xee] (replicate 18 "x"%char) _ _);
    [reflexivity | simpl; lia].
Defined.
