(* ===== verification/DeviceSession.v ===== *)
(** * Sessions against the module

    Whole sessions of the driver on the model of the module: every
    request of [request_ok] (the arrays the header asks for, and no frame
    of no bytes) returns, the module ends in the state
    the requests describe (every frame received, in order, the power
    level last written and the power mode last set), and it stays in
    order.  The frequency functions return, end to end, the frequency
    the module holds to within the rounding of single precision.

    Under the contract of the header alone ([header_ok]) a session
    returns exactly when every frame of no bytes finds a string on the
    stack ([empty_frame_terminated]), and the module stays in order. *)

From Stdlib Require Import Init.Byte QArith Qabs.
From S2P Require Import Prelude CString Printf Commands Float32 Rounding Transport Payload Driver.
From S2P Require Import Codec Exchange Queries Frequency Refinement Session Contract.
From S2P Require Import Independence Device.

(** The module after a request of the driver: a frame of 1 to 12 bytes is
    received, the power level is written, the power mode is set; the
    other requests are queries. *)
Definition device_after (r : request) (d : device) : device :=
  match r with
  | SendFrame p n downlink =>
      if (12 <? n)%nat then d else with_frame d (take n p, downlink)
  | SetPowerLevel l => with_level d (to_uint8 l)
  | SetPowerMode m => with_mode d (power_mode_value m)
  | _ => d
  end.

(** The module after a session. *)
Definition device_after_all (s : list (junk * request)) (d : device) : device :=
  foldl (fun d jr => device_after jr.2 d) d s.

(** What a frame of no bytes needs of the stack: a terminator among the
    25 characters where [payload_buf] is allocated.  The other requests
    need nothing. *)
Definition empty_frame_terminated (j : junk) (r : request) : Prop :=
  match r with
  | SendFrame _ O _ => NUL ∈ uninit j 56 25
  | _ => True
  end.

#[export] Instance empty_frame_terminated_dec j r : Decision (empty_frame_terminated j r).
Proof. destruct r as [| | |? [|?] ?| | | | | | | |]; simpl; apply _. Defined.

Section device_session.
Implicit Types (d : device) (j : junk) (log : list call) (r : request).

(** ** The module under one call *)

Lemma respond_query d line sz tmo :
  after (chars "AT$SF=") line = None -> after (chars "ATS302=") line = None ->
  after (chars "AT$P=") line = None ->
  (respond d (Call line sz tmo)).2 = d.
Proof.
  intros Hf Hs Hp. cbn [respond device_transport]. unfold device_respond. cbn [call_cmd].
  pose proof (device_answer_query d line Hf Hs Hp). by destruct (device_answer d line).
Qed.

Lemma respond_information d index sz tmo :
  (respond d (Call (chars "AT$I=" ++ fmt_u index) sz tmo)).2 = d.
Proof. by apply respond_query. Qed.

Lemma device_after_ok r d : request_ok r -> device_ok d -> device_ok (device_after r d).
Proof.
  intros Hr (Hp & Ht & Hx & Hi & Hc & Hf & Hm).
  destruct r as [|p|p|p n dl| | |p n|p n|p n|m| |l]; try done; cbn [device_after].
  - destruct Hr as [Hn Hl]. destruct (12 <? n)%nat eqn:E; [done|].
    apply Nat.ltb_ge in E. unfold device_ok. cbn. split_and!; try (done || lia).
    apply Forall_app. split; [done|]. apply Forall_singleton. cbn [fst].
    rewrite length_take. lia.
  - unfold device_ok. cbn. split_and!; try (done || lia); by destruct m.
  - pose proof (to_uint8_range l). unfold device_ok. cbn. split_and!; done || lia.
Qed.

(** ** One request *)

(** The register read back: the level the module holds. *)
Lemma get_power_level_device j d log :
  0 <= power_level d < 256 ->
  wisol_sigfox__get_power_level j (World d log) =
    Some (power_level d, World d (log ++ [Call (chars "ATS302?") 32 100])).
Proof.
  intros Hp. rewrite get_power_level_atoi. cbn [dev calls respond device_transport].
  unfold device_respond, device_answer. cbn [call_cmd call_size].
  rewrite decide_False, decide_True by done. cbn [fst snd].
  pose proof (length_fmt_u (power_level d)) as Hl.
  rewrite deliver_short by lia. unfold stored. rewrite <- !app_assoc. cbn [app].
  rewrite atoi_fmt_u by (done || unfold INT_MAX; lia). cbn [mbind option_bind].
  unfold to_uint8. by rewrite Z.mod_small by lia.
Qed.

(** Every request of [request_ok] returns against a module in order, and
    leaves the module as [device_after] says. *)
Lemma perform_device j r d log :
  request_ok r -> device_ok d ->
  exists x new, perform j r (World d log) = Some (x, World (device_after r d) (log ++ new)).
Proof.
  intros Hr Hd. destruct r as [|p|p|p n dl| | |p n|p n|p n|m| |l]; cbn [perform request_ok header_ok device_after] in *.
  - erewrite M_bind_eq by apply ready_stored. cbn [dev]. rewrite respond_query by done.
    by eexists _, [_].
  - erewrite M_bind_eq by (apply get_identity_stored; simpl; lia). cbn [dev].
    rewrite (respond_information d 10). by eexists _, [_].
  - erewrite M_bind_eq by (apply get_identity_stored; simpl; lia). cbn [dev].
    rewrite (respond_information d 11). by eexists _, [_].
  - destruct Hr as [Hn Hl]. destruct (12 <? n)%nat eqn:E.
    + unfold wisol_sigfox__send_frame. rewrite E. exists (RBool false), [].
      by rewrite app_nil_r.
    + apply Nat.ltb_ge in E. erewrite M_bind_eq; [by eexists _, [_]|].
      apply send_frame_text_delivers with (rest := drop (2 * n + 1) (uninit j 56 25));
        [lia | len |].
      apply payload_hex_stored; [lia | len].
  - destruct (get_freq_exchange CMD_GET_TX_FREQ (lit "AT$IF?") (chars "AT$IF?") j
                (World d log) eq_refl eq_refl) as (x & Hx & _).
    erewrite M_bind_eq by exact Hx. cbn [dev]. rewrite respond_query by done.
    by eexists _, [_].
  - destruct (get_freq_exchange CMD_GET_RX_FREQ (lit "AT$DR?") (chars "AT$DR?") j
                (World d log) eq_refl eq_refl) as (x & Hx & _).
    erewrite M_bind_eq by exact Hx. cbn [dev]. rewrite respond_query by done.
    by eexists _, [_].
  - pose proof (to_int_of_nat_le n).
    erewrite M_bind_eq by (apply get_information_stored; lia). cbn [dev].
    rewrite (respond_information d 8). by eexists _, [_].
  - destruct n as [|n];
      [erewrite M_bind_eq by (by rewrite get_firmware_version_eq)
      |erewrite M_bind_eq by (apply get_firmware_version_terminated; lia)].
    all: cbn [dev]; rewrite (respond_information d 4), (respond_information d 5).
    all: by eexists _, [_; _].
  - pose proof (to_int_of_nat_le n).
    erewrite M_bind_eq by (apply get_information_stored; lia). cbn [dev].
    rewrite (respond_information d 9). by eexists _, [_].
  - erewrite M_bind_eq by apply set_power_mode_stored. cbn [dev respond device_transport].
    unfold device_respond. cbn [call_cmd].
    replace (chars (power_mode_line m)) with (chars "AT$P=" ++ fmt_u (power_mode_value m))
      by (by destruct m).
    rewrite device_answer_mode, to_unsigned_small by (by destruct m). by eexists _, [_].
  - erewrite M_bind_eq by (apply get_power_level_device, Hd). by eexists _, [_].
  - erewrite M_bind_eq by apply set_power_level_stored. cbn [dev respond device_transport].
    unfold device_respond. cbn [call_cmd]. rewrite device_answer_set. cbn [snd].
    rewrite to_unsigned_small by (pose proof (to_uint8_range l); lia).
    by eexists _, [_].
Qed.

(** ** One request under the contract of the header *)

Lemma respond_state d c : (respond d c).2 = (device_answer d (call_cmd c)).2.
Proof.
  cbn [respond device_transport]. unfold device_respond.
  by destruct (device_answer d (call_cmd c)).
Qed.

Lemma not_empty_frame p n dl : forall p' dl', SendFrame p (S n) dl <> SendFrame p' 0 dl'.
Proof. done. Qed.

(** A request that respects the header is defined against a module in
    order unless it is a frame of no bytes on a stack without a
    terminator. *)
Lemma header_safe j r d log :
  header_ok r -> device_ok d -> safe j r (World d log) <-> empty_frame_terminated j r.
Proof.
  intros Hr Hd. destruct r as [|p|p|p [|n] dl| | |p n|p n|p n|m| |l].
  4: { cbn [safe empty_frame_terminated frame_text]. rewrite cstr_is_Some.
       split; [by intros [?|[_ ?]]; [lia|] | intros ?; right; split; [lia | done]]. }
  all: split; [done | intros _]; apply perform_safe_iff.
  all: destruct (perform_device j _ d log (header_ok_request_ok _ Hr ltac:(done)) Hd)
         as (x & new & ->); by eexists.
Qed.

(** The module stays in order under the calls of a request that respects
    the header, whatever the stack holds. *)
Lemma replay_device_ok j r d log :
  header_ok r -> device_ok d -> device_ok (dev (replay (calls_for j r) (World d log))).
Proof.
  intros Hr Hd. destruct r as [|p|p|p [|n] dl| | |p n|p n|p n|m| |l].
  4: { cbn [calls_for frame_text]. change (12 <? 0)%nat with false. cbv iota.
       destruct (cstr _) as [text|]; [|done]. cbn [replay foldl dev].
       rewrite respond_state. by apply device_answer_frame_ok. }
  all: pose proof (header_ok_request_ok _ Hr ltac:(done)) as Hok.
  all: destruct (perform_device j _ d log Hok Hd) as (x & new & Hp).
  all: rewrite <- (perform_replay _ _ _ _ _ Hp); by apply device_after_ok.
Qed.

(** ** The frequencies *)

(** The shared body of the frequency functions against a module that
    answers the line [f] with the nine digits of [hz]. *)
Lemma get_freq_device c fmt f hz j d log :
  command c = Some fmt -> cstr fmt = Some f ->
  device_answer d f = (fmt_09 hz, d) -> 0 <= hz < 10 ^ 9 ->
  exists x, get_freq c j (World d log) = Some (x, World d (log ++ [Call f 32 100])) /\
    exists q, f32_value x = Some q /\
      Qle (Qabs (Qminus q (Qmake hz 1000000))) (Qplus (Qmake 1 32768) (Qmake 1 33554432)).
Proof.
  intros Hc Hf Ha Hz. destruct (fmt_09_digits hz Hz) as (Hl & Hds & Hv).
  destruct (get_freq_exchange c fmt f j (World d log) Hc Hf) as (x & Hx & Hp).
  cbn [dev calls respond device_transport] in Hx, Hp. unfold device_respond in Hx, Hp.
  cbn [call_cmd call_size] in Hx, Hp. rewrite Ha in Hx, Hp. cbn [fst snd] in Hx, Hp.
  exists x. split; [done|]. rewrite deliver_short in Hp by lia.
  unfold stored in Hp. rewrite <- app_assoc, (freq_str_to_fl_nine _ _ _ Hl Hds) in Hp.
  injection Hp as <-. destruct (freq_of_digits_near _ Hl Hds) as (q & Hq & Hb).
  rewrite Hv in Hb. by exists q.
Qed.

(** C17. Every session returns.  Against a module in order, a session of
    requests that satisfy [request_ok] returns whatever the stack holds at
    each call: no request is undefined or stuck.  [request_ok] is what the
    header asks of the arrays ([header_ok]) except for a frame, which
    must announce at least one byte (the header does not ask it; see
    [send_frame_empty_leaks] for the frame of no bytes) and may announce
    more than 12 (the header forbids it; the function rejects it).  The
    module ends in the state the requests describe, with every frame of 1
    to 12 bytes received in the order sent, the power level last written,
    reduced to 8 bits, and the power mode last set, and it is in order
    again. *)
Theorem device_session_returns (s : list (junk * request)) d log :
  Forall (fun jr => request_ok jr.2) s -> device_ok d ->
  exists log', run s (World d log) = Some (World (device_after_all s d) log') /\
    device_ok (device_after_all s d).
Proof.
  intros Hs. revert d log. induction Hs as [|[j r] s Hr Hs IH]; intros d log Hd.
  - by exists log.
  - destruct (perform_device j r d log Hr Hd) as (x & new & Hx).
    destruct (IH (device_after r d) (log ++ new)) as (log' & Hrun & Hok);
      [by apply device_after_ok|].
    exists log'. split; [|done]. cbn [run]. unfold exec. by rewrite Hx.
Qed.

(** C29. End to end, the frequencies: against a module in order
    [wisol_sigfox__get_tx_freq] and [wisol_sigfox__get_rx_freq] return, on
    every stack, a finite [float] within [2^-15 + 2^-25] MHz of the
    frequency the module holds, and leave the module as it was, with one
    call logged. *)
Theorem device_frequency j d log :
  device_ok d ->
  let near hz x := exists q, f32_value x = Some q /\
    Qle (Qabs (Qminus q (Qmake hz 1000000))) (Qplus (Qmake 1 32768) (Qmake 1 33554432)) in
  (exists x, wisol_sigfox__get_tx_freq j (World d log) =
      Some (x, World d (log ++ [Call (chars "AT$IF?") 32 100])) /\ near (tx_freq d) x) /\
  (exists x, wisol_sigfox__get_rx_freq j (World d log) =
      Some (x, World d (log ++ [Call (chars "AT$DR?") 32 100])) /\ near (rx_freq d) x).
Proof.
  intros (_ & Ht & Hx & _) near. split.
  - by apply (get_freq_device CMD_GET_TX_FREQ (lit "AT$IF?") (chars "AT$IF?")).
  - by apply (get_freq_device CMD_GET_RX_FREQ (lit "AT$DR?") (chars "AT$DR?")).
Qed.

(** C18. The contract of the header, against the module.  For a session
    of requests that ask what the header asks and no more (arrays of 9
    and 17 characters for the identifier and the PAC, at most 12 bytes
    of payload in an array that holds them, a size within the array for
    the versions), against a module in order: the session returns
    exactly when every frame of no bytes finds a terminator among the
    25 characters of the stack where [payload_buf] is allocated, so that
    the contract of the header keeps every function inside its arrays
    but for the frame of no bytes, which the header allows; and when
    the session returns the module is in order again, also after the
    frames it was sent from the stack. *)
Theorem header_session_returns (s : list (junk * request)) d log :
  Forall (fun jr => header_ok jr.2) s -> device_ok d ->
  (is_Some (run s (World d log)) <->
     Forall (fun jr => empty_frame_terminated jr.1 jr.2) s) /\
  (forall w', run s (World d log) = Some w' -> device_ok (dev w')).
Proof.
  intros Hs. revert d log. induction Hs as [|[j r] s Hr Hs IH]; intros d log Hd.
  { split; [by split; [|eexists] | by intros w' [= <-]]. }
  cbn [run]. unfold exec.
  rewrite Forall_cons, <- (header_safe j r d log Hr Hd), <- perform_safe_iff.
  pose proof (replay_device_ok j r d log Hr Hd) as Hd1.
  destruct (perform j r (World d log)) as [[x w1]|] eqn:Hp;
    cbn [fmap option_fmap option_map mbind option_bind snd fst].
  - rewrite <- (perform_replay _ _ _ _ _ Hp) in Hd1. destruct w1 as [d1 log1].
    destruct (IH d1 log1 Hd1) as [IH1 IH2]. split; [|done].
    rewrite <- IH1. split; [by split; [eexists|] | by intros [_ ?]].
  - split; [|done]. split; [by intros ?%is_Some_None | by intros [?%is_Some_None _]].
Qed.

End device_session.

Lemma device_session_returns_witness :
  exists log',
    run [(fun _ => "x"%char, SetPowerLevel 270);
         (fun _ => "y"%char, SendFrame [x01; x02; xab] 2 true);
         (fun _ => "z"%char, GetPowerLevel);
         (fun _ => "x"%char, SetPowerMode WISOL_SIGFOX__POWER_MODE_DEEPSLEEP);
         (fun _ => "x"%char, SendFrame [xc0; xff; xee] 3 false)] (World module0 []) =
      Some (World (Device 14 [([x01; x02], true); ([xc0; xff; xee], false)]
                     868130000 869525000 (chars "00A1B2C3") (chars "0123456789ABCDEF")
                     2 (dev_info module0)) log') /\
    device_ok (Device 14 [([x01; x02], true); ([xc0; xff; xee], false)]
                 868130000 869525000 (chars "00A1B2C3") (chars "0123456789ABCDEF")
                 2 (dev_info module0)).
Proof.
  refine (device_session_returns
    [(fun _ => "x"%char, SetPowerLevel 270);
     (fun _ => "y"%char, SendFrame [x01; x02; xab] 2 true);
     (fun _ => "z"%char, GetPowerLevel);
     (fun _ => "x"%char, SetPowerMode WISOL_SIGFOX__POWER_MODE_DEEPSLEEP);
     (fun _ => "x"%char, SendFrame [xc0; xff; xee] 3 false)] module0 [] _ _);
    by apply (bool_decide_unpack _).
Defined.

Lemma device_frequency_witness :
  let near hz x := exists q, f32_value x = Some q /\
    Qle (Qabs (Qminus q (Qmake hz 1000000))) (Qplus (Qmake 1 32768) (Qmake 1 33554432)) in
  (exists x, wisol_sigfox__get_tx_freq (fun _ => "x"%char) (World module0 []) =
      Some (x, World module0 [Call (chars "AT$IF?") 32 100]) /\ near 868130000 x) /\
  (exists x, wisol_sigfox__get_rx_freq (fun _ => "x"%char) (World module0 []) =
      Some (x, World module0 [Call (chars "AT$DR?") 32 100]) /\ near 869525000 x).
Proof.
  refine (device_frequency (fun _ => "x"%char) module0 [] _). by apply (bool_decide_unpack _).
Defined.

Lemma header_session_returns_witness :
  let j := fun i => nth (i - 56) (chars "C0FFEE" ++ [NUL]) "x"%char in
  let s := [(j, GetId (replicate 9 "#"%char)); (j, SendFrame [] 0 false);
            (j, GetPowerLevel)] in
  (is_Some (run s (World module0 [])) <->
     Forall (fun jr => empty_frame_terminated jr.1 jr.2) s) /\
  (forall w', run s (World module0 []) = Some w' -> device_ok (dev w')).
Proof.
  intros j s. apply header_session_returns; by apply (bool_decide_unpack _).
Defined.
